(** * AgentWallet V2: policy evaluation and transaction lifecycle

    A shallow embedding of the governance core of the AgentWallet SDK.
    Each module follows one source file (line numbers are those of the
    files under src/):

    - [RulesEngine]: services/rulesEngine, the rules engine with its kill
      switch (packages/sdk/src/services/stripeService.js, 314-911)
    - [canAccessAgent]: packages/sdk/src/middleware/auth.js, 86-98
    - [Transactions]: POST /api/transactions, its approve and reject
      routes and [executeTransaction]
      (packages/sdk/src/routes/transactions.js, 15-132, 166-264 and
      305-330), and the deposit route of routes/wallets
      (packages/sdk/src/routes/spawn.js, 297-350)
    - [DeadManSwitch]: services/deadManSwitch (unnamed/part_008)
    - [SpawnGovernor]: packages/sdk/src/services/spawnGovernor.js, 1-307
    - [CrossAgentGovernor]: services/crossAgentGovernor
      (packages/sdk/src/services/spawnGovernor.js, 308-634)
    - [Wallets]: the freeze and unfreeze routes of routes/wallets
      (packages/sdk/src/routes/spawn.js, 356-404)
    - [KillSwitchRoutes]: POST /api/killswitch/:id/reset
      (unnamed/part_005, 184-225)
    - [StripeService]: the payment webhook
      (packages/sdk/src/services/stripeService.js, 136-172)
    - [Rules]: the parameter validation of the rule routes
      (packages/sdk/src/routes/rules.js, 290-333)
    - [DeadManControls]: heartbeat, monitor and manual controls of the
      dead-man switch (unnamed/part_008, 67-91 and 183-273)

    Conventions of the embedding.

    - The Prisma store is a record of tables, each table a list of rows in
      insertion order.  [findMany] is a [filter] whose predicate is the
      [where] clause, [findFirst]/[findUnique] take the first matching row,
      [orderBy] is a merge sort.
    - Money and every other number that is not an integer count is a
      rational ([Q]): the decimal the store or the request holds.  The
      store adds and subtracts decimals exactly (increment, decrement,
      _sum).  Where the rules engine itself adds, subtracts or divides
      (the spend limits, the kill-switch conditions), and where the spawn
      governor derives a child's limits, the arithmetic is that of
      JavaScript numbers, and the model rounds as binary64 does ([double],
      [js_add], [js_sub], [js_div], [js_mul]).  [parseFloat] of an absent
      field is NaN and is modelled by [None], every comparison with it
      being false.
    - A handler is a function on the store: it runs from its first read to
      its last write with no other request in between.  The source holds
      no lock that would make it so; [approve_step] gives the approval
      handler await by await, for the statements about interleavings.
    - Instants are milliseconds since the epoch ([Z]).  The instants a
      handler reads from the wall clock come in as a [Clock].
    - A handler that can throw returns an [option]; [None] is the exception.
    - Human readable [reason] / [details] strings of results are left out:
      they are formatted from the values the model keeps. *)

From Stdlib Require Import QArith Qabs Qminmax Qround Qpower ZArith Lia Lqa.
From stdpp Require Import base option list sorting gmap strings.

Set Default Proof Using "Type".

(** ** JavaScript helpers *)

Global Instance Qeq_decision : RelDecision Qeq := Qeq_dec.

Global Instance Qle_decision : RelDecision Qle.
Proof.
  intros x y. destruct (Qlt_le_dec y x) as [H|H].
  - right. apply Qlt_not_le, H.
  - left. exact H.
Defined.

Global Instance Qlt_decision : RelDecision Qlt.
Proof.
  intros x y. destruct (Qlt_le_dec x y) as [H|H].
  - left. exact H.
  - right. apply Qle_not_lt, H.
Defined.

(** [x || d] on a number that may be absent: 0, NaN and undefined are falsy. *)
Definition num_or (x : option Q) (d : Q) : Q :=
  match x with
  | Some q => if decide (q == 0)%Q then d else q
  | None => d
  end.

(** Truthiness of an optional string: undefined, null and the empty string
    are falsy. *)
Definition truthy (s : option string) : bool :=
  match s with
  | Some s => negb (String.eqb s "")
  | None => false
  end.

(** [arr.includes(x)] where [x] may be undefined. *)
Definition includes (arr : list string) (x : option string) : bool :=
  match x with
  | Some s => bool_decide (s ∈ arr)
  | None => false
  end.

(** [a <= b], [a > b] where [b] is the result of a [parseFloat]. *)
Definition le_nan (a : Q) (b : option Q) : bool :=
  match b with Some b => bool_decide (a <= b)%Q | None => false end.

Definition gt_nan (a : Q) (b : option Q) : bool :=
  match b with Some b => bool_decide (b < a)%Q | None => false end.

(** The digit before the point of a positive number written in exponent
    notation. *)
Fixpoint leadingDigit (fuel : nat) (q : Q) : Z :=
  match fuel with
  | O => Qfloor q
  | S fuel =>
      if decide (10 <= q)%Q then leadingDigit fuel (q / 10)
      else if decide (q < 1)%Q then leadingDigit fuel (q * 10)
      else Qfloor q
  end.

(** [parseInt(x)] turns [x] into a string and reads the integer that string
    starts with.  A number, like a Prisma Decimal, prints in exponent
    notation from 1e21 up and below 1e-6 ("1e+21", "2.5e-7"), of which
    [parseInt] reads the digit before the point; otherwise it prints in
    full, and [parseInt] truncates toward zero. *)
Definition parseInt (q : Q) : Z :=
  let a := Qabs q in
  if bool_decide (inject_Z (10 ^ 21) <= a)%Q
     || (bool_decide (0 < a)%Q && bool_decide (a < 1 # 1000000)%Q)
  then (Z.sgn (Qnum q)
        * leadingDigit (S (Z.to_nat (Z.log2 (Qnum a) + Z.log2 (Z.pos (Qden a)))))
                       a)%Z
  else Z.quot (Qnum q) (Z.pos (Qden q)).

(** Sum of a column, as Prisma's [_sum] computes it in the store. *)
Definition sumQ (l : list Q) : Q := foldr Qplus 0%Q l.

(** *** Doubles

    A JavaScript number is an IEEE 754 binary64 value.  [double q] is the
    number JavaScript holds for the decimal [q] ([parseFloat] of a stored
    Decimal, a number of a JSON document): the nearest value with a 53-bit
    significand, ties to the even significand, subnormal below 2^-1022.
    The overflow to Infinity, beyond 1.8e308, is not modelled. *)

(** The exponent of a positive number: [2^e <= q < 2^(e+1)]. *)
Definition ilog2 (q : Q) : Z :=
  let e := (Z.log2 (Qnum q) - Z.log2 (Z.pos (Qden q)))%Z in
  if decide (2 ^ e <= q)%Q then e else (e - 1)%Z.

(** Rounding to the nearest integer, ties to even. *)
Definition rne (q : Q) : Z :=
  let f := Qfloor q in
  let r := (q - inject_Z f)%Q in
  if decide (r < 1 # 2)%Q then f
  else if decide (1 # 2 < r)%Q then (f + 1)%Z
  else if Z.even f then f else (f + 1)%Z.

Definition double_pos (q : Q) : Q :=
  let e := Z.max (ilog2 q) (-1022) in
  let ulp := (2 ^ (e - 52))%Q in
  Qred (inject_Z (rne (q / ulp)) * ulp).

Definition double (q : Q) : Q :=
  if decide (0 < q)%Q then double_pos q
  else if decide (q < 0)%Q then (- double_pos (- q))%Q
  else 0%Q.
Global Arguments double : simpl never.

(** [a + b], [a - b], [a / b] and [a * b] on numbers: the exact result
    of the operation on the two doubles, rounded. *)
Definition js_add (a b : Q) : Q := double (double a + double b).
Definition js_sub (a b : Q) : Q := double (double a - double b).
Definition js_div (a b : Q) : Q := double (double a / double b).
Definition js_mul (a b : Q) : Q := double (double a * double b).

(** ** Data model *)

Inductive AgentStatus :=
  | A_ACTIVE | A_PAUSED | A_SUSPENDED | A_FROZEN | A_TERMINATED | A_KILLED.

Inductive WalletStatus :=
  | W_ACTIVE | W_FROZEN | W_CLOSED | W_KILL_SWITCHED.

Inductive TransactionStatus :=
  | PENDING | APPROVED | AWAITING_APPROVAL | REJECTED | COMPLETED
  | FAILED | CANCELLED | KILL_SWITCHED.

Inductive RecipientType := AGENT_WALLET | EXTERNAL | ESCROW.

Inductive RuleType :=
  | PER_TRANSACTION_LIMIT | DAILY_LIMIT | WEEKLY_LIMIT | MONTHLY_LIMIT
  | CATEGORY_WHITELIST | CATEGORY_BLACKLIST
  | RECIPIENT_WHITELIST | RECIPIENT_BLACKLIST
  | TIME_WINDOW | REQUIRES_APPROVAL | SIGNAL_FILTER
  | UNKNOWN_RULE.

Inductive TriggerType :=
  | DRAWDOWN_PERCENT | LOSS_AMOUNT | CONSECUTIVE_LOSSES | DAILY_LOSS_LIMIT
  | UNKNOWN_TRIGGER.

Inductive Decision_ := ALLOWED | BLOCKED | ESCALATED | SYSTEM.

Global Instance AgentStatus_eq_dec : EqDecision AgentStatus.
Proof. solve_decision. Defined.
Global Instance WalletStatus_eq_dec : EqDecision WalletStatus.
Proof. solve_decision. Defined.
Global Instance TransactionStatus_eq_dec : EqDecision TransactionStatus.
Proof. solve_decision. Defined.
Global Instance RuleType_eq_dec : EqDecision RuleType.
Proof. solve_decision. Defined.
Global Instance TriggerType_eq_dec : EqDecision TriggerType.
Proof. solve_decision. Defined.

Record Agent := {
  a_id : string;
  a_ownerId : string;
  a_status : AgentStatus;
}.

Record Wallet := {
  w_id : string;
  w_agentId : string;
  w_balance : Q;
  w_status : WalletStatus;
}.

(** [SpendRule.parameters] is a JSON document; these are the keys the
    engine reads or writes. *)
Record RuleParams := {
  p_limit : option Q;
  p_threshold : option Q;
  p_categories : option (list string);
  p_recipients : option (list string);
  p_startHour : option Z;
  p_endHour : option Z;
  p_allowedSignals : option (list string);
  p_throttled : bool;
}.

Record SpendRule := {
  r_id : string;
  r_walletId : string;
  r_ruleType : RuleType;
  r_parameters : RuleParams;
  r_active : bool;
  r_priority : Z;
}.

Record KillSwitch := {
  ks_id : string;
  ks_walletId : string;
  ks_triggerType : TriggerType;
  ks_threshold : Q;
  ks_windowHours : Z;
  ks_active : bool;
  ks_triggered : bool;
  ks_triggeredAt : option Z;
  ks_resetAt : option Z;
  ks_currentValue : option Q;
}.

(** The keys of [Transaction.metadata] that the engine reads. *)
Record Metadata := {
  md_pnl : option Q;
  md_signal_strength : option string;
}.

Definition no_metadata : Metadata :=
  {| md_pnl := None; md_signal_strength := None |}.

(** One entry of [results] in an evaluation.  [rr_ruleType] is [None] for
    the synthetic KILL_SWITCH entry. *)
Record RuleResult := {
  rr_ruleId : string;
  rr_ruleType : option RuleType;
  rr_passed : bool;
}.

Record Evaluation := {
  approved : bool;
  killSwitched : bool;
  requiresApproval : bool;
  results : list RuleResult;
  evaluatedAt : Z;
}.

(** A transaction row.  Its id is its position in the table: rows are only
    ever appended. *)
Record Transaction := {
  tx_walletId : string;
  tx_amount : Q;
  tx_recipientId : option string;
  tx_recipientType : RecipientType;
  tx_category : option string;
  tx_description : option string;
  tx_status : TransactionStatus;
  tx_ruleCheckResults : option Evaluation;
  tx_metadata : Metadata;
  tx_createdAt : Z;
  tx_completedAt : option Z;
}.

Inductive AuditReasoning :=
  | ReasonTriggered (tt : TriggerType) (threshold : Q) (currentValue : option Q)
  | ReasonReset (resetBy walletId : string).

Record AuditLog := {
  al_agentId : string;
  al_action : string;
  al_resource : string;
  al_resourceId : string;
  al_decision : Decision_;
  al_reasoning : AuditReasoning;
}.

(** *** V2 governance entities *)

Record SpawnPolicy := {
  inheritSpendLimits : bool;
  inheritVendorAllowlist : bool;
  inheritKillSwitch : bool;
  maxSpendRatio : Q;
  maxTransactionRatio : Q;
  maxSpawnDepth : Z;
  maxChildren : Z;
  childrenCanSpawn : bool;
  sharedBudget : bool;
  childBudgetAllocation : Q;
}.

Inductive LineageStatus := L_active | L_terminated.

Record AgentLineage := {
  l_agentId : string;
  l_parentId : option string;
  l_rootId : string;
  l_depth : Z;
  l_childrenIds : list string;
  l_status : LineageStatus;
  l_spawnPolicy : option SpawnPolicy;
}.

Record ChildPolicy := {
  dailyLimit : Q;
  maxSpendPerTx : Q;
  vendorAllowlist : list string;
}.

Record SpawnEvent := {
  se_parentId : string;
  se_childId : string;
  se_depth : Z;
  se_inheritedPolicy : option ChildPolicy;
  se_authorized : bool;
}.

Inductive Action := alert | throttle | freeze | terminate | other_action.

Global Instance Action_eq_dec : EqDecision Action.
Proof. solve_decision. Defined.

Record DeadManSwitchConfig := {
  c_agentId : string;
  heartbeatIntervalSeconds : Z;
  missedHeartbeatThreshold : Z;
  anomalyWindowMinutes : Z;
  anomalySpendMultiplier : Q;
  maxTxPerMinute : Z;
  maxUniqueVendorsPerHour : Z;
  onAnomaly : Action;
  onMissedHeartbeat : Action;
  onManualTrigger : Action;
  cascadeToChildren : bool;
  recoveryRequiresHuman : bool;
  enabled : bool;
}.

Inductive DmsTrigger := T_velocity | T_anomaly | T_heartbeat | T_manual.

Inductive DmsDetails :=
  | D_txPerMinute (count : nat) (limit : Z)
  | D_uniqueVendors (count : nat) (limit : Z)
  | D_anomaly (currentWindowSpend historicalAverage multiplier : Q)
  | D_heartbeat (secondsSinceLastBeat threshold : Z)
  | D_manual (operator : option string).

Record DeadManSwitchEvent := {
  e_agentId : string;
  e_triggerType : DmsTrigger;
  e_actionTaken : option Action;   (* [None] is the 'unfreeze' record *)
  e_details : DmsDetails;
  e_cascadedTo : list string;
  e_resolved : bool;
}.

Inductive SettlementMode := immediate | batched | escrow.
Inductive SettlementStatus := S_pending | S_settled | S_failed.
Inductive AuthorizationMethod := M_auto | M_escalated | M_human_approved.

Global Instance SettlementStatus_eq_dec : EqDecision SettlementStatus.
Proof. solve_decision. Defined.

Record CrossAgentPolicy := {
  cp_id : string;
  cp_ownerId : string;
  cp_sourceAgentId : string;
  cp_targetAgentId : option string;
  cp_targetAgentGroup : option string;
  maxPerTransaction : Q;
  maxDailyToTarget : Q;
  maxDailyAllAgents : Q;
  requireHumanApprovalAbove : Q;
  allowedPaymentTypes : list string;
  requireMutualPolicy : bool;
  settlementMode : SettlementMode;
  minCounterpartyTrustScore : Q;
  cp_enabled : bool;
}.

Record AgentGroup := {
  g_ownerId : string;
  g_name : string;
  g_agentIds : list string;
}.

(** A cross-agent transaction row; its id is its position in the table. *)
Record CrossAgentTransaction := {
  x_sourceAgentId : string;
  x_targetAgentId : string;
  x_amount : Q;
  x_paymentType : string;
  x_policyId : option string;
  x_authorized : bool;
  x_authorizationMethod : AuthorizationMethod;
  x_settlementStatus : SettlementStatus;
  x_requiresHuman : bool;
  x_createdAt : Z;
}.

(** ** The store *)

Record Db := {
  agents : list Agent;
  wallets : list Wallet;
  spendRules : list SpendRule;
  killSwitches : list KillSwitch;
  transactions : list Transaction;
  auditLogs : list AuditLog;
  lineages : list AgentLineage;
  spawnEvents : list SpawnEvent;
  dmsConfigs : list DeadManSwitchConfig;
  dmsEvents : list DeadManSwitchEvent;
  policies : list CrossAgentPolicy;
  groups : list AgentGroup;
  crossTxs : list CrossAgentTransaction;
}.

Definition empty_db : Db :=
  {| agents := []; wallets := []; spendRules := []; killSwitches := [];
     transactions := []; auditLogs := []; lineages := []; spawnEvents := [];
     dmsConfigs := []; dmsEvents := []; policies := []; groups := [];
     crossTxs := [] |}.

Definition set_agents (f : list Agent → list Agent) (d : Db) : Db :=
  Build_Db (f (agents d)) (wallets d) (spendRules d) (killSwitches d)
    (transactions d) (auditLogs d) (lineages d) (spawnEvents d)
    (dmsConfigs d) (dmsEvents d) (policies d) (groups d) (crossTxs d).
Definition set_wallets (f : list Wallet → list Wallet) (d : Db) : Db :=
  Build_Db (agents d) (f (wallets d)) (spendRules d) (killSwitches d)
    (transactions d) (auditLogs d) (lineages d) (spawnEvents d)
    (dmsConfigs d) (dmsEvents d) (policies d) (groups d) (crossTxs d).
Definition set_spendRules (f : list SpendRule → list SpendRule) (d : Db) : Db :=
  Build_Db (agents d) (wallets d) (f (spendRules d)) (killSwitches d)
    (transactions d) (auditLogs d) (lineages d) (spawnEvents d)
    (dmsConfigs d) (dmsEvents d) (policies d) (groups d) (crossTxs d).
Definition set_killSwitches (f : list KillSwitch → list KillSwitch) (d : Db) : Db :=
  Build_Db (agents d) (wallets d) (spendRules d) (f (killSwitches d))
    (transactions d) (auditLogs d) (lineages d) (spawnEvents d)
    (dmsConfigs d) (dmsEvents d) (policies d) (groups d) (crossTxs d).
Definition set_transactions (f : list Transaction → list Transaction) (d : Db) : Db :=
  Build_Db (agents d) (wallets d) (spendRules d) (killSwitches d)
    (f (transactions d)) (auditLogs d) (lineages d) (spawnEvents d)
    (dmsConfigs d) (dmsEvents d) (policies d) (groups d) (crossTxs d).
Definition set_auditLogs (f : list AuditLog → list AuditLog) (d : Db) : Db :=
  Build_Db (agents d) (wallets d) (spendRules d) (killSwitches d)
    (transactions d) (f (auditLogs d)) (lineages d) (spawnEvents d)
    (dmsConfigs d) (dmsEvents d) (policies d) (groups d) (crossTxs d).
Definition set_lineages (f : list AgentLineage → list AgentLineage) (d : Db) : Db :=
  Build_Db (agents d) (wallets d) (spendRules d) (killSwitches d)
    (transactions d) (auditLogs d) (f (lineages d)) (spawnEvents d)
    (dmsConfigs d) (dmsEvents d) (policies d) (groups d) (crossTxs d).
Definition set_spawnEvents (f : list SpawnEvent → list SpawnEvent) (d : Db) : Db :=
  Build_Db (agents d) (wallets d) (spendRules d) (killSwitches d)
    (transactions d) (auditLogs d) (lineages d) (f (spawnEvents d))
    (dmsConfigs d) (dmsEvents d) (policies d) (groups d) (crossTxs d).
Definition set_dmsEvents (f : list DeadManSwitchEvent → list DeadManSwitchEvent) (d : Db) : Db :=
  Build_Db (agents d) (wallets d) (spendRules d) (killSwitches d)
    (transactions d) (auditLogs d) (lineages d) (spawnEvents d)
    (dmsConfigs d) (f (dmsEvents d)) (policies d) (groups d) (crossTxs d).
Definition set_dmsConfigs (f : list DeadManSwitchConfig → list DeadManSwitchConfig) (d : Db) : Db :=
  Build_Db (agents d) (wallets d) (spendRules d) (killSwitches d)
    (transactions d) (auditLogs d) (lineages d) (spawnEvents d)
    (f (dmsConfigs d)) (dmsEvents d) (policies d) (groups d) (crossTxs d).
Definition set_policies (f : list CrossAgentPolicy → list CrossAgentPolicy) (d : Db) : Db :=
  Build_Db (agents d) (wallets d) (spendRules d) (killSwitches d)
    (transactions d) (auditLogs d) (lineages d) (spawnEvents d)
    (dmsConfigs d) (dmsEvents d) (f (policies d)) (groups d) (crossTxs d).
Definition set_groups (f : list AgentGroup → list AgentGroup) (d : Db) : Db :=
  Build_Db (agents d) (wallets d) (spendRules d) (killSwitches d)
    (transactions d) (auditLogs d) (lineages d) (spawnEvents d)
    (dmsConfigs d) (dmsEvents d) (policies d) (f (groups d)) (crossTxs d).
Definition set_crossTxs (f : list CrossAgentTransaction → list CrossAgentTransaction) (d : Db) : Db :=
  Build_Db (agents d) (wallets d) (spendRules d) (killSwitches d)
    (transactions d) (auditLogs d) (lineages d) (spawnEvents d)
    (dmsConfigs d) (dmsEvents d) (policies d) (groups d) (f (crossTxs d)).

(** Prisma primitives.  [create] appends; [updateMany] rewrites every row
    matching the [where] clause. *)
Definition create {A} (row : A) (table : list A) : list A := table ++ [row].

Definition updateMany {A} (P : A → Prop) `{∀ x, Decision (P x)}
    (f : A → A) (table : list A) : list A :=
  (λ x, if decide (P x) then f x else x) <$> table.

(** [orderBy: { key: 'asc' }] and [orderBy: { key: 'desc' }] *)
Definition asc {A} (key : A → Z) (a b : A) : Prop := (key a ≤ key b)%Z.
Definition desc {A} (key : A → Z) (a b : A) : Prop := (key b ≤ key a)%Z.

Global Instance asc_dec {A} (key : A → Z) : RelDecision (asc key).
Proof. intros a b. unfold asc. apply _. Defined.
Global Instance desc_dec {A} (key : A → Z) : RelDecision (desc key).
Proof. intros a b. unfold desc. apply _. Defined.
Global Instance desc_total {A} (key : A → Z) : Total (desc key).
Proof. intros a b. unfold desc. lia. Qed.
Global Instance desc_trans {A} (key : A → Z) : Transitive (desc key).
Proof. intros a b c. unfold desc. lia. Qed.

Definition findFirst {A} (P : A → Prop) `{∀ x, Decision (P x)}
    (table : list A) : option A :=
  snd <$> list_find P table.

(** The instants a handler reads from the wall clock: [new Date()], and the
    local midnight, start of week and start of month derived from it. *)
Record Clock := {
  now : Z;
  startOfDay : Z;
  startOfWeek : Z;
  startOfMonth : Z;
  currentHourUTC : Z;
}.

Definition findWallet (d : Db) (id : string) : option Wallet :=
  findFirst (λ w, w_id w = id) (wallets d).

Definition findAgent (d : Db) (id : string) : option Agent :=
  findFirst (λ a, a_id a = id) (agents d).

(** ** Rules engine (services/rulesEngine) *)

Module RulesEngine.

(** The candidate handed to [evaluateTransaction]; an absent [metadata]
    defaults to the empty object. *)
Record Candidate := {
  t_amount : Q;
  t_category : option string;
  t_recipientId : option string;
  t_metadata : Metadata;
}.

(** What a rule implementation returns: [passed], and the
    [requiresApproval] flag (undefined, hence falsy, for every rule but
    REQUIRES_APPROVAL). *)
Record CheckResult := {
  cr_passed : bool;
  cr_requiresApproval : bool;
}.

Definition blocking (passed : bool) : CheckResult :=
  {| cr_passed := passed; cr_requiresApproval := false |}.

Definition logAudit (agentId : string) (entry : string → AuditLog) (d : Db) : Db :=
  set_auditLogs (create (entry agentId)) d.

(** [getSpendSince] (875-885): the store sums the column, [parseFloat]
    makes a number of the sum. *)
Definition getSpendSince (d : Db) (walletId : string) (since : Z) : Q :=
  double (sumQ (tx_amount <$>
    filter (λ t, tx_walletId t = walletId ∧ tx_status t = COMPLETED
                 ∧ (since ≤ tx_createdAt t)%Z)
           (transactions d))).

Definition checkPerTransactionLimit (amount : Q) (params : RuleParams) : CheckResult :=
  blocking (le_nan amount (p_limit params)).

Definition checkDailyLimit (clk : Clock) (d : Db) (walletId : string)
    (amount : Q) (params : RuleParams) : CheckResult :=
  let limit := double <$> p_limit params in
  let todaySpend := getSpendSince d walletId (startOfDay clk) in
  let projectedTotal := js_add todaySpend amount in
  blocking (le_nan projectedTotal limit).

Definition checkWeeklyLimit (clk : Clock) (d : Db) (walletId : string)
    (amount : Q) (params : RuleParams) : CheckResult :=
  let limit := double <$> p_limit params in
  let weekSpend := getSpendSince d walletId (startOfWeek clk) in
  let projectedTotal := js_add weekSpend amount in
  blocking (le_nan projectedTotal limit).

Definition checkMonthlyLimit (clk : Clock) (d : Db) (walletId : string)
    (amount : Q) (params : RuleParams) : CheckResult :=
  let limit := double <$> p_limit params in
  let monthSpend := getSpendSince d walletId (startOfMonth clk) in
  let projectedTotal := js_add monthSpend amount in
  blocking (le_nan projectedTotal limit).

Definition checkCategoryWhitelist (category : option string) (params : RuleParams) : CheckResult :=
  let allowed := default [] (p_categories params) in
  blocking (negb (truthy category) || includes allowed category).

Definition checkCategoryBlacklist (category : option string) (params : RuleParams) : CheckResult :=
  let blocked := default [] (p_categories params) in
  blocking (negb (truthy category) || negb (includes blocked category)).

Definition checkRecipientWhitelist (recipientId : option string) (params : RuleParams) : CheckResult :=
  let allowed := default [] (p_recipients params) in
  blocking (negb (truthy recipientId) || includes allowed recipientId).

Definition checkRecipientBlacklist (recipientId : option string) (params : RuleParams) : CheckResult :=
  let blocked := default [] (p_recipients params) in
  blocking (negb (truthy recipientId) || negb (includes blocked recipientId)).

Definition checkTimeWindow (clk : Clock) (params : RuleParams) : CheckResult :=
  let currentHour := currentHourUTC clk in
  blocking
    match p_startHour params, p_endHour params with
    | Some startHour, Some endHour =>
        bool_decide (startHour ≤ currentHour)%Z && bool_decide (currentHour < endHour)%Z
    | _, _ => false
    end.

Definition checkRequiresApproval (amount : Q) (params : RuleParams) : CheckResult :=
  let requiresApproval := gt_nan amount (p_threshold params) in
  {| cr_passed := true; cr_requiresApproval := requiresApproval |}.

Definition checkSignalFilter (metadata : Metadata) (params : RuleParams) : CheckResult :=
  let allowedSignals := default ["STRONG"; "MODERATE"] (p_allowedSignals params) in
  let signalStrength :=
    if truthy (md_signal_strength metadata) then md_signal_strength metadata
    else Some "UNKNOWN" in
  blocking (includes allowedSignals signalStrength).

(** [evaluateRule] (665-706) *)
Definition evaluateRule (clk : Clock) (d : Db) (rule : SpendRule)
    (walletId : string) (transaction : Candidate) : CheckResult :=
  let amount := t_amount transaction in
  let params := r_parameters rule in
  match r_ruleType rule with
  | PER_TRANSACTION_LIMIT => checkPerTransactionLimit amount params
  | DAILY_LIMIT => checkDailyLimit clk d walletId amount params
  | WEEKLY_LIMIT => checkWeeklyLimit clk d walletId amount params
  | MONTHLY_LIMIT => checkMonthlyLimit clk d walletId amount params
  | CATEGORY_WHITELIST => checkCategoryWhitelist (t_category transaction) params
  | CATEGORY_BLACKLIST => checkCategoryBlacklist (t_category transaction) params
  | RECIPIENT_WHITELIST => checkRecipientWhitelist (t_recipientId transaction) params
  | RECIPIENT_BLACKLIST => checkRecipientBlacklist (t_recipientId transaction) params
  | TIME_WINDOW => checkTimeWindow clk params
  | REQUIRES_APPROVAL => checkRequiresApproval amount params
  | SIGNAL_FILTER => checkSignalFilter (t_metadata transaction) params
  | UNKNOWN_RULE => blocking true
  end.

(** *** Kill switch *)

Record Condition := {
  trigger : bool;
  currentValue : option Q;
}.

(** [tx.metadata?.pnl || 0] *)
Definition pnl_of (t : Transaction) : Q := num_or (md_pnl (tx_metadata t)) 0.

(** [totalLoss += Math.abs(pnl)] over the rows with [pnl < 0]. *)
Definition lossOf (txs : list Transaction) : Q :=
  foldl (λ total t, if decide (pnl_of t < 0)%Q
                    then js_add total (Qabs (pnl_of t)) else total) 0%Q txs.

(** The leading run of losing rows: the loop breaks at the first row
    with [pnl >= 0]. *)
Fixpoint streak (txs : list Transaction) : nat :=
  match txs with
  | t :: rest => if decide (pnl_of t < 0)%Q then S (streak rest) else O
  | [] => O
  end.

Definition threshold_hit (value threshold : Q) : Condition :=
  {| trigger := bool_decide (threshold <= value)%Q; currentValue := Some value |}.

(** [evaluateKillSwitchCondition] (473-611) *)
Definition evaluateKillSwitchCondition (clk : Clock) (d : Db)
    (killSwitch : KillSwitch) (walletId : string) : option Condition :=
  let windowStart := (now clk - ks_windowHours killSwitch * 3600000)%Z in
  match ks_triggerType killSwitch with
  | DRAWDOWN_PERCENT =>
      let txs := merge_sort (asc tx_createdAt)
        (filter (λ t, tx_walletId t = walletId ∧ tx_status t = COMPLETED
                      ∧ (windowStart ≤ tx_createdAt t)%Z) (transactions d)) in
      if decide (length txs = 0%nat) then
        Some {| trigger := false; currentValue := None |}
      else
        wallet ← findWallet d walletId;
        let currentBalance := double (w_balance wallet) in
        let peakBalance :=
          foldl (λ runningBalance t, js_add runningBalance (tx_amount t))
                currentBalance (reverse txs) in
        let drawdown :=
          if decide (0 < peakBalance)%Q
          then js_div (js_sub peakBalance currentBalance) peakBalance
          else 0%Q in
        Some (threshold_hit drawdown (double (ks_threshold killSwitch)))
  | LOSS_AMOUNT =>
      let completedTxs :=
        filter (λ t, tx_walletId t = walletId ∧ tx_status t = COMPLETED
                     ∧ (windowStart ≤ tx_createdAt t)%Z) (transactions d) in
      Some (threshold_hit (lossOf completedTxs)
                          (double (ks_threshold killSwitch)))
  | CONSECUTIVE_LOSSES =>
      (* a negative [take] does not occur: the threshold is validated >= 1 *)
      let recentTxs :=
        take (Z.to_nat (parseInt (ks_threshold killSwitch) + 5))
          (merge_sort (desc tx_createdAt)
            (filter (λ t, tx_walletId t = walletId ∧ tx_status t = COMPLETED
                          ∧ tx_category t = Some "trading") (transactions d))) in
      let consecutiveLosses := streak recentTxs in
      Some {| trigger := bool_decide (parseInt (ks_threshold killSwitch)
                                        ≤ Z.of_nat consecutiveLosses)%Z;
              currentValue := Some (inject_Z (Z.of_nat consecutiveLosses)) |}
  | DAILY_LOSS_LIMIT =>
      let todayTxs :=
        filter (λ t, tx_walletId t = walletId ∧ tx_status t = COMPLETED
                     ∧ (startOfDay clk ≤ tx_createdAt t)%Z) (transactions d) in
      Some (threshold_hit (lossOf todayTxs) (double (ks_threshold killSwitch)))
  | UNKNOWN_TRIGGER => Some {| trigger := false; currentValue := None |}
  end.

(** The object [checkKillSwitch] returns when [triggered] is true. *)
Record KillSwitchStatus := {
  killSwitchId : string;
  st_triggerType : TriggerType;
  st_triggeredAt : option Z;
  st_threshold : Q;
  st_currentValue : option Q;
}.

(** [ks.triggered && !ks.resetAt] *)
Definition latched (ks : KillSwitch) : bool :=
  ks_triggered ks && negb (bool_decide (is_Some (ks_resetAt ks))).

Definition fire (clk : Clock) (value : option Q) (k : KillSwitch) : KillSwitch :=
  {| ks_id := ks_id k; ks_walletId := ks_walletId k;
     ks_triggerType := ks_triggerType k; ks_threshold := ks_threshold k;
     ks_windowHours := ks_windowHours k; ks_active := ks_active k;
     ks_triggered := true; ks_triggeredAt := Some (now clk);
     ks_resetAt := ks_resetAt k; ks_currentValue := value |}.

Definition with_status (s : WalletStatus) (w : Wallet) : Wallet :=
  {| w_id := w_id w; w_agentId := w_agentId w; w_balance := w_balance w;
     w_status := s |}.

(** [prisma.wallet.update]: throws when no row has this id. *)
Definition updateWallet (id : string) (f : Wallet → Wallet) (d : Db) : option Db :=
  _ ← findWallet d id;
  Some (set_wallets (updateMany (λ w, w_id w = id) f) d).

(** [checkKillSwitch] (393-468): the body of the
    [for (const ks of killSwitches)] loop, with its early returns.  The store is only written on the iteration that returns. *)
Fixpoint checkKillSwitch_loop (clk : Clock) (d : Db) (walletId : string)
    (killSwitches : list KillSwitch) : option (Db * option KillSwitchStatus) :=
  match killSwitches with
  | [] => Some (d, None)
  | ks :: rest =>
      if latched ks then
        Some (d, Some {| killSwitchId := ks_id ks;
                         st_triggerType := ks_triggerType ks;
                         st_triggeredAt := ks_triggeredAt ks;
                         st_threshold := ks_threshold ks;
                         st_currentValue := None |})
      else
        shouldTrigger ← evaluateKillSwitchCondition clk d ks walletId;
        if trigger shouldTrigger then
          let d1 := set_killSwitches
                      (updateMany (λ k, ks_id k = ks_id ks)
                                  (fire clk (currentValue shouldTrigger))) d in
          d2 ← updateWallet walletId (with_status W_KILL_SWITCHED) d1;
          wallet ← findWallet d2 walletId;
          let d3 := logAudit (w_agentId wallet) (λ agentId,
                      {| al_agentId := agentId;
                         al_action := "KILL_SWITCH_TRIGGERED";
                         al_resource := "wallet";
                         al_resourceId := walletId;
                         al_decision := BLOCKED;
                         al_reasoning :=
                           ReasonTriggered (ks_triggerType ks) (ks_threshold ks)
                                           (currentValue shouldTrigger) |}) d2 in
          Some (d3, Some {| killSwitchId := ks_id ks;
                            st_triggerType := ks_triggerType ks;
                            st_triggeredAt := Some (now clk);
                            st_threshold := ks_threshold ks;
                            st_currentValue := currentValue shouldTrigger |})
        else checkKillSwitch_loop clk d walletId rest
  end.

Definition checkKillSwitch (clk : Clock) (d : Db) (walletId : string)
    : option (Db * option KillSwitchStatus) :=
  let killSwitches :=
    filter (λ ks, ks_walletId ks = walletId ∧ ks_active ks) (killSwitches d) in
  checkKillSwitch_loop clk d walletId killSwitches.

(** *** Rule loop *)

(** The three accumulators of the [for (const rule of rules)] loop. *)
Record Verdict := {
  v_results : list RuleResult;
  v_approved : bool;
  v_requiresApproval : bool;
}.

Definition ruleStep (clk : Clock) (d : Db) (walletId : string)
    (transaction : Candidate) (acc : Verdict) (rule : SpendRule) : Verdict :=
  let result := evaluateRule clk d rule walletId transaction in
  {| v_results := v_results acc ++
       [{| rr_ruleId := r_id rule; rr_ruleType := Some (r_ruleType rule);
           rr_passed := cr_passed result |}];
     v_approved := if cr_passed result then v_approved acc else false;
     v_requiresApproval :=
       if cr_requiresApproval result then true else v_requiresApproval acc |}.

(** [spendRule.findMany({ where: { walletId, active: true },
                          orderBy: { priority: 'desc' } })] *)
Definition activeRules (d : Db) (walletId : string) : list SpendRule :=
  merge_sort (desc r_priority)
    (filter (λ r, r_walletId r = walletId ∧ r_active r) (spendRules d)).

(** [evaluateTransaction] (329-388) *)
Definition evaluateTransaction (clk : Clock) (d : Db) (walletId : string)
    (transaction : Candidate) : option (Db * Evaluation) :=
  '(d1, killSwitchStatus) ← checkKillSwitch clk d walletId;
  match killSwitchStatus with
  | Some st =>
      Some (d1, {| approved := false; killSwitched := true;
                   requiresApproval := false;
                   results := [{| rr_ruleId := killSwitchId st;
                                  rr_ruleType := None; rr_passed := false |}];
                   evaluatedAt := now clk |})
  | None =>
      let rules := activeRules d1 walletId in
      let v := foldl (ruleStep clk d1 walletId transaction)
                 {| v_results := []; v_approved := true;
                    v_requiresApproval := false |} rules in
      Some (d1, {| approved := v_approved v; killSwitched := false;
                   requiresApproval := v_requiresApproval v;
                   results := v_results v; evaluatedAt := now clk |})
  end.

(** [resetKillSwitch] (616-660): owner only. *)
Definition resetKillSwitch (clk : Clock) (d : Db) (killSwitchId ownerId : string)
    : option Db :=
  ks ← findFirst (λ k, ks_id k = killSwitchId) (killSwitches d);
  wallet ← findWallet d (ks_walletId ks);
  agent ← findAgent d (w_agentId wallet);
  if decide (a_ownerId agent = ownerId) then
    let d1 := set_killSwitches
      (updateMany (λ k, ks_id k = killSwitchId) (λ k,
         {| ks_id := ks_id k; ks_walletId := ks_walletId k;
            ks_triggerType := ks_triggerType k; ks_threshold := ks_threshold k;
            ks_windowHours := ks_windowHours k; ks_active := ks_active k;
            ks_triggered := false; ks_triggeredAt := None;
            ks_resetAt := Some (now clk); ks_currentValue := None |})) d in
    d2 ← updateWallet (ks_walletId ks) (with_status W_ACTIVE) d1;
    Some (logAudit (w_agentId wallet) (λ agentId,
            {| al_agentId := agentId; al_action := "KILL_SWITCH_RESET";
               al_resource := "kill_switch"; al_resourceId := killSwitchId;
               al_decision := ALLOWED;
               al_reasoning := ReasonReset ownerId (ks_walletId ks) |}) d2)
  else None.

End RulesEngine.

(** ** Authentication context (middleware/auth.js) *)

Inductive Auth :=
  | OwnerKey (ownerId : string)
  | AgentKey (agentId : string).

Definition canAccessAgent (auth : Auth) (d : Db) (agentId : string) : bool :=
  match auth with
  | OwnerKey ownerId =>
      bool_decide (is_Some (findFirst (λ a, a_id a = agentId ∧ a_ownerId a = ownerId)
                                      (agents d)))
  | AgentKey id => bool_decide (id = agentId)
  end.

(** ** Admission route (routes/transactions.js) and deposits (routes/wallets) *)

Module Transactions.

Record Body := {
  walletId : option string;
  amount : option Q;
  recipientId : option string;
  recipientType : option RecipientType;   (* defaults to EXTERNAL *)
  category : option string;
  description : option string;
  metadata : option Metadata;
}.

Inductive Response :=
  | BadRequest (error : string)
  | NotFound (error : string)
  | Forbidden (error : string)
  | Created (transactionId : nat) (completed : option Transaction)
            (ruleEvaluation : Evaluation)
  | RejectedByRules (transactionId : nat) (ruleEvaluation : Evaluation)
                    (failedRules : list RuleResult)
  | Accepted (transactionId : nat) (ruleEvaluation : Evaluation)
  | Ok.

Definition debit (amount : Q) (w : Wallet) : Wallet :=
  {| w_id := w_id w; w_agentId := w_agentId w;
     w_balance := (w_balance w - amount)%Q; w_status := w_status w |}.

Definition credit (amount : Q) (w : Wallet) : Wallet :=
  {| w_id := w_id w; w_agentId := w_agentId w;
     w_balance := (w_balance w + amount)%Q; w_status := w_status w |}.

Definition complete (clk : Clock) (t : Transaction) : Transaction :=
  {| tx_walletId := tx_walletId t; tx_amount := tx_amount t;
     tx_recipientId := tx_recipientId t; tx_recipientType := tx_recipientType t;
     tx_category := tx_category t; tx_description := tx_description t;
     tx_status := COMPLETED; tx_ruleCheckResults := tx_ruleCheckResults t;
     tx_metadata := tx_metadata t; tx_createdAt := tx_createdAt t;
     tx_completedAt := Some (now clk) |}.

(** Execute an approved transaction: deduct from the wallet balance, then
    mark the row COMPLETED. *)
Definition executeTransaction (clk : Clock) (d : Db) (transactionId : nat) : option Db :=
  transaction ← transactions d !! transactionId;
  d1 ← RulesEngine.updateWallet (tx_walletId transaction)
         (debit (tx_amount transaction)) d;
  Some (set_transactions (alter (complete clk) transactionId) d1).

(** POST /api/transactions *)
Definition post (auth : Auth) (clk : Clock) (d : Db) (body : Body)
    : option (Db * Response) :=
  match walletId body, amount body with
  | Some walletId, Some amount =>
    if negb (truthy (Some walletId)) || bool_decide (amount == 0)%Q then
      Some (d, BadRequest "walletId and amount are required")
    else if bool_decide (amount <= 0)%Q then
      Some (d, BadRequest "Amount must be positive")
    else
      match findWallet d walletId with
      | None => Some (d, NotFound "Wallet not found")
      | Some wallet =>
        if negb (canAccessAgent auth d (w_agentId wallet)) then
          Some (d, Forbidden "Cannot transact from this wallet")
        else if negb (bool_decide (w_status wallet = W_ACTIVE)) then
          Some (d, BadRequest "Wallet is not active")
        else if bool_decide (w_balance wallet < amount)%Q then
          Some (d, BadRequest "Insufficient balance")
        else
          '(d1, ruleEvaluation) ← RulesEngine.evaluateTransaction clk d walletId
              {| RulesEngine.t_amount := amount;
                 RulesEngine.t_category := category body;
                 RulesEngine.t_recipientId := recipientId body;
                 RulesEngine.t_metadata := no_metadata |};
          let status :=
            if negb (approved ruleEvaluation) then REJECTED
            else if requiresApproval ruleEvaluation then AWAITING_APPROVAL
            else APPROVED in
          let transactionId := length (transactions d1) in
          let d2 := set_transactions (create
            {| tx_walletId := walletId; tx_amount := amount;
               tx_recipientId := recipientId body;
               tx_recipientType := default EXTERNAL (recipientType body);
               tx_category := category body;
               tx_description := description body;
               tx_status := status;
               tx_ruleCheckResults := Some ruleEvaluation;
               tx_metadata := default no_metadata (metadata body);
               tx_createdAt := now clk; tx_completedAt := None |}) d1 in
          match status with
          | APPROVED =>
              d3 ← executeTransaction clk d2 transactionId;
              Some (d3, Created transactionId (transactions d3 !! transactionId)
                                ruleEvaluation)
          | REJECTED =>
              Some (d2, RejectedByRules transactionId ruleEvaluation
                          (filter (λ r, ¬ rr_passed r) (results ruleEvaluation)))
          | _ => Some (d2, Accepted transactionId ruleEvaluation)
          end
      end
  | _, _ => Some (d, BadRequest "walletId and amount are required")
  end.

(** POST /api/wallets/:id/deposit *)
Definition deposit (auth : Auth) (clk : Clock) (d : Db) (id : string)
    (amount : option Q) (source : string) : option (Db * Response) :=
  match amount with
  | Some amount =>
    if bool_decide (amount == 0)%Q || bool_decide (amount <= 0)%Q then
      Some (d, BadRequest "Valid positive amount is required")
    else
      match findWallet d id with
      | None => Some (d, NotFound "Wallet not found")
      | Some wallet =>
        if negb (bool_decide (w_status wallet = W_ACTIVE)) then
          Some (d, BadRequest "Cannot deposit to non-active wallet")
        else if negb (canAccessAgent auth d (w_agentId wallet)) then
          Some (d, Forbidden "Cannot access this wallet")
        else
          d1 ← RulesEngine.updateWallet id (credit amount) d;
          Some (set_transactions (create
            {| tx_walletId := id; tx_amount := amount;
               tx_recipientId := None; tx_recipientType := EXTERNAL;
               tx_category := Some "deposit";
               tx_description := Some ("Deposit from " +:+ source);
               tx_status := COMPLETED; tx_ruleCheckResults := None;
               tx_metadata := no_metadata;
               tx_createdAt := now clk;
               tx_completedAt := Some (now clk) |}) d1, Ok)
      end
  | None => Some (d, BadRequest "Valid positive amount is required")
  end.

Definition with_tx_status (s : TransactionStatus) (t : Transaction) : Transaction :=
  {| tx_walletId := tx_walletId t; tx_amount := tx_amount t;
     tx_recipientId := tx_recipientId t; tx_recipientType := tx_recipientType t;
     tx_category := tx_category t; tx_description := tx_description t;
     tx_status := s; tx_ruleCheckResults := tx_ruleCheckResults t;
     tx_metadata := tx_metadata t; tx_createdAt := tx_createdAt t;
     tx_completedAt := tx_completedAt t |}.

(** POST /api/transactions/:id/approve (166-213): owner only.  The handler
    reads [transaction.wallet.agent.ownerId]; a row whose wallet or agent is
    missing makes it throw. *)
Definition approve (auth : Auth) (clk : Clock) (d : Db) (id : nat)
    : option (Db * Response) :=
  match auth with
  | AgentKey _ => Some (d, Forbidden "Only owner can approve transactions")
  | OwnerKey ownerId =>
    match transactions d !! id with
    | None => Some (d, NotFound "Transaction not found")
    | Some transaction =>
      wallet ← findWallet d (tx_walletId transaction);
      agent ← findAgent d (w_agentId wallet);
      if negb (bool_decide (a_ownerId agent = ownerId)) then
        Some (d, Forbidden "Cannot approve this transaction")
      else if negb (bool_decide (tx_status transaction = AWAITING_APPROVAL)) then
        Some (d, BadRequest "Transaction is not awaiting approval")
      (* check balance again *)
      else if bool_decide (w_balance wallet < tx_amount transaction)%Q then
        Some (d, BadRequest "Insufficient balance")
      else
        d1 ← executeTransaction clk d id;
        Some (d1, Ok)
    end
  end.

(** *** The approval handler, await by await

    [approve] runs the handler in one piece.  The source suspends at each
    [await], and the handlers hold no lock and open no store transaction:
    between two awaits another request may read and write the store.
    [ApprovePc] names the awaits at which the handler of 166-213 (with
    [executeTransaction], which it calls) is suspended, and [approve_step]
    runs it from one await to the next.  The read that follows the last
    write (207) only fills the response. *)
Inductive ApprovePc :=
  | at_findTransaction                        (* transaction.findUnique, 174 *)
  | at_findWallet (transaction : Transaction) (* wallet.findUnique, 196 *)
  | at_execute                                (* transaction.findUnique, 306 *)
  | at_decrement (transaction : Transaction)  (* wallet.update, 311 *)
  | at_complete                               (* transaction.update, 319 *)
  | responded (resp : Response).

Definition approve_step (auth : Auth) (clk : Clock) (id : nat)
    (pc : ApprovePc) (d : Db) : option (ApprovePc * Db) :=
  match pc with
  | at_findTransaction =>
    match auth with
    | AgentKey _ => Some (responded (Forbidden "Only owner can approve transactions"), d)
    | OwnerKey ownerId =>
      match transactions d !! id with
      | None => Some (responded (NotFound "Transaction not found"), d)
      | Some transaction =>
        wallet ← findWallet d (tx_walletId transaction);
        agent ← findAgent d (w_agentId wallet);
        if negb (bool_decide (a_ownerId agent = ownerId)) then
          Some (responded (Forbidden "Cannot approve this transaction"), d)
        else if negb (bool_decide (tx_status transaction = AWAITING_APPROVAL)) then
          Some (responded (BadRequest "Transaction is not awaiting approval"), d)
        else Some (at_findWallet transaction, d)
      end
    end
  | at_findWallet transaction =>
      wallet ← findWallet d (tx_walletId transaction);
      if bool_decide (w_balance wallet < tx_amount transaction)%Q then
        Some (responded (BadRequest "Insufficient balance"), d)
      else Some (at_execute, d)
  | at_execute =>
      transaction ← transactions d !! id;
      Some (at_decrement transaction, d)
  | at_decrement transaction =>
      d1 ← RulesEngine.updateWallet (tx_walletId transaction)
             (debit (tx_amount transaction)) d;
      Some (at_complete, d1)
  | at_complete =>
      Some (responded Ok, set_transactions (alter (complete clk) id) d)
  | responded resp => Some (responded resp, d)
  end.

(** A handler that is left alone until it responds, within [fuel] awaits. *)
Fixpoint run_alone (step : ApprovePc → Db → option (ApprovePc * Db))
    (fuel : nat) (pc : ApprovePc) (d : Db) : option (Db * Response) :=
  match pc, fuel with
  | responded resp, _ => Some (d, resp)
  | _, O => None
  | _, S fuel => '(pc, d) ← step pc d; run_alone step fuel pc d
  end.

(** Two handlers whose awaits are served in the order of [schedule]. *)
Inductive Turn := first | second.

Fixpoint interleave (schedule : list Turn)
    (step1 step2 : ApprovePc → Db → option (ApprovePc * Db))
    (pc1 pc2 : ApprovePc) (d : Db) : option (ApprovePc * ApprovePc * Db) :=
  match schedule with
  | [] => Some (pc1, pc2, d)
  | first :: schedule =>
      '(pc1, d) ← step1 pc1 d; interleave schedule step1 step2 pc1 pc2 d
  | second :: schedule =>
      '(pc2, d) ← step2 pc2 d; interleave schedule step1 step2 pc1 pc2 d
  end.

(** POST /api/transactions/:id/reject (219-264): owner only.  The keys the
    handler adds to [metadata] (rejectionReason, rejectedAt, rejectedBy) are
    none of those the engine reads, which the spread keeps. *)
Definition reject (auth : Auth) (d : Db) (id : nat) : option (Db * Response) :=
  match auth with
  | AgentKey _ => Some (d, Forbidden "Only owner can reject transactions")
  | OwnerKey ownerId =>
    match transactions d !! id with
    | None => Some (d, NotFound "Transaction not found")
    | Some transaction =>
      wallet ← findWallet d (tx_walletId transaction);
      agent ← findAgent d (w_agentId wallet);
      if negb (bool_decide (a_ownerId agent = ownerId)) then
        Some (d, Forbidden "Cannot reject this transaction")
      else if negb (bool_decide (tx_status transaction = AWAITING_APPROVAL)) then
        Some (d, BadRequest "Transaction is not awaiting approval")
      else
        Some (set_transactions (alter (with_tx_status REJECTED) id) d, Ok)
    end
  end.

End Transactions.

(** ** Wallet, kill-switch and payment handlers around the engine *)

Module Wallets.
Import Transactions.

(** POST /api/wallets/:id/freeze (packages/sdk/src/routes/spawn.js,
    356-379) *)
Definition freezeWallet (auth : Auth) (d : Db) (id : string) : option (Db * Response) :=
  match findWallet d id with
  | None => Some (d, NotFound "Wallet not found")
  | Some wallet =>
    match auth with
    | AgentKey _ => Some (d, Forbidden "Only owner can freeze wallets")
    | OwnerKey _ =>
        d1 ← RulesEngine.updateWallet id (RulesEngine.with_status W_FROZEN) d;
        Some (d1, Ok)
    end
  end.

(** POST /api/wallets/:id/unfreeze (385-404) *)
Definition unfreezeWallet (auth : Auth) (d : Db) (id : string) : option (Db * Response) :=
  match auth with
  | AgentKey _ => Some (d, Forbidden "Only owner can unfreeze wallets")
  | OwnerKey _ =>
    match findWallet d id with
    | None => Some (d, NotFound "Wallet not found")
    | Some wallet =>
        d1 ← RulesEngine.updateWallet id (RulesEngine.with_status W_ACTIVE) d;
        Some (d1, Ok)
    end
  end.

End Wallets.

Module KillSwitchRoutes.
Import Transactions.

(** POST /api/killswitch/:id/reset (unnamed/part_005, 184-225) *)
Definition reset (auth : Auth) (clk : Clock) (d : Db) (id : string)
    : option (Db * Response) :=
  match auth with
  | AgentKey _ => Some (d, Forbidden "Only owner can reset kill switches")
  | OwnerKey ownerId =>
    match findFirst (λ k, ks_id k = id) (killSwitches d) with
    | None => Some (d, NotFound "Kill switch not found")
    | Some killSwitch =>
      wallet ← findWallet d (ks_walletId killSwitch);
      agent ← findAgent d (w_agentId wallet);
      if negb (bool_decide (a_ownerId agent = ownerId)) then
        Some (d, Forbidden "Cannot reset this kill switch")
      else if negb (ks_triggered killSwitch) then
        Some (d, BadRequest "Kill switch is not triggered")
      else
        (* reset via rules engine (handles wallet reactivation and logging) *)
        d1 ← RulesEngine.resetKillSwitch clk d id ownerId;
        Some (d1, Ok)
    end
  end.

End KillSwitchRoutes.

Module StripeService.
Import Transactions.

(** [handlePaymentSuccess] of services/stripeService
    (packages/sdk/src/services/stripeService.js, 136-172): the webhook that
    credits a wallet; [amount] is in cents.  An absent [walletId] returns
    without a write; [prisma.wallet.update] throws on an unknown id. *)
Definition handlePaymentSuccess (clk : Clock) (d : Db) (walletId : option string)
    (amountCents : Q) : option Db :=
  let amount := (amountCents / 100)%Q in
  if negb (truthy walletId) then Some d
  else
    let walletId := default "" walletId in
    d1 ← RulesEngine.updateWallet walletId (credit amount) d;
    Some (set_transactions (create
      {| tx_walletId := walletId; tx_amount := amount;
         tx_recipientId := None; tx_recipientType := EXTERNAL;
         tx_category := Some "deposit";
         tx_description := Some "Stripe deposit";
         tx_status := COMPLETED; tx_ruleCheckResults := None;
         tx_metadata := no_metadata;
         tx_createdAt := now clk;
         tx_completedAt := Some (now clk) |}) d1).

End StripeService.

(** ** Rule routes (packages/sdk/src/routes/rules.js) *)

Module Rules.

(** [validateRuleParameters] (290-333), which the create and update
    handlers run before they store [parameters].  An absent key is neither
    of type number nor an array; a rule type without a case is valid. *)
Definition validateRuleParameters (ruleType : RuleType) (parameters : RuleParams)
    : bool :=
  match ruleType with
  | PER_TRANSACTION_LIMIT | DAILY_LIMIT | WEEKLY_LIMIT | MONTHLY_LIMIT =>
      match p_limit parameters with
      | Some limit => negb (bool_decide (limit <= 0)%Q)
      | None => false
      end
  | CATEGORY_WHITELIST | CATEGORY_BLACKLIST =>
      match p_categories parameters with
      | Some categories => negb (bool_decide (length categories = 0%nat))
      | None => false
      end
  | RECIPIENT_WHITELIST | RECIPIENT_BLACKLIST =>
      match p_recipients parameters with
      | Some recipients => negb (bool_decide (length recipients = 0%nat))
      | None => false
      end
  | TIME_WINDOW =>
      match p_startHour parameters, p_endHour parameters with
      | Some startHour, Some endHour =>
          negb (bool_decide (startHour < 0)%Z || bool_decide (23 < startHour)%Z
                || bool_decide (endHour < 0)%Z || bool_decide (23 < endHour)%Z)
      | _, _ => false
      end
  | REQUIRES_APPROVAL =>
      match p_threshold parameters with
      | Some threshold => negb (bool_decide (threshold <= 0)%Q)
      | None => false
      end
  | SIGNAL_FILTER | UNKNOWN_RULE => true
  end.

End Rules.

(** ** Dead-man switch (services/deadManSwitch) *)

Module DeadManSwitch.

(** The in-process state of the module: a [Set] and two [Map]s. *)
Record State := {
  _frozenAgents : gset string;
  _heartbeats : gmap string Z;
  _txWindows : gmap string (list Z);
}.

Definition initial : State :=
  {| _frozenAgents := ∅; _heartbeats := ∅; _txWindows := ∅ |}.

Definition add_frozen (id : string) (s : State) : State :=
  {| _frozenAgents := {[ id ]} ∪ _frozenAgents s;
     _heartbeats := _heartbeats s; _txWindows := _txWindows s |}.

Definition set_window (id : string) (w : list Z) (s : State) : State :=
  {| _frozenAgents := _frozenAgents s; _heartbeats := _heartbeats s;
     _txWindows := <[ id := w ]> (_txWindows s) |}.

Inductive BlockReason :=
  | AgentIsFrozen | VelocityLimit | VendorDiversity | AnomalousSpending.

(** [{ allow, reason }] *)
Record Gate := {
  allow : bool;
  reason : option BlockReason;
}.

Definition allowed : Gate := {| allow := true; reason := None |}.
Definition blocked (r : BlockReason) : Gate := {| allow := false; reason := Some r |}.

Definition _getConfig (d : Db) (agentId : string) : option DeadManSwitchConfig :=
  findFirst (λ c, c_agentId c = agentId) (dmsConfigs d).

(** The relation filter [wallet: { agentId }] on transactions. *)
Definition ofAgent (d : Db) (agentId : string) (t : Transaction) : Prop :=
  w_agentId <$> findWallet d (tx_walletId t) = Some agentId.

Global Instance ofAgent_dec d agentId t : Decision (ofAgent d agentId t).
Proof. unfold ofAgent. apply _. Defined.

Definition with_agent_status (s : AgentStatus) (a : Agent) : Agent :=
  {| a_id := a_id a; a_ownerId := a_ownerId a; a_status := s |}.

Definition with_lineage_status (s : LineageStatus) (l : AgentLineage) : AgentLineage :=
  {| l_agentId := l_agentId l; l_parentId := l_parentId l; l_rootId := l_rootId l;
     l_depth := l_depth l; l_childrenIds := l_childrenIds l; l_status := s;
     l_spawnPolicy := l_spawnPolicy l |}.

(** [{ ...rule.parameters, limit: current * 0.1, throttled: true }] *)
Definition throttled (p : RuleParams) : RuleParams :=
  {| p_limit := Some (num_or (p_limit p) 1000 * (1 # 10))%Q;
     p_threshold := p_threshold p; p_categories := p_categories p;
     p_recipients := p_recipients p; p_startHour := p_startHour p;
     p_endHour := p_endHour p; p_allowedSignals := p_allowedSignals p;
     p_throttled := true |}.

Definition with_parameters (p : RuleParams) (r : SpendRule) : SpendRule :=
  {| r_id := r_id r; r_walletId := r_walletId r; r_ruleType := r_ruleType r;
     r_parameters := p; r_active := r_active r; r_priority := r_priority r |}.

Definition throttleWallet (d : Db) (wallet : Wallet) : Db :=
  let dailyRules :=
    filter (λ r, r_walletId r = w_id wallet ∧ r_ruleType r = DAILY_LIMIT ∧ r_active r)
           (spendRules d) in
  foldl (λ d rule,
           set_spendRules (updateMany (λ r, r_id r = r_id rule)
                             (with_parameters (throttled (r_parameters rule)))) d)
        d dailyRules.

(** The cascade loop shared by the freeze and terminate branches:
    [for (const childId of lineage.childrenIds)]. *)
Definition cascade (status : AgentStatus) (agentId : string)
    (config : option DeadManSwitchConfig) (s : State) (d : Db)
    : State * Db * list string :=
  if default false (cascadeToChildren <$> config) then
    match findFirst (λ l, l_agentId l = agentId) (lineages d) with
    | Some lineage =>
        foldl (λ '(s, d, cascadedTo) childId,
                 (add_frozen childId s,
                  set_agents (updateMany (λ a, a_id a = childId)
                                         (with_agent_status status)) d,
                  cascadedTo ++ [childId]))
              (s, d, []) (l_childrenIds lineage)
    | None => (s, d, [])
    end
  else (s, d, []).

(** [_trigger] (286-358).  The module's singleton is built without a notification
    handler, so [this.notify] is null and no alert is sent. *)
Definition _trigger (s : State) (d : Db) (agentId : string)
    (triggerType : DmsTrigger) (action : Action) (details : DmsDetails)
    (config : option DeadManSwitchConfig) : State * Db :=
  let '(s1, d1, cascadedTo) :=
    match action with
    | alert => (s, d, [])
    | throttle =>
        let wallets := filter (λ w, w_agentId w = agentId) (wallets d) in
        (s, foldl throttleWallet d wallets, [])
    | freeze =>
        let s1 := add_frozen agentId s in
        let d1 := set_agents (updateMany (λ a, a_id a = agentId)
                                (with_agent_status A_FROZEN)) d in
        cascade A_FROZEN agentId config s1 d1
    | terminate =>
        let s1 := add_frozen agentId s in
        let d1 := set_agents (updateMany (λ a, a_id a = agentId)
                                (with_agent_status A_TERMINATED)) d in
        let d2 := set_lineages (updateMany (λ l, l_agentId l = agentId)
                                  (with_lineage_status L_terminated)) d1 in
        cascade A_TERMINATED agentId config s1 d2
    | other_action => (s, d, [])
    end in
  (s1, set_dmsEvents (create
         {| e_agentId := agentId; e_triggerType := triggerType;
            e_actionTaken := Some action; e_details := details;
            e_cascadedTo := cascadedTo; e_resolved := false |}) d1).

(** [transaction.aggregate] over the agent's wallets:
    [createdAt: { gte: windowStart }, status: 'COMPLETED']. *)
Definition spendSince (d : Db) (agentId : string) (start : Z) : Q :=
  sumQ (tx_amount <$>
    filter (λ t, ofAgent d agentId t ∧ (start ≤ tx_createdAt t)%Z
                 ∧ tx_status t = COMPLETED)
           (transactions d)).

(** [createdAt: { gte: start, lte: end }, status: 'COMPLETED'] *)
Definition spendBetween (d : Db) (agentId : string) (start stop : Z) : Q :=
  sumQ (tx_amount <$>
    filter (λ t, ofAgent d agentId t
                 ∧ ((start ≤ tx_createdAt t)%Z ∧ (tx_createdAt t ≤ stop)%Z)
                 ∧ tx_status t = COMPLETED)
           (transactions d)).

(** [_getHistoricalAverage] (364-382): average spend across the last 7
    equivalent windows, the current one excluded.  The division is by the
    number of non-empty windows; when that number is 0 and some total is
    not, JavaScript yields -Infinity and [Qdiv] yields 0: both fail the
    caller's [historicalAvg > 0]. *)
Definition _getHistoricalAverage (clk : Clock) (d : Db) (agentId : string)
    (windowMinutes : Z) : Q :=
  let windowMs := (windowMinutes * 60000)%Z in
  let totals :=
    (λ i, spendBetween d agentId (now clk - windowMs * (i + 1))%Z
                                 (now clk - windowMs * i)%Z)
      <$> [1; 2; 3; 4; 5; 6; 7]%Z in
  if bool_decide (Forall (λ t, t == 0)%Q totals) then 0%Q
  else (sumQ totals
        / inject_Z (Z.of_nat (length (filter (λ t, 0 < t)%Q totals))))%Q.

(** [evaluateTransaction] (97-177): the transaction gate, "called before
    every transaction". *)
Definition evaluateTransaction (clk : Clock) (s : State) (d : Db)
    (agentId : string) (amount : Q) (vendor : option string)
    : State * Db * Gate :=
  (* 1. hard stop if already frozen *)
  if bool_decide (agentId ∈ _frozenAgents s) then (s, d, blocked AgentIsFrozen)
  else
    match _getConfig d agentId with
    | None => (s, d, allowed)
    | Some config =>
      if negb (enabled config) then (s, d, allowed)
      else
        (* 2. velocity check: tx per minute *)
        let s := if bool_decide (is_Some (_txWindows s !! agentId)) then s
                 else set_window agentId [] s in
        let window := default [] (_txWindows s !! agentId) in
        let oneMinAgo := (now clk - 60000)%Z in
        let recentCount := length (filter (λ t, (oneMinAgo < t)%Z) window) in
        if bool_decide (maxTxPerMinute config ≤ Z.of_nat recentCount)%Z then
          let '(s1, d1) := _trigger s d agentId T_velocity (onAnomaly config)
                             (D_txPerMinute recentCount (maxTxPerMinute config))
                             (Some config) in
          (s1, d1, blocked VelocityLimit)
        else
          (* 3. unique vendors per hour *)
          let oneHrAgo := (now clk - 3600000)%Z in
          let uniqueVendors : gset string :=
            match vendor with
            | Some v =>
                {[ v ]} ∪ list_to_set (omap tx_description
                  (filter (λ t, ofAgent d agentId t ∧ (oneHrAgo ≤ tx_createdAt t)%Z
                                ∧ is_Some (tx_description t))
                          (transactions d)))
            | None => ∅
            end in
          if truthy vendor
             && bool_decide (maxUniqueVendorsPerHour config
                             < Z.of_nat (size uniqueVendors))%Z then
            let '(s1, d1) := _trigger s d agentId T_velocity (onAnomaly config)
                               (D_uniqueVendors (size uniqueVendors)
                                                (maxUniqueVendorsPerHour config))
                               (Some config) in
            (s1, d1, blocked VendorDiversity)
          else
            (* 4. spend anomaly check against the historical average *)
            let windowMs := (anomalyWindowMinutes config * 60000)%Z in
            let windowStart := (now clk - windowMs)%Z in
            let currentWindowTotal := (spendSince d agentId windowStart + amount)%Q in
            let historicalAvg :=
              _getHistoricalAverage clk d agentId (anomalyWindowMinutes config) in
            let anomalous :=
              bool_decide (0 < historicalAvg)%Q
              && bool_decide (historicalAvg * anomalySpendMultiplier config
                              < currentWindowTotal)%Q in
            let '(s2, d2) :=
              if anomalous then
                _trigger s d agentId T_anomaly (onAnomaly config)
                  (D_anomaly currentWindowTotal historicalAvg
                             (anomalySpendMultiplier config)) (Some config)
              else (s, d) in
            if anomalous && bool_decide (onAnomaly config ∈ [freeze; terminate]) then
              (s2, d2, blocked AnomalousSpending)
            else
              (* 5. record the transaction timestamp, trimmed to the last hour *)
              let window := window ++ [now clk] in
              (set_window agentId
                 (filter (λ t, (now clk - 3600000 < t)%Z) window) s2,
               d2, allowed)
    end.

End DeadManSwitch.

(** ** Dead-man switch: heartbeat, monitor and manual controls
    (unnamed/part_008, 67-91 and 183-273) *)

Module DeadManControls.
Import DeadManSwitch.

Definition remove_frozen (id : string) (s : State) : State :=
  {| _frozenAgents := _frozenAgents s ∖ {[ id ]};
     _heartbeats := _heartbeats s; _txWindows := _txWindows s |}.

Definition set_heartbeat (id : string) (t : Z) (s : State) : State :=
  {| _frozenAgents := _frozenAgents s;
     _heartbeats := <[ id := t ]> (_heartbeats s);
     _txWindows := _txWindows s |}.

Inductive Directive := cease_all_transactions | continue.

(** What [heartbeat] resolves to: [status] is 'frozen' or 'active'. *)
Record Beat := {
  b_frozen : bool;
  b_directive : Directive;
  nextHeartbeatDue : option Z;
}.

(** [heartbeat] (67-91).  The handler also stamps [lastHeartbeatAt] on the
    config row, a column that only [getHealth] reads back. *)
Definition heartbeat (clk : Clock) (s : State) (d : Db) (agentId : string)
    : State * Beat :=
  if bool_decide (agentId ∈ _frozenAgents s) then
    (s, {| b_frozen := true; b_directive := cease_all_transactions;
           nextHeartbeatDue := None |})
  else
    (set_heartbeat agentId (now clk) s,
     {| b_frozen := false; b_directive := continue;
        nextHeartbeatDue :=
          (λ config, now clk + heartbeatIntervalSeconds config * 1000)%Z
            <$> _getConfig d agentId |}).

(** The body of the monitor's loop (255-270), run for one entry
    [agentId, lastBeat] of [_heartbeats].  [elapsed] is
    [(now - lastBeat) / 1000] seconds, so [elapsed > maxGap] compares the
    milliseconds with [maxGap * 1000], and [Math.floor(elapsed)] is the
    integer quotient. *)
Definition checkHeartbeat (clk : Clock) (s : State) (d : Db)
    (agentId : string) (lastBeat : Z) : State * Db :=
  if bool_decide (agentId ∈ _frozenAgents s) then (s, d)
  else
    match _getConfig d agentId with
    | None => (s, d)
    | Some config =>
      if negb (enabled config) then (s, d)
      else
        let elapsedMs := (now clk - lastBeat)%Z in
        let maxGap :=
          (heartbeatIntervalSeconds config * missedHeartbeatThreshold config)%Z in
        if bool_decide (maxGap * 1000 < elapsedMs)%Z then
          _trigger s d agentId T_heartbeat (onMissedHeartbeat config)
                   (D_heartbeat (elapsedMs / 1000) maxGap) (Some config)
        else (s, d)
    end.

(** [manualKill] (183-188): [config?.onManualTrigger || 'terminate'] *)
Definition manualKill (s : State) (d : Db) (agentId : string)
    (operatorId : option string) : State * Db * Action :=
  let config := _getConfig d agentId in
  let action := default terminate (onManualTrigger <$> config) in
  (_trigger s d agentId T_manual action (D_manual operatorId) config, action).

(** [unfreeze] (196-222); the boolean is [success]. *)
Definition unfreeze (s : State) (d : Db) (agentId : string)
    (operatorId : option string) : State * Db * bool :=
  let config := _getConfig d agentId in
  if default false (recoveryRequiresHuman <$> config)
     && negb (truthy operatorId) then (s, d, false)
  else
    let s1 := remove_frozen agentId s in
    let d1 := set_agents
      (updateMany (λ a, a_id a = agentId ∧ a_status a ∈ [A_FROZEN; A_SUSPENDED])
                  (with_agent_status A_ACTIVE)) d in
    let d2 := set_dmsEvents (create
      {| e_agentId := agentId; e_triggerType := T_manual;
         e_actionTaken := None; e_details := D_manual operatorId;
         e_cascadedTo := []; e_resolved := true |}) d1 in
    (s1, d2, true).

(** [freeze] (190-194) *)
Definition freeze (s : State) (d : Db) (agentId : string)
    (operatorId : option string) : State * Db :=
  _trigger s d agentId T_manual freeze (D_manual operatorId)
           (_getConfig d agentId).

End DeadManControls.

(** ** Spawn governor (services/spawnGovernor.js) *)

Module SpawnGovernor.

(** [childPolicyOverrides]: every key may be undefined. *)
Record Overrides := {
  o_dailyLimit : option Q;
  o_maxSpendPerTx : option Q;
  o_vendorAllowlist : option (list string);
  o_daily_limit_ratio : option Q;
}.

Definition no_overrides : Overrides :=
  {| o_dailyLimit := None; o_maxSpendPerTx := None;
     o_vendorAllowlist := None; o_daily_limit_ratio := None |}.

(** The local [parentRules] object of [_deriveChildPolicy]. *)
Record ParentRules := {
  pr_dailyLimit : option Q;
  pr_maxSpendPerTx : option Q;
  pr_vendorAllowlist : option (list string);
}.

Definition _defaultSpawnPolicy : SpawnPolicy :=
  {| inheritSpendLimits := true; inheritVendorAllowlist := true;
     inheritKillSwitch := true; maxSpendRatio := 1; maxTransactionRatio := 1;
     maxSpawnDepth := 3; maxChildren := 10; childrenCanSpawn := true;
     sharedBudget := true; childBudgetAllocation := 0 |}.

(** One iteration of [for (const rule of wallet.rules)]. *)
Definition readRule (acc : ParentRules) (rule : SpendRule) : ParentRules :=
  let acc :=
    if decide (r_ruleType rule = DAILY_LIMIT) then
      {| pr_dailyLimit :=
           Some (double (num_or (p_limit (r_parameters rule)) 1000));
         pr_maxSpendPerTx := pr_maxSpendPerTx acc;
         pr_vendorAllowlist := pr_vendorAllowlist acc |}
    else acc in
  if decide (r_ruleType rule = PER_TRANSACTION_LIMIT) then
    {| pr_dailyLimit := pr_dailyLimit acc;
       pr_maxSpendPerTx :=
         Some (double (num_or (p_limit (r_parameters rule)) 100));
       pr_vendorAllowlist := pr_vendorAllowlist acc |}
  else acc.

(** The parent's spend rules as a policy object; [parentWallets] is
    [parent.wallets], each wallet with its [rules]. *)
Definition parentRulesOf (parentWallets : list (list SpendRule)) : ParentRules :=
  foldl (λ acc rules, foldl readRule acc rules)
        {| pr_dailyLimit := None; pr_maxSpendPerTx := None;
           pr_vendorAllowlist := None |}
        parentWallets.

(** [_deriveChildPolicy] (251-292) *)
Definition _deriveChildPolicy (parentWallets : list (list SpendRule))
    (spawnPolicy : SpawnPolicy) (overrides : Overrides) : ChildPolicy :=
  let parentRules := parentRulesOf parentWallets in
  (* apply spawn ratios *)
  let child :=
    {| dailyLimit := js_mul (num_or (pr_dailyLimit parentRules) 1000)
                             (maxSpendRatio spawnPolicy);
       maxSpendPerTx := js_mul (num_or (pr_maxSpendPerTx parentRules) 100)
                               (maxTransactionRatio spawnPolicy);
       vendorAllowlist := default [] (pr_vendorAllowlist parentRules) |} in
  (* apply overrides: only tighter values accepted *)
  let child :=
    match o_dailyLimit overrides with
    | Some v => {| dailyLimit := Qmin (double v) (dailyLimit child);
                   maxSpendPerTx := maxSpendPerTx child;
                   vendorAllowlist := vendorAllowlist child |}
    | None => child
    end in
  let child :=
    match o_maxSpendPerTx overrides with
    | Some v => {| dailyLimit := dailyLimit child;
                   maxSpendPerTx := Qmin (double v) (maxSpendPerTx child);
                   vendorAllowlist := vendorAllowlist child |}
    | None => child
    end in
  let child :=
    match o_vendorAllowlist overrides, pr_vendorAllowlist parentRules with
    | Some vs, Some (p :: ps) =>
        {| dailyLimit := dailyLimit child; maxSpendPerTx := maxSpendPerTx child;
           vendorAllowlist := filter (λ v, v ∈ p :: ps) vs |}
    | _, _ => child
    end in
  match o_daily_limit_ratio overrides with
  | Some ratio => {| dailyLimit := js_mul (dailyLimit child)
                                          (Qmin (double ratio) 1);
                     maxSpendPerTx := maxSpendPerTx child;
                     vendorAllowlist := vendorAllowlist child |}
  | None => child
  end.

Definition _restrictSpawnPolicy (parentPolicy : SpawnPolicy) : SpawnPolicy :=
  {| inheritSpendLimits := inheritSpendLimits parentPolicy;
     inheritVendorAllowlist := inheritVendorAllowlist parentPolicy;
     inheritKillSwitch := inheritKillSwitch parentPolicy;
     maxSpendRatio := maxSpendRatio parentPolicy;
     maxTransactionRatio := maxTransactionRatio parentPolicy;
     maxSpawnDepth := Z.max 0 (maxSpawnDepth parentPolicy - 1);
     maxChildren := maxChildren parentPolicy;
     childrenCanSpawn := childrenCanSpawn parentPolicy;
     sharedBudget := sharedBudget parentPolicy;
     childBudgetAllocation := childBudgetAllocation parentPolicy |}.

Record Spawned := {
  childAgentId : string;
  inheritedPolicy : ChildPolicy;
  sp_depth : Z;
  sp_root : string;
  canSpawn : bool;
  sp_parentId : string;
}.

Inductive SpawnResult :=
  | Denied (reason : string)
  | Authorized (r : Spawned).

Definition findLineage (d : Db) (agentId : string) : option AgentLineage :=
  findFirst (λ l, l_agentId l = agentId) (lineages d).

(** [include: { wallets: { include: { rules: true } } }] *)
Definition walletsWithRules (d : Db) (agentId : string) : list (list SpendRule) :=
  (λ w, filter (λ r, r_walletId r = w_id w) (spendRules d))
    <$> filter (λ w, w_agentId w = agentId) (wallets d).

Definition push_child (childId : string) (l : AgentLineage) : AgentLineage :=
  {| l_agentId := l_agentId l; l_parentId := l_parentId l; l_rootId := l_rootId l;
     l_depth := l_depth l; l_childrenIds := l_childrenIds l ++ [childId];
     l_status := l_status l; l_spawnPolicy := l_spawnPolicy l |}.

(** [authorizeSpawn] (25-140) *)
Definition authorizeSpawn (d : Db) (parentAgentId childAgentId : string)
    (childPolicyOverrides : Overrides) : Db * SpawnResult :=
  (* 1. load parent context *)
  match findAgent d parentAgentId with
  | None => (d, Denied "Parent agent not found")
  | Some parent =>
    if bool_decide (a_status parent ∈ [A_FROZEN; A_TERMINATED; A_KILLED]) then
      (d, Denied "Parent agent cannot spawn")
    else
      (* 2. load or create parent lineage *)
      let '(d, parentLineage) :=
        match findLineage d parentAgentId with
        | Some l => (d, l)
        | None =>
            let l := {| l_agentId := parentAgentId; l_parentId := None;
                        l_rootId := parentAgentId; l_depth := 0;
                        l_childrenIds := []; l_status := L_active;
                        l_spawnPolicy := None |} in
            (set_lineages (create l) d, l)
        end in
      let spawnPolicy := default _defaultSpawnPolicy (l_spawnPolicy parentLineage) in
      (* 3. depth check *)
      if bool_decide (maxSpawnDepth spawnPolicy ≤ l_depth parentLineage)%Z then
        (d, Denied "Max spawn depth reached")
      (* 4. children count check *)
      else if bool_decide (maxChildren spawnPolicy
                           ≤ Z.of_nat (length (l_childrenIds parentLineage)))%Z then
        (d, Denied "Max children reached")
      (* 5. only matters for non-root agents *)
      else if bool_decide (0 < l_depth parentLineage)%Z
              && negb (childrenCanSpawn spawnPolicy) then
        (d, Denied "Parent policy prohibits further spawning")
      (* 6. the child must not exist yet *)
      else if bool_decide (is_Some (findLineage d childAgentId)) then
        (d, Denied "Agent already has a lineage record")
      else
        (* 7. derive the child's inherited policy *)
        let inheritedPolicy :=
          _deriveChildPolicy (walletsWithRules d parentAgentId) spawnPolicy
                             childPolicyOverrides in
        (* 8. create the child lineage record *)
        let childLineage :=
          {| l_agentId := childAgentId; l_parentId := Some parentAgentId;
             l_rootId := l_rootId parentLineage;
             l_depth := (l_depth parentLineage + 1)%Z;
             l_childrenIds := []; l_status := L_active;
             l_spawnPolicy := Some (_restrictSpawnPolicy spawnPolicy) |} in
        let d := set_lineages (create childLineage) d in
        (* 9. add the child to the parent's children list *)
        let d := set_lineages (updateMany (λ l, l_agentId l = parentAgentId)
                                          (push_child childAgentId)) d in
        (* 10. audit log *)
        let d := set_spawnEvents (create
                   {| se_parentId := parentAgentId; se_childId := childAgentId;
                      se_depth := l_depth childLineage;
                      se_inheritedPolicy := Some inheritedPolicy;
                      se_authorized := true |}) d in
        (d, Authorized
              {| childAgentId := childAgentId; inheritedPolicy := inheritedPolicy;
                 sp_depth := l_depth childLineage; sp_root := l_rootId childLineage;
                 canSpawn := default false
                               (childrenCanSpawn <$> l_spawnPolicy childLineage);
                 sp_parentId := parentAgentId |})
  end.

(** How a handler that recurses over the store ends: it runs out of the
    fuel the model gives it, it throws, or it returns. *)
Inductive Run (A : Type) :=
  | OutOfFuel
  | Thrown
  | Done (a : A).
Global Arguments OutOfFuel {A}.
Global Arguments Thrown {A}.
Global Arguments Done {A} a.

(** [for (const id of ids) await step(id)], threading what [step]
    mutates. *)
Fixpoint forEach {A} (step : A → string → Run A) (ids : list string) (acc : A)
    : Run A :=
  match ids with
  | [] => Done acc
  | id :: rest =>
      match step acc id with
      | Done acc => forEach step rest acc
      | OutOfFuel => OutOfFuel
      | Thrown => Thrown
      end
  end.

(** The local [_terminate] of [terminateLineage] (155-174), threading the
    store and the [terminated] array.  [prisma.agentLineage.update] throws
    when the agent has no lineage row. *)
Fixpoint _terminate (fuel : nat) (cascade : bool) (acc : Db * list string)
    (id : string) : Run (Db * list string) :=
  match fuel with
  | O => OutOfFuel
  | S fuel =>
    let '(d, terminated) := acc in
    match findLineage d id with
    | None => Thrown
    | Some _ =>
      let d := set_lineages (updateMany (λ l, l_agentId l = id)
                 (DeadManSwitch.with_lineage_status L_terminated)) d in
      let d := set_agents (updateMany (λ a, a_id a = id)
                 (DeadManSwitch.with_agent_status A_TERMINATED)) d in
      let terminated := terminated ++ [id] in
      if cascade then
        match findLineage d id with
        | Some lin =>
            forEach (_terminate fuel cascade) (l_childrenIds lin) (d, terminated)
        | None => Done (d, terminated)
        end
      else Done (d, terminated)
    end
  end.

(** [{ terminated, notFound }] for an agent without a lineage row and
    [{ terminated, cascade }] otherwise: an absent [notFound] reads as the
    empty list, and [cascade] echoes the argument. *)
Record Termination := {
  terminated : list string;
  notFound : list string;
}.

(** [terminateLineage] (149-191).  The audit row reuses the SpawnEvent
    table, with the operator as [parentId]. *)
Definition terminateLineage (fuel : nat) (d : Db) (agentId : string)
    (cascade : bool) (operatorId : string) : Run (Db * Termination) :=
  match findLineage d agentId with
  | None => Done (d, {| terminated := []; notFound := [agentId] |})
  | Some lineage =>
    match _terminate fuel cascade (d, []) agentId with
    | Done (d, terminated) =>
        Done (set_spawnEvents (create
                {| se_parentId := operatorId; se_childId := agentId;
                   se_depth := l_depth lineage; se_inheritedPolicy := None;
                   se_authorized := true |}) d,
              {| terminated := terminated; notFound := [] |})
    | OutOfFuel => OutOfFuel
    | Thrown => Thrown
    end
  end.

End SpawnGovernor.

(** ** Cross-agent governor (services/crossAgentGovernor) *)

Module CrossAgentGovernor.

Record Request := {
  sourceAgentId : string;
  targetAgentId : string;
  amount : Q;
  paymentType : string;
}.

Inductive CheckKind :=
  | payment_type | per_tx_limit | daily_target_limit | daily_global_limit
  | counterparty_trust.

Record Check := {
  passed : bool;
  check : CheckKind;
}.

(** Priority: exact (source→target) > group > wildcard (source→any). *)
Definition exactMatch (sourceId targetId : string) (p : CrossAgentPolicy) : Prop :=
  cp_sourceAgentId p = sourceId ∧ cp_targetAgentId p = Some targetId ∧ cp_enabled p.

Definition groupMatch (sourceId : string) (group : AgentGroup) (p : CrossAgentPolicy) : Prop :=
  cp_sourceAgentId p = sourceId ∧ cp_targetAgentGroup p = Some (g_name group)
  ∧ cp_enabled p.

Definition wildcardMatch (sourceId : string) (p : CrossAgentPolicy) : Prop :=
  cp_sourceAgentId p = sourceId ∧ cp_targetAgentId p = None
  ∧ cp_targetAgentGroup p = None ∧ cp_enabled p.

Global Instance exactMatch_dec s t p : Decision (exactMatch s t p).
Proof. unfold exactMatch. apply _. Defined.
Global Instance groupMatch_dec s g p : Decision (groupMatch s g p).
Proof. unfold groupMatch. apply _. Defined.
Global Instance wildcardMatch_dec s p : Decision (wildcardMatch s p).
Proof. unfold wildcardMatch. apply _. Defined.

(** [for (const group of targetGroups)] with its early return. *)
Fixpoint firstGroupPolicy (d : Db) (sourceId : string)
    (targetGroups : list AgentGroup) : option CrossAgentPolicy :=
  match targetGroups with
  | [] => None
  | group :: rest =>
      match findFirst (groupMatch sourceId group) (policies d) with
      | Some groupPolicy => Some groupPolicy
      | None => firstGroupPolicy d sourceId rest
      end
  end.

(** [_resolvePolicy] (517-540) *)
Definition _resolvePolicy (d : Db) (sourceId targetId : string)
    : option CrossAgentPolicy :=
  (* 1. exact match *)
  match findFirst (exactMatch sourceId targetId) (policies d) with
  | Some exact => Some exact
  | None =>
    (* 2. group match: the groups the target belongs to *)
    let targetGroups := filter (λ g, targetId ∈ g_agentIds g) (groups d) in
    match firstGroupPolicy d sourceId targetGroups with
    | Some groupPolicy => Some groupPolicy
    | None =>
      (* 3. wildcard *)
      findFirst (wildcardMatch sourceId) (policies d)
    end
  end.

Definition _checkPaymentType (policy : CrossAgentPolicy) (paymentType : string) : Check :=
  {| passed := bool_decide (paymentType ∈ allowedPaymentTypes policy);
     check := payment_type |}.

Definition _checkPerTxLimit (policy : CrossAgentPolicy) (amount : Q) : Check :=
  {| passed := negb (bool_decide (maxPerTransaction policy < amount)%Q);
     check := per_tx_limit |}.

Definition _checkDailyTargetLimit (clk : Clock) (d : Db) (policy : CrossAgentPolicy)
    (sourceId targetId : string) (amount : Q) : Check :=
  let windowStart := (now clk - 86400000)%Z in
  let spent := sumQ (x_amount <$>
    filter (λ x, x_sourceAgentId x = sourceId ∧ x_targetAgentId x = targetId
                 ∧ (windowStart ≤ x_createdAt x)%Z ∧ x_authorized x)
           (crossTxs d)) in
  {| passed := negb (bool_decide (maxDailyToTarget policy < spent + amount)%Q);
     check := daily_target_limit |}.

Definition _checkDailyGlobalLimit (clk : Clock) (d : Db) (policy : CrossAgentPolicy)
    (sourceId : string) (amount : Q) : Check :=
  let windowStart := (now clk - 86400000)%Z in
  let spent := sumQ (x_amount <$>
    filter (λ x, x_sourceAgentId x = sourceId
                 ∧ (windowStart ≤ x_createdAt x)%Z ∧ x_authorized x)
           (crossTxs d)) in
  {| passed := negb (bool_decide (maxDailyAllAgents policy < spent + amount)%Q);
     check := daily_global_limit |}.

Definition _checkCounterpartyTrust (d : Db) (policy : CrossAgentPolicy)
    (targetId : string) : Check :=
  let minScore := minCounterpartyTrustScore policy in
  if bool_decide (minScore <= 0)%Q then {| passed := true; check := counterparty_trust |}
  else
    let totalAsTgt := length (filter (λ x, x_targetAgentId x = targetId) (crossTxs d)) in
    let successAsTgt :=
      length (filter (λ x, x_targetAgentId x = targetId
                           ∧ x_settlementStatus x = S_settled) (crossTxs d)) in
    let score :=
      if bool_decide (0 < totalAsTgt)%nat
      then (inject_Z (Z.of_nat successAsTgt) / inject_Z (Z.of_nat totalAsTgt))%Q
      else 0%Q in
    {| passed := negb (bool_decide (score < minScore)%Q);
       check := counterparty_trust |}.

(** [_recordTransaction]; returns the store and the id of the new row. *)
Definition _recordTransaction (clk : Clock) (d : Db) (req : Request)
    (policyId : option string) (authorized : bool)
    (authorizationMethod : AuthorizationMethod)
    (settlementMode : option SettlementMode) (requiresHuman : bool) : Db * nat :=
  (set_crossTxs (create
     {| x_sourceAgentId := sourceAgentId req; x_targetAgentId := targetAgentId req;
        x_amount := amount req; x_paymentType := paymentType req;
        x_policyId := policyId; x_authorized := authorized;
        x_authorizationMethod := authorizationMethod;
        x_settlementStatus :=
          if authorized then
            match settlementMode with
            | Some immediate => S_settled
            | _ => S_pending
            end
          else S_failed;
        x_requiresHuman := requiresHuman; x_createdAt := now clk |}) d,
   length (crossTxs d)).

(** The object [authorizeTransaction] resolves to.  A key that a path of
    the source leaves out is undefined there: it reads as false, [None] or
    the empty list. *)
Record Outcome := {
  authorized : bool;
  requiresHuman : bool;
  transactionId : option nat;
  out_settlementMode : option SettlementMode;
  out_policyId : option string;
  checks : list Check;
}.

(** [authorizeTransaction] (328-426) *)
Definition authorizeTransaction (clk : Clock) (d : Db) (req : Request)
    : Db * Outcome :=
  (* 1. resolve the most specific applicable policy *)
  match _resolvePolicy d (sourceAgentId req) (targetAgentId req) with
  | None =>
      let '(d1, tx) := _recordTransaction clk d req None false M_auto None true in
      (d1, {| authorized := false; requiresHuman := true;
              transactionId := Some tx; out_settlementMode := None;
              out_policyId := None; checks := [] |})
  | Some policy =>
    (* 2. mutual policy requirement *)
    if requireMutualPolicy policy
       && negb (bool_decide (is_Some
            (_resolvePolicy d (targetAgentId req) (sourceAgentId req)))) then
      (d, {| authorized := false; requiresHuman := false;
             transactionId := None; out_settlementMode := None;
             out_policyId := None; checks := [] |})
    else
      (* 3. run all checks *)
      let checks :=
        [ _checkPaymentType policy (paymentType req);
          _checkPerTxLimit policy (amount req);
          _checkDailyTargetLimit clk d policy (sourceAgentId req)
                                 (targetAgentId req) (amount req);
          _checkDailyGlobalLimit clk d policy (sourceAgentId req) (amount req);
          _checkCounterpartyTrust d policy (targetAgentId req) ] in
      match findFirst (λ c, ¬ passed c) checks with
      | Some failed =>
          let '(d1, _) := _recordTransaction clk d req (Some (cp_id policy))
                            false M_auto None false in
          (d1, {| authorized := false; requiresHuman := false;
                  transactionId := None; out_settlementMode := None;
                  out_policyId := None; checks := checks |})
      | None =>
        (* 4. escalate to a human above the threshold *)
        if bool_decide (requireHumanApprovalAbove policy < amount req)%Q then
          let '(d1, tx) := _recordTransaction clk d req (Some (cp_id policy))
                             false M_escalated None true in
          (d1, {| authorized := false; requiresHuman := true;
                  transactionId := Some tx; out_settlementMode := None;
                  out_policyId := None; checks := [] |})
        else
          (* 5. authorized: record and return *)
          let '(d1, tx) := _recordTransaction clk d req (Some (cp_id policy))
                             true M_auto (Some (settlementMode policy)) false in
          (d1, {| authorized := true; requiresHuman := false;
                  transactionId := Some tx;
                  out_settlementMode := Some (settlementMode policy);
                  out_policyId := Some (cp_id policy); checks := checks |})
      end
  end.

(** The parameters of [createPolicy]: every limit may be left out. *)
Record PolicyParams := {
  pp_sourceAgentId : string;
  pp_targetAgentId : option string;
  pp_targetAgentGroup : option string;
  pp_maxPerTransaction : option Q;
  pp_maxDailyToTarget : option Q;
  pp_maxDailyAllAgents : option Q;
  pp_requireHumanApprovalAbove : option Q;
  pp_allowedPaymentTypes : option (list string);
  pp_requireMutualPolicy : option bool;
  pp_settlementMode : option SettlementMode;
  pp_minCounterpartyTrustScore : option Q;
}.

(** [x || null] on an optional string *)
Definition or_null (x : option string) : option string :=
  if truthy x then x else None.

(** [createPolicy] (432-449); [id] is the key the store generates, and
    [enabled] takes its column default. *)
Definition createPolicy (id : string) (d : Db) (ownerId : string)
    (params : PolicyParams) : Db :=
  set_policies (create
    {| cp_id := id; cp_ownerId := ownerId;
       cp_sourceAgentId := pp_sourceAgentId params;
       cp_targetAgentId := or_null (pp_targetAgentId params);
       cp_targetAgentGroup := or_null (pp_targetAgentGroup params);
       maxPerTransaction := default 100%Q (pp_maxPerTransaction params);
       maxDailyToTarget := default 1000%Q (pp_maxDailyToTarget params);
       maxDailyAllAgents := default 5000%Q (pp_maxDailyAllAgents params);
       requireHumanApprovalAbove :=
         default 500%Q (pp_requireHumanApprovalAbove params);
       allowedPaymentTypes :=
         default ["compute"; "data"; "api_call"; "service"]
                 (pp_allowedPaymentTypes params);
       requireMutualPolicy := default true (pp_requireMutualPolicy params);
       settlementMode := default immediate (pp_settlementMode params);
       minCounterpartyTrustScore :=
         default 0%Q (pp_minCounterpartyTrustScore params);
       cp_enabled := true |}) d.

Definition disable (p : CrossAgentPolicy) : CrossAgentPolicy :=
  {| cp_id := cp_id p; cp_ownerId := cp_ownerId p;
     cp_sourceAgentId := cp_sourceAgentId p;
     cp_targetAgentId := cp_targetAgentId p;
     cp_targetAgentGroup := cp_targetAgentGroup p;
     maxPerTransaction := maxPerTransaction p;
     maxDailyToTarget := maxDailyToTarget p;
     maxDailyAllAgents := maxDailyAllAgents p;
     requireHumanApprovalAbove := requireHumanApprovalAbove p;
     allowedPaymentTypes := allowedPaymentTypes p;
     requireMutualPolicy := requireMutualPolicy p;
     settlementMode := settlementMode p;
     minCounterpartyTrustScore := minCounterpartyTrustScore p;
     cp_enabled := false |}.

(** [deletePolicy] (469-474): a soft delete. *)
Definition deletePolicy (d : Db) (policyId ownerId : string) : Db :=
  set_policies (updateMany (λ p, cp_id p = policyId ∧ cp_ownerId p = ownerId)
                           disable) d.

Definition human_approved (x : CrossAgentTransaction) : CrossAgentTransaction :=
  {| x_sourceAgentId := x_sourceAgentId x; x_targetAgentId := x_targetAgentId x;
     x_amount := x_amount x; x_paymentType := x_paymentType x;
     x_policyId := x_policyId x; x_authorized := true;
     x_authorizationMethod := M_human_approved;
     x_settlementStatus := x_settlementStatus x;
     x_requiresHuman := false; x_createdAt := x_createdAt x |}.

(** [approveTransaction] (492-508): a human approves a held transaction;
    the boolean is [success].  The handler also notes [approvedBy] and
    [approvedAt] in the row's metadata. *)
Definition approveTransaction (d : Db) (transactionId : nat) (operatorId : string)
    : Db * bool :=
  match crossTxs d !! transactionId with
  | None => (d, false)
  | Some tx =>
    if negb (x_requiresHuman tx) then (d, false)
    else (set_crossTxs (alter human_approved transactionId) d, true)
  end.

End CrossAgentGovernor.

(** ** Vocabulary of the statements *)

(** *** Admission *)

(** The candidate the route hands to the rules engine. *)
Definition candidateOf (amount : Q) (body : Transactions.Body) : RulesEngine.Candidate :=
  {| RulesEngine.t_amount := amount;
     RulesEngine.t_category := Transactions.category body;
     RulesEngine.t_recipientId := Transactions.recipientId body;
     RulesEngine.t_metadata := no_metadata |}.

(** The preconditions of an admission: the request names a wallet the
    caller may use, the wallet is active, the amount is positive and
    covered by the balance. *)
Record admissible (auth : Auth) (d : Db) (body : Transactions.Body)
    (id : string) (amt : Q) (wallet : Wallet) : Prop := {
  adm_walletId : Transactions.walletId body = Some id;
  adm_nonempty : id ≠ "";
  adm_amount : Transactions.amount body = Some amt;
  adm_wallet : findWallet d id = Some wallet;
  adm_access : canAccessAgent auth d (w_agentId wallet) = true;
  adm_active : w_status wallet = W_ACTIVE;
  adm_positive : (0 < amt)%Q;
  adm_covered : (amt <= w_balance wallet)%Q;
}.

(** What the kill-switch gate may change: kill-switch rows, the status of
    the wallet, and the audit log. *)
Record gate_frame (walletId : string) (w : Wallet) (d d1 : Db) : Prop := {
  gf_transactions : transactions d1 = transactions d;
  gf_spendRules : spendRules d1 = spendRules d;
  gf_agents : agents d1 = agents d;
  gf_wallet : ∃ w1, findWallet d1 walletId = Some w1
                    ∧ w_balance w1 = w_balance w ∧ w_agentId w1 = w_agentId w;
  gf_auditLogs : auditLogs d1 = auditLogs d
                 ∨ ∃ entry, auditLogs d1 = auditLogs d ++ [entry]
                            ∧ al_action entry = "KILL_SWITCH_TRIGGERED"
                            ∧ al_resource entry = "wallet"
                            ∧ al_resourceId entry = walletId;
}.

(** Every wallet holds a balance that is not negative. *)
Definition solvent (d : Db) : Prop :=
  Forall (λ w, (0 <= w_balance w)%Q) (wallets d).

(** [Wallet.id] is the primary key of the table. *)
Definition wallet_ids_unique (d : Db) : Prop := NoDup (w_id <$> wallets d).

(** A refusal: one of the 400, 403 and 404 responses. *)
Definition refusal (resp : Transactions.Response) : Prop :=
  match resp with
  | Transactions.BadRequest _ | Transactions.NotFound _
  | Transactions.Forbidden _ => True
  | _ => False
  end.

(** *** Spend windows *)

(** Whether [getSpendSince] counts a row. *)
Definition counted (walletId : string) (since : Z) (t : Transaction) : Prop :=
  tx_walletId t = walletId ∧ tx_status t = COMPLETED ∧ (since ≤ tx_createdAt t)%Z.

Global Instance counted_dec w s t : Decision (counted w s t).
Proof. unfold counted. apply _. Defined.

(** The aggregate as the specification words it: Completed non-deposit
    transactions with [createdAt >= since]. *)
Definition spend_without_deposits (d : Db) (walletId : string) (since : Z) : Q :=
  sumQ (tx_amount <$>
    filter (λ t, tx_walletId t = walletId ∧ tx_status t = COMPLETED
                 ∧ tx_category t ≠ Some "deposit"
                 ∧ (since ≤ tx_createdAt t)%Z)
           (transactions d)).

(** *** Rules *)

(** The entry the rule loop pushes for a rule. *)
Definition entryOf (clk : Clock) (d : Db) (walletId : string)
    (transaction : RulesEngine.Candidate) (rule : SpendRule) : RuleResult :=
  {| rr_ruleId := r_id rule; rr_ruleType := Some (r_ruleType rule);
     rr_passed := RulesEngine.cr_passed
                    (RulesEngine.evaluateRule clk d rule walletId transaction) |}.

Definition isApprovalThreshold (rule : SpendRule) : Prop :=
  r_ruleType rule = REQUIRES_APPROVAL.

Global Instance isApprovalThreshold_dec r : Decision (isApprovalThreshold r).
Proof. unfold isApprovalThreshold. apply _. Defined.

(** The four rules that look at the category or at the recipient. *)
Definition isListRule (rule : SpendRule) : Prop :=
  r_ruleType rule ∈ [CATEGORY_WHITELIST; CATEGORY_BLACKLIST;
                     RECIPIENT_WHITELIST; RECIPIENT_BLACKLIST].

Global Instance isListRule_dec r : Decision (isListRule r).
Proof. unfold isListRule. apply _. Defined.

(** Two candidates that differ in the amount only. *)
Definition same_but_amount (tx tx' : RulesEngine.Candidate) : Prop :=
  RulesEngine.t_category tx' = RulesEngine.t_category tx
  ∧ RulesEngine.t_recipientId tx' = RulesEngine.t_recipientId tx
  ∧ RulesEngine.t_metadata tx' = RulesEngine.t_metadata tx.

(** *** Spawning *)

(** The spawn policy [authorizeSpawn] reads for a parent. *)
Definition spawnPolicyOf (d : Db) (parentAgentId : string) : SpawnPolicy :=
  default SpawnGovernor._defaultSpawnPolicy
          (SpawnGovernor.findLineage d parentAgentId ≫= l_spawnPolicy).

(** The lineage below [id] is recorded down to its leaves within [h]
    generations: [id] has a lineage row, and so has every agent that is
    listed as a child on the way down. *)
Fixpoint tree_below (d : Db) (h : nat) (id : string) : Prop :=
  match h with
  | O => False
  | S h => ∃ lin, SpawnGovernor.findLineage d id = Some lin
                  ∧ Forall (tree_below d h) (l_childrenIds lin)
  end.

(** Agent [x] is terminated: its lineage row says so, and so does every
    agent row with its id. *)
Definition terminated_in (d : Db) (x : string) : Prop :=
  l_status <$> SpawnGovernor.findLineage d x = Some L_terminated
  ∧ Forall (λ a, a_id a = x → a_status a = A_TERMINATED) (agents d).

(** What a termination may change between two stores: lineage and agent
    statuses, and only towards terminated.  The children lists, the
    wallets, the rules and the spawn events stay. *)
Definition only_terminates (d d' : Db) : Prop :=
  (∀ x, l_childrenIds <$> SpawnGovernor.findLineage d' x
        = l_childrenIds <$> SpawnGovernor.findLineage d x)
  ∧ (∀ x, terminated_in d x → terminated_in d' x)
  ∧ spawnEvents d' = spawnEvents d ∧ wallets d' = wallets d
  ∧ spendRules d' = spendRules d.

(** [id] and everything below it, parents before their children. *)
Fixpoint preorder (d : Db) (h : nat) (id : string) : list string :=
  match h with
  | O => []
  | S h =>
      id :: mjoin (preorder d h <$>
                     default [] (l_childrenIds <$> SpawnGovernor.findLineage d id))
  end.

(** *** Dead-man switch *)

(** The status the freeze and terminate branches write. *)
Definition statusOf (action : Action) : AgentStatus :=
  match action with terminate => A_TERMINATED | _ => A_FROZEN end.

(** Every agent below [id] in the lineage tree, down to depth [fuel]. *)
Fixpoint descendants (d : Db) (fuel : nat) (id : string) : list string :=
  match fuel with
  | O => []
  | S fuel =>
      let children :=
        default [] (l_childrenIds <$> SpawnGovernor.findLineage d id) in
      children ++ mjoin (descendants d fuel <$> children)
  end.

(** Writing [status] on the agents whose id is in [ids]. *)
Definition mark (status : AgentStatus) (ids : list string) (a : Agent) : Agent :=
  if decide (a_id a ∈ ids) then DeadManSwitch.with_agent_status status a else a.

(** The agent has no config row, or its config is disabled. *)
Definition unprotected (d : Db) (agentId : string) : Prop :=
  match DeadManSwitch._getConfig d agentId with
  | None => True
  | Some config => enabled config = false
  end.

(** *** Cross-agent policies *)

(** The most specific enabled policy for (source, target): an exact match,
    else a policy on a group that contains the target, else the wildcard,
    else none. *)
Inductive MostSpecific (d : Db) (sourceId targetId : string)
    : option CrossAgentPolicy → Prop :=
  | ms_exact p :
      p ∈ policies d → CrossAgentGovernor.exactMatch sourceId targetId p →
      MostSpecific d sourceId targetId (Some p)
  | ms_group p g :
      Forall (λ q, ¬ CrossAgentGovernor.exactMatch sourceId targetId q) (policies d) →
      g ∈ groups d → targetId ∈ g_agentIds g →
      p ∈ policies d → CrossAgentGovernor.groupMatch sourceId g p →
      MostSpecific d sourceId targetId (Some p)
  | ms_wildcard p :
      Forall (λ q, ¬ CrossAgentGovernor.exactMatch sourceId targetId q) (policies d) →
      Forall (λ g, targetId ∈ g_agentIds g →
                   Forall (λ q, ¬ CrossAgentGovernor.groupMatch sourceId g q)
                          (policies d)) (groups d) →
      p ∈ policies d → CrossAgentGovernor.wildcardMatch sourceId p →
      MostSpecific d sourceId targetId (Some p)
  | ms_none :
      Forall (λ q, ¬ CrossAgentGovernor.exactMatch sourceId targetId q) (policies d) →
      Forall (λ g, targetId ∈ g_agentIds g →
                   Forall (λ q, ¬ CrossAgentGovernor.groupMatch sourceId g q)
                          (policies d)) (groups d) →
      Forall (λ q, ¬ CrossAgentGovernor.wildcardMatch sourceId q) (policies d) →
      MostSpecific d sourceId targetId None.

(** The target holds a policy towards the source whenever [p] asks for
    one. *)
Definition reciprocated (d : Db) (req : CrossAgentGovernor.Request)
    (p : CrossAgentPolicy) : Prop :=
  requireMutualPolicy p = true →
  is_Some (CrossAgentGovernor._resolvePolicy d
             (CrossAgentGovernor.targetAgentId req)
             (CrossAgentGovernor.sourceAgentId req)).

(** The request clears the five checks of the governor, each run against
    the limits of [p]: payment type, per-transaction limit, daily limit
    towards the target, daily limit towards all agents, counterparty
    trust. *)
Definition clears (clk : Clock) (d : Db) (req : CrossAgentGovernor.Request)
    (p : CrossAgentPolicy) : Prop :=
  CrossAgentGovernor.passed
    (CrossAgentGovernor._checkPaymentType p (CrossAgentGovernor.paymentType req))
  ∧ CrossAgentGovernor.passed
      (CrossAgentGovernor._checkPerTxLimit p (CrossAgentGovernor.amount req))
  ∧ CrossAgentGovernor.passed
      (CrossAgentGovernor._checkDailyTargetLimit clk d p
         (CrossAgentGovernor.sourceAgentId req)
         (CrossAgentGovernor.targetAgentId req) (CrossAgentGovernor.amount req))
  ∧ CrossAgentGovernor.passed
      (CrossAgentGovernor._checkDailyGlobalLimit clk d p
         (CrossAgentGovernor.sourceAgentId req) (CrossAgentGovernor.amount req))
  ∧ CrossAgentGovernor.passed
      (CrossAgentGovernor._checkCounterpartyTrust d p
         (CrossAgentGovernor.targetAgentId req)).

(** The two daily aggregates of the cross-agent checks: what the source
    was authorized to pay in the last 24 hours, to one target and to
    anyone. *)
Definition spentToTarget (clk : Clock) (d : Db) (sourceId targetId : string) : Q :=
  sumQ (x_amount <$>
    filter (λ x, x_sourceAgentId x = sourceId ∧ x_targetAgentId x = targetId
                 ∧ (now clk - 86400000 ≤ x_createdAt x)%Z ∧ x_authorized x)
           (crossTxs d)).

Definition spentToAll (clk : Clock) (d : Db) (sourceId : string) : Q :=
  sumQ (x_amount <$>
    filter (λ x, x_sourceAgentId x = sourceId
                 ∧ (now clk - 86400000 ≤ x_createdAt x)%Z ∧ x_authorized x)
           (crossTxs d)).

(** The rows that speak for a target's reliability. *)
Definition settledTowards (d : Db) (targetId : string) : list CrossAgentTransaction :=
  filter (λ x, x_targetAgentId x = targetId ∧ x_settlementStatus x = S_settled)
         (crossTxs d).

(** ** Scenarios *)

Module Scenario.

(** 2023-11-14 22:13:20 UTC, with the midnight, Sunday and first of the
    month before it. *)
Definition clk0 : Clock :=
  {| now := 1700000000000; startOfDay := 1699920000000;
     startOfWeek := 1699747200000; startOfMonth := 1698796800000;
     currentHourUTC := 22 |}.

Definition limit_of (q : Q) : RuleParams :=
  {| p_limit := Some q; p_threshold := None; p_categories := None;
     p_recipients := None; p_startHour := None; p_endHour := None;
     p_allowedSignals := None; p_throttled := false |}.

Definition threshold_of (q : Q) : RuleParams :=
  {| p_limit := None; p_threshold := Some q; p_categories := None;
     p_recipients := None; p_startHour := None; p_endHour := None;
     p_allowedSignals := None; p_throttled := false |}.

Definition rule (id walletId : string) (ty : RuleType) (p : RuleParams)
    (prio : Z) : SpendRule :=
  {| r_id := id; r_walletId := walletId; r_ruleType := ty; r_parameters := p;
     r_active := true; r_priority := prio |}.

Definition agent (id : string) : Agent :=
  {| a_id := id; a_ownerId := "o1"; a_status := A_ACTIVE |}.

Definition w1 : Wallet :=
  {| w_id := "w1"; w_agentId := "a1"; w_balance := 1000; w_status := W_ACTIVE |}.

(** Agent a1 of owner o1, its wallet w1 holding 1000, and the given rules. *)
Definition db_with (rules : list SpendRule) : Db :=
  set_spendRules (λ _, rules)
    (set_wallets (λ _, [w1]) (set_agents (λ _, [agent "a1"]) empty_db)).

(** ApprovalThreshold 75 (priority 1) and PerTransactionLimit 200
    (priority 2). *)
Definition db_base : Db :=
  db_with [rule "r1" "w1" REQUIRES_APPROVAL (threshold_of 75) 1;
           rule "r2" "w1" PER_TRANSACTION_LIMIT (limit_of 200) 2].

Definition spend (amt : Q) : Transactions.Body :=
  {| Transactions.walletId := Some "w1"; Transactions.amount := Some amt;
     Transactions.recipientId := Some "vendor.example";
     Transactions.recipientType := None;
     Transactions.category := Some "advertising";
     Transactions.description := None; Transactions.metadata := None |}.

(** [db_base] after the agent asked for 80, which awaits approval as
    transaction 0. *)
Definition db_awaiting : Db :=
  default db_base
    (fst <$> Transactions.post (AgentKey "a1") clk0 db_base (spend 80)).

(** Wallet w1 holding 100 under ApprovalThreshold 75, after the agent
    asked twice for 80: transactions 0 and 1 await approval. *)
Definition db_two_awaiting : Db :=
  let d0 := set_wallets (λ _, [{| w_id := "w1"; w_agentId := "a1";
                                   w_balance := 100; w_status := W_ACTIVE |}])
              db_base in
  let d1 := default d0 (fst <$> Transactions.post (AgentKey "a1") clk0 d0 (spend 80)) in
  default d1 (fst <$> Transactions.post (AgentKey "a1") clk0 d1 (spend 80)).

(** Both approvals test the balance before either debits. *)
Definition checks_first : list Transactions.Turn :=
  [Transactions.first; Transactions.first;
   Transactions.second; Transactions.second;
   Transactions.first; Transactions.first; Transactions.first;
   Transactions.second; Transactions.second; Transactions.second].

(** DailyLimit 150 and no transaction yet; then the owner deposits 100. *)
Definition db_daily : Db := db_with [rule "r1" "w1" DAILY_LIMIT (limit_of 150) 1].

Definition db_deposited : Db :=
  default db_daily
    (fst <$> Transactions.deposit (OwnerKey "o1") clk0 db_daily "w1" (Some 100%Q) "manual").

(** w1 with an active kill switch that is latched. *)
Definition ks_latched : KillSwitch :=
  {| ks_id := "ks1"; ks_walletId := "w1"; ks_triggerType := DRAWDOWN_PERCENT;
     ks_threshold := 1 # 5; ks_windowHours := 24; ks_active := true;
     ks_triggered := true; ks_triggeredAt := Some 1699990000000%Z;
     ks_resetAt := None; ks_currentValue := Some (1 # 3) |}.

Definition db_latched : Db := set_killSwitches (λ _, [ks_latched]) db_base.

(** w1 (balance 1000) after a Completed transaction of 500 an hour ago,
    under a DrawdownPercent switch of 20% over 24 hours that has not fired
    yet: the reconstructed peak is 1500, the drawdown one third. *)
Definition db_drawdown : Db :=
  set_transactions (λ _,
    [{| tx_walletId := "w1"; tx_amount := 500; tx_recipientId := None;
        tx_recipientType := EXTERNAL; tx_category := Some "trading";
        tx_description := None; tx_status := COMPLETED;
        tx_ruleCheckResults := None; tx_metadata := no_metadata;
        tx_createdAt := 1699996400000;
        tx_completedAt := Some 1699996400000%Z |}])
    (set_killSwitches (λ _,
       [{| ks_id := "ks1"; ks_walletId := "w1"; ks_triggerType := DRAWDOWN_PERCENT;
           ks_threshold := 1 # 5; ks_windowHours := 24; ks_active := true;
           ks_triggered := false; ks_triggeredAt := None; ks_resetAt := None;
           ks_currentValue := None |}]) db_base).

Definition db_fired : Db :=
  default db_drawdown
    (fst <$> Transactions.post (AgentKey "a1") clk0 db_drawdown (spend 10)).

(** a1 under a dead-man config of at most 3 transactions a minute, after
    three gated transactions in the last three seconds. *)
Definition dms_config (agentId : string) (onAnomaly : Action) : DeadManSwitchConfig :=
  {| c_agentId := agentId; heartbeatIntervalSeconds := 60;
     missedHeartbeatThreshold := 3; anomalyWindowMinutes := 60;
     anomalySpendMultiplier := 3; maxTxPerMinute := 3;
     maxUniqueVendorsPerHour := 20; onAnomaly := onAnomaly;
     onMissedHeartbeat := freeze; onManualTrigger := terminate;
     cascadeToChildren := true; recoveryRequiresHuman := true;
     enabled := true |}.

Definition db_dms : Db := set_dmsConfigs (λ _, [dms_config "a1" alert]) db_base.

Definition s_busy : DeadManSwitch.State :=
  DeadManSwitch.set_window "a1"
    [1699999997000; 1699999998000; 1699999999000]%Z DeadManSwitch.initial.

(** a1 after two gated transactions in the last two seconds. *)
Definition s_two : DeadManSwitch.State :=
  DeadManSwitch.set_window "a1"
    [1699999998000; 1699999999000]%Z DeadManSwitch.initial.

(** Parent p whose wallet has DailyLimit 1000. *)
Definition db_spawn : Db :=
  set_spendRules (λ _, [rule "rp" "wp" DAILY_LIMIT (limit_of 1000) 1])
    (set_wallets (λ _, [{| w_id := "wp"; w_agentId := "p"; w_balance := 0;
                           w_status := W_ACTIVE |}])
       (set_agents (λ _, [agent "p"]) empty_db)).

(** The same parent with three more agents that have no lineage yet. *)
Definition db_family : Db :=
  set_agents (λ _, [agent "p"; agent "c"; agent "g"; agent "x"]) db_spawn.

(** The same family, p's wallet carrying DailyLimit 100 and, after it, a
    DailyLimit 5000 that has been switched off. *)
Definition db_switched_off : Db :=
  set_spendRules (λ _,
    [rule "rp" "wp" DAILY_LIMIT (limit_of 100) 1;
     {| r_id := "rq"; r_walletId := "wp"; r_ruleType := DAILY_LIMIT;
        r_parameters := limit_of 5000; r_active := false; r_priority := 1 |}])
    db_family.

Definition ov_ratio : SpawnGovernor.Overrides :=
  {| SpawnGovernor.o_dailyLimit := None; SpawnGovernor.o_maxSpendPerTx := None;
     SpawnGovernor.o_vendorAllowlist := None;
     SpawnGovernor.o_daily_limit_ratio := Some (1 # 2) |}.

(** Overrides with a negative limit and a negative ratio. *)
Definition ov_negative : SpawnGovernor.Overrides :=
  {| SpawnGovernor.o_dailyLimit := Some (-1000)%Q;
     SpawnGovernor.o_maxSpendPerTx := None;
     SpawnGovernor.o_vendorAllowlist := None;
     SpawnGovernor.o_daily_limit_ratio := Some (-5)%Q |}.

(** The override [dailyLimit = 100] alone. *)
Definition ov_100 : SpawnGovernor.Overrides :=
  {| SpawnGovernor.o_dailyLimit := Some 100%Q; SpawnGovernor.o_maxSpendPerTx := None;
     SpawnGovernor.o_vendorAllowlist := None;
     SpawnGovernor.o_daily_limit_ratio := None |}.

(** An override that names a vendor. *)
Definition ov_vendor : SpawnGovernor.Overrides :=
  {| SpawnGovernor.o_dailyLimit := None; SpawnGovernor.o_maxSpendPerTx := None;
     SpawnGovernor.o_vendorAllowlist := Some ["vendor.example"];
     SpawnGovernor.o_daily_limit_ratio := None |}.

(** A lineage of three generations: root, child, grand. *)
Definition lineage (id : string) (parent : option string) (depth : Z)
    (children : list string) : AgentLineage :=
  {| l_agentId := id; l_parentId := parent; l_rootId := "root";
     l_depth := depth; l_childrenIds := children; l_status := L_active;
     l_spawnPolicy := None |}.

Definition db_tree : Db :=
  set_lineages (λ _, [lineage "root" None 0 ["child"];
                      lineage "child" (Some "root") 1 ["grand"];
                      lineage "grand" (Some "child") 2 []])
    (set_agents (λ _, [agent "root"; agent "child"; agent "grand"]) empty_db).

(** The same lineage, root carrying a dead-man config that cascades. *)
Definition db_tree_dms : Db :=
  set_dmsConfigs (λ _, [dms_config "root" alert]) db_tree.

Definition after_freeze : DeadManSwitch.State * Db :=
  DeadManSwitch._trigger DeadManSwitch.initial db_tree "root" T_heartbeat freeze
    (D_heartbeat 200 180) (Some (dms_config "root" alert)).

(** Policies of source a: towards b exactly, towards the group "partners"
    (which holds c), and towards anyone. *)
Definition cross_policy (id : string) (target group : option string) : CrossAgentPolicy :=
  {| cp_id := id; cp_ownerId := "o1"; cp_sourceAgentId := "a";
     cp_targetAgentId := target; cp_targetAgentGroup := group;
     maxPerTransaction := 100; maxDailyToTarget := 1000;
     maxDailyAllAgents := 5000; requireHumanApprovalAbove := 500;
     allowedPaymentTypes := ["compute"; "data"; "api_call"; "service"];
     requireMutualPolicy := false; settlementMode := immediate;
     minCounterpartyTrustScore := 0; cp_enabled := true |}.

Definition db_cross : Db :=
  set_groups (λ _, [{| g_ownerId := "o1"; g_name := "partners";
                       g_agentIds := ["c"; "e"] |}])
    (set_policies (λ _, [cross_policy "any" None None;
                         cross_policy "grp" None (Some "partners");
                         cross_policy "a-b" (Some "b") None]) empty_db).

(** The same policies, the exact one capped at 20 per transaction. *)
Definition capped (cap : Q) (p : CrossAgentPolicy) : CrossAgentPolicy :=
  {| cp_id := cp_id p; cp_ownerId := cp_ownerId p;
     cp_sourceAgentId := cp_sourceAgentId p;
     cp_targetAgentId := cp_targetAgentId p;
     cp_targetAgentGroup := cp_targetAgentGroup p;
     maxPerTransaction := cap; maxDailyToTarget := maxDailyToTarget p;
     maxDailyAllAgents := maxDailyAllAgents p;
     requireHumanApprovalAbove := requireHumanApprovalAbove p;
     allowedPaymentTypes := allowedPaymentTypes p;
     requireMutualPolicy := requireMutualPolicy p;
     settlementMode := settlementMode p;
     minCounterpartyTrustScore := minCounterpartyTrustScore p;
     cp_enabled := cp_enabled p |}.

Definition db_cross_capped : Db :=
  set_policies (λ _, [cross_policy "any" None None;
                      cross_policy "grp" None (Some "partners");
                      capped 20 (cross_policy "a-b" (Some "b") None)]) db_cross.

Definition pay (source target : string) (amt : Q) : CrossAgentGovernor.Request :=
  {| CrossAgentGovernor.sourceAgentId := source;
     CrossAgentGovernor.targetAgentId := target;
     CrossAgentGovernor.amount := amt;
     CrossAgentGovernor.paymentType := "compute" |}.

(** The payment of 10 from z to b, which no policy covers, held for a
    human as row 0. *)
Definition db_held : Db :=
  (CrossAgentGovernor.authorizeTransaction clk0 db_cross (pay "z" "b" 10)).1.

(** A policy of a towards b that asks for a trust score of one half. *)
Definition trusting_policy : CrossAgentPolicy :=
  {| cp_id := "a-b"; cp_ownerId := "o1"; cp_sourceAgentId := "a";
     cp_targetAgentId := Some "b"; cp_targetAgentGroup := None;
     maxPerTransaction := 100; maxDailyToTarget := 1000;
     maxDailyAllAgents := 5000; requireHumanApprovalAbove := 500;
     allowedPaymentTypes := ["compute"; "data"; "api_call"; "service"];
     requireMutualPolicy := false; settlementMode := immediate;
     minCounterpartyTrustScore := 1 # 2; cp_enabled := true |}.

Definition db_trust : Db := set_policies (λ _, [trusting_policy]) empty_db.

End Scenario.

(** * Properties *)

(** ** Store lemmas *)

Section store_lemmas.
Context {A : Type} (P : A → Prop) `{∀ x, Decision (P x)}.

Lemma findFirst_cons x l :
  findFirst P (x :: l) = if decide (P x) then Some x else findFirst P l.
Proof.
  unfold findFirst. simpl. destruct (decide (P x)); [done|].
  destruct (list_find P l) as [[i y]|]; done.
Qed.

Lemma findFirst_Some l x : findFirst P l = Some x → x ∈ l ∧ P x.
Proof.
  induction l as [|y l IH]; [done|]. rewrite findFirst_cons.
  destruct (decide (P y)).
  - intros [= ->]. split; [left | done].
  - intros Hf. destruct (IH Hf). split; [by right | done].
Qed.

Lemma findFirst_None l : findFirst P l = None → Forall (λ x, ¬ P x) l.
Proof.
  induction l as [|y l IH]; [constructor|].
  rewrite findFirst_cons. destruct (decide (P y)); [done|].
  intros Hn. constructor; auto.
Qed.

Lemma findFirst_updateMany (f : A → A) l :
  (∀ x, P x → P (f x)) →
  findFirst P (updateMany P f l) = f <$> findFirst P l.
Proof.
  intros Hf. induction l as [|y l IH]; [done|].
  unfold updateMany in *. rewrite fmap_cons, !findFirst_cons.
  destruct (decide (P y)) as [Hy|Hy].
  - rewrite decide_True by auto. done.
  - rewrite decide_False by done. exact IH.
Qed.
End store_lemmas.

Lemma alter_last {A} (f : A → A) (l : list A) (x : A) :
  alter f (length l) (l ++ [x]) = l ++ [f x].
Proof. induction l as [|y l IH]; simpl; [done|]. by f_equal. Qed.

Lemma lookup_last {A} (l : list A) (x : A) : (l ++ [x]) !! length l = Some x.
Proof. by rewrite list_lookup_middle. Qed.

Lemma sumQ_app l1 l2 : (sumQ (l1 ++ l2) == sumQ l1 + sumQ l2)%Q.
Proof.
  unfold sumQ. induction l1 as [|x l1 IH]; simpl; [lra|].
  rewrite IH. lra.
Qed.

Lemma gt_nan_spec a b : gt_nan a b = true ↔ ∃ th, b = Some th ∧ (th < a)%Q.
Proof.
  unfold gt_nan. destruct b as [th|].
  - rewrite bool_decide_eq_true. split.
    + intros Hlt. by exists th.
    + by intros (? & [= <-] & Hlt).
  - split; [done | by intros (? & ? & _)].
Qed.

(** ** Rounding to a double

    Rounding is monotone and keeps the sign; this is all the statements
    below need of it. *)

Lemma rne_bounds q : (Qfloor q ≤ rne q ≤ Qfloor q + 1)%Z.
Proof. unfold rne. repeat case_decide; try destruct (Z.even _); lia. Qed.

Lemma rne_mono x y : (x <= y)%Q → (rne x ≤ rne y)%Z.
Proof.
  intros Hxy. pose proof (Qfloor_resp_le x y Hxy) as Hf.
  destruct (decide (Qfloor x = Qfloor y)) as [Heq|Hne].
  - unfold rne. rewrite Heq.
    repeat case_decide; try destruct (Z.even _); try lia; lra.
  - pose proof (rne_bounds x). pose proof (rne_bounds y). lia.
Qed.

Lemma rne_inject_Z z : rne (inject_Z z) = z.
Proof.
  unfold rne. rewrite Qfloor_Z. rewrite decide_True; [done|]. lra.
Qed.

Lemma pow2_pos e : (0 < 2 ^ e)%Q.
Proof. by apply Qpower_0_lt. Qed.

Lemma pow2_le e1 e2 : (e1 ≤ e2)%Z → (2 ^ e1 <= 2 ^ e2)%Q.
Proof. intros. apply Qpower_le_compat_l; [done|]. lra. Qed.

Lemma pow2_succ e : (2 ^ (e + 1) == 2 * 2 ^ e)%Q.
Proof. rewrite Qpower_plus by lra. simpl. lra. Qed.

Lemma ilog2_spec q : (0 < q)%Q → (2 ^ ilog2 q <= q ∧ q < 2 ^ (ilog2 q + 1))%Q.
Proof.
  intros Hq. destruct q as [n m]. unfold ilog2. simpl Qnum. simpl Qden.
  assert (0 < n)%Z as Hn by (unfold Qlt in Hq; simpl in Hq; lia).
  set (ln := Z.log2 n). set (lm := Z.log2 (Z.pos m)).
  destruct (Z.log2_spec n Hn) as [Hn1 Hn2]. fold ln in Hn1, Hn2.
  destruct (Z.log2_spec (Z.pos m) eq_refl) as [Hm1 Hm2]. fold lm in Hm1, Hm2.
  assert (0 ≤ ln)%Z as Hln by apply Z.log2_nonneg.
  assert (0 ≤ lm)%Z as Hlm by apply Z.log2_nonneg.
  assert (Hqm : ((n # m) * inject_Z (Z.pos m) == inject_Z n)%Q).
  { unfold Qeq, inject_Z. simpl. lia. }
  assert (HA : (inject_Z n < 2 ^ (ln + 1))%Q).
  { rewrite <- (Zpower_Qpower 2) by lia. rewrite <- Zlt_Qlt. lia. }
  assert (HA' : (2 ^ ln <= inject_Z n)%Q).
  { rewrite <- (Zpower_Qpower 2) by lia. rewrite <- Zle_Qle. lia. }
  assert (HB : (2 ^ lm <= inject_Z (Z.pos m))%Q).
  { rewrite <- (Zpower_Qpower 2) by lia. rewrite <- Zle_Qle. lia. }
  assert (HB' : (inject_Z (Z.pos m) < 2 ^ (lm + 1))%Q).
  { rewrite <- (Zpower_Qpower 2) by lia. rewrite <- Zlt_Qlt. lia. }
  pose proof (pow2_pos lm) as Hplm. pose proof (pow2_pos (lm + 1)) as Hplm1.
  assert (Hup : ((n # m) < 2 ^ (ln - lm + 1))%Q).
  { replace (ln - lm + 1)%Z with ((ln + 1) + - lm)%Z by lia.
    rewrite Qpower_plus, Qpower_opp by lra.
    apply Qlt_shift_div_l; [done|].
    apply Qle_lt_trans with ((n # m) * inject_Z (Z.pos m))%Q; [|by rewrite Hqm].
    apply Qmult_le_l; [done|]. done. }
  assert (Hlow : (2 ^ (ln - lm - 1) <= (n # m))%Q).
  { replace (ln - lm - 1)%Z with (ln + - (lm + 1))%Z by lia.
    rewrite Qpower_plus, Qpower_opp by lra.
    apply Qle_shift_div_r; [done|].
    apply Qle_trans with ((n # m) * inject_Z (Z.pos m))%Q.
    - by rewrite Hqm.
    - apply Qmult_le_l; [done|]. lra. }
  case_decide as Hd.
  - split; [done|]. done.
  - split; [done|]. replace (ln - lm - 1 + 1)%Z with (ln - lm)%Z by lia. lra.
Qed.

Lemma ilog2_mono x y : (0 < x)%Q → (x <= y)%Q → (ilog2 x ≤ ilog2 y)%Z.
Proof.
  intros Hx Hxy.
  destruct (ilog2_spec x Hx) as [Hx1 _].
  destruct (ilog2_spec y) as [_ Hy2]; [lra|].
  destruct (Z.le_gt_cases (ilog2 x) (ilog2 y)) as [|Hgt]; [done|exfalso].
  pose proof (pow2_le (ilog2 y + 1) (ilog2 x) ltac:(lia)). lra.
Qed.

Lemma double_pos_eq q :
  (double_pos q
   == inject_Z (rne (q / 2 ^ (Z.max (ilog2 q) (-1022) - 52)))
      * 2 ^ (Z.max (ilog2 q) (-1022) - 52))%Q.
Proof. unfold double_pos. apply Qred_correct. Qed.

Lemma double_pos_nonneg q : (0 <= q)%Q → (0 <= double_pos q)%Q.
Proof.
  intros Hq. rewrite double_pos_eq.
  set (u := (2 ^ _)%Q). assert (0 < u)%Q as Hu by apply pow2_pos.
  apply Qmult_le_0_compat; [|lra].
  change 0%Q with (inject_Z 0). rewrite <- Zle_Qle.
  rewrite <- (rne_inject_Z 0) at 1. apply rne_mono.
  apply Qle_shift_div_l; [done|]. change (inject_Z 0) with 0%Q. lra.
Qed.

Lemma double_pos_mono x y : (0 < x)%Q → (x <= y)%Q → (double_pos x <= double_pos y)%Q.
Proof.
  intros Hx Hxy. assert (0 < y)%Q as Hy by lra.
  rewrite !double_pos_eq.
  pose proof (ilog2_mono x y Hx Hxy) as He.
  set (ex := Z.max (ilog2 x) (-1022)). set (ey := Z.max (ilog2 y) (-1022)).
  destruct (decide (ex = ey)) as [Heq|Hne].
  - rewrite Heq. set (u := (2 ^ _)%Q). assert (0 < u)%Q as Hu by apply pow2_pos.
    apply Qmult_le_compat_r; [|lra]. rewrite <- Zle_Qle. apply rne_mono.
    apply Qmult_le_compat_r; [done|]. apply Qlt_le_weak, Qinv_lt_0_compat, Hu.
  - assert (ex < ey)%Z as Hlt by lia.
    assert (ey = ilog2 y) as Hey by lia.
    pose proof (pow2_pos (ex - 52)) as Hux. pose proof (pow2_pos (ey - 52)) as Huy.
    destruct (ilog2_spec x Hx) as [_ Hx2]. destruct (ilog2_spec y Hy) as [Hy1 _].
    apply Qle_trans with (2 ^ (ex + 1))%Q.
    + assert (x < 2 ^ (ex + 1))%Q as Hxb.
      { eapply Qlt_le_trans; [exact Hx2|]. apply pow2_le. lia. }
      assert (2 ^ (ex + 1) == inject_Z (2 ^ 53) * 2 ^ (ex - 52))%Q as ->.
      { replace (ex + 1)%Z with (53 + (ex - 52))%Z by lia.
        rewrite Qpower_plus by lra. reflexivity. }
      apply Qmult_le_compat_r; [|lra]. rewrite <- Zle_Qle.
      rewrite <- (rne_inject_Z (2 ^ 53)). apply rne_mono.
      apply Qle_shift_div_r; [done|].
      replace (2 ^ 53)%Z with (2 ^ 53)%Z by done.
      assert (inject_Z (2 ^ 53) * 2 ^ (ex - 52) == 2 ^ (ex + 1))%Q as ->; [|lra].
      replace (ex + 1)%Z with (53 + (ex - 52))%Z by lia.
      rewrite Qpower_plus by lra. reflexivity.
    + apply Qle_trans with (2 ^ ey)%Q; [apply pow2_le; lia|].
      assert (2 ^ ey == inject_Z (2 ^ 52) * 2 ^ (ey - 52))%Q as Hp.
      { replace ey with (52 + (ey - 52))%Z at 1 by lia.
        rewrite Qpower_plus by lra. reflexivity. }
      rewrite Hp. apply Qmult_le_compat_r; [|lra]. rewrite <- Zle_Qle.
      rewrite <- (rne_inject_Z (2 ^ 52)) at 1. apply rne_mono.
      apply Qle_shift_div_l; [done|]. rewrite <- Hp. rewrite Hey. done.
Qed.

Lemma double_nonneg q : (0 <= q)%Q → (0 <= double q)%Q.
Proof.
  intros Hq. unfold double. case_decide; [apply double_pos_nonneg; lra|].
  case_decide; lra.
Qed.

Lemma double_nonpos q : (q <= 0)%Q → (double q <= 0)%Q.
Proof.
  intros Hq. unfold double. case_decide; [lra|]. case_decide; [|lra].
  pose proof (double_pos_nonneg (- q)). lra.
Qed.

Lemma double_mono x y : (x <= y)%Q → (double x <= double y)%Q.
Proof.
  intros Hxy. destruct (Qlt_le_dec 0 x) as [Hx|Hx].
  - unfold double. rewrite !decide_True by lra. by apply double_pos_mono.
  - destruct (Qlt_le_dec y 0) as [Hy|Hy].
    + unfold double. rewrite !(decide_False (P := (0 < _)%Q)) by lra.
      rewrite !decide_True by lra.
      pose proof (double_pos_mono (- y) (- x)). lra.
    + pose proof (double_nonpos x Hx). pose proof (double_nonneg y Hy). lra.
Qed.

Global Instance double_proper : Proper (Qeq ==> Qeq) double.
Proof.
  intros x y Hxy. apply Qle_antisym; apply double_mono; lra.
Qed.

Lemma double_pos_inv q : (0 < double q)%Q → (0 < q)%Q.
Proof.
  intros Hd. destruct (Qlt_le_dec 0 q) as [|Hq]; [done|].
  pose proof (double_nonpos q Hq). lra.
Qed.

Lemma rne_proper x y : (x == y)%Q → rne x = rne y.
Proof.
  intros Hxy. apply Z.le_antisymm; apply rne_mono; lra.
Qed.

Lemma pow2_lt e1 e2 : (e1 < e2)%Z → (2 ^ e1 < 2 ^ e2)%Q.
Proof. intros. apply Qpower_lt_compat_l; [done|]. lra. Qed.

Lemma ilog2_unique q e : (2 ^ e <= q)%Q → (q < 2 ^ (e + 1))%Q → ilog2 q = e.
Proof.
  intros H1 H2. pose proof (pow2_pos e) as Hp.
  destruct (ilog2_spec q) as [H3 H4]; [lra|].
  destruct (Z.lt_trichotomy (ilog2 q) e) as [Hlt|[Heq|Hgt]]; [exfalso|done|exfalso].
  - pose proof (pow2_le (ilog2 q + 1) e ltac:(lia)). lra.
  - pose proof (pow2_le (e + 1) (ilog2 q) ltac:(lia)). lra.
Qed.

Lemma rne_range q a b :
  (inject_Z a <= q)%Q → (q <= inject_Z b)%Q → (a ≤ rne q ≤ b)%Z.
Proof.
  intros Ha Hb. split.
  - rewrite <- (rne_inject_Z a). by apply rne_mono.
  - rewrite <- (rne_inject_Z b). by apply rne_mono.
Qed.

(** A number with a significand of at most 53 bits on the grid of its
    exponent is a double. *)
Lemma double_pos_exact n e :
  (0 < n ≤ 2 ^ 53)%Z → (-1022 ≤ e)%Z →
  (n < 2 ^ 52 → e = -1022)%Z →
  (double_pos (inject_Z n * 2 ^ (e - 52)) == inject_Z n * 2 ^ (e - 52))%Q.
Proof.
  intros [Hn0 Hn1] He Hsub. pose proof (pow2_pos (e - 52)) as Hu.
  set (d := (inject_Z n * 2 ^ (e - 52))%Q).
  assert (Hgrid : ∀ k, (2 ^ k == inject_Z (2 ^ 52) * 2 ^ (k - 52))%Q).
  { intros k. replace k with (52 + (k - 52))%Z at 1 by lia.
    rewrite Qpower_plus by lra. reflexivity. }
  assert (Hgrid' : ∀ k, (2 ^ (k + 1) == inject_Z (2 ^ 53) * 2 ^ (k - 52))%Q).
  { intros k. replace (k + 1)%Z with (53 + (k - 52))%Z by lia.
    rewrite Qpower_plus by lra. reflexivity. }
  assert (0 < inject_Z n)%Q as Hnq.
  { change 0%Q with (inject_Z 0). by rewrite <- Zlt_Qlt. }
  assert (0 < d)%Q as Hd by (subst d; apply Qmult_lt_0_compat; lra).
  destruct (decide (n = 2 ^ 53)%Z) as [->|Hne].
  - assert (d == 2 ^ (e + 1))%Q as Hd2 by (subst d; by rewrite Hgrid').
    rewrite double_pos_eq.
    rewrite (ilog2_unique d (e + 1)).
    2:{ rewrite Hd2. lra. }
    2:{ rewrite Hd2. apply pow2_lt. lia. }
    rewrite Z.max_l by lia.
    assert (d / 2 ^ (e + 1 - 52) == inject_Z (2 ^ 52))%Q as Hq.
    { rewrite Hd2. rewrite (Hgrid (e + 1)%Z). field.
      pose proof (pow2_pos (e + 1 - 52)). lra. }
    rewrite (rne_proper _ _ Hq), rne_inject_Z. rewrite <- Hgrid. by rewrite Hd2.
  - rewrite double_pos_eq.
    assert (Z.max (ilog2 d) (-1022) = e) as ->.
    { destruct (decide (n < 2 ^ 52)%Z) as [Hsmall|Hbig].
      - rewrite (Hsub Hsmall). apply Z.max_r.
        destruct (ilog2_spec d Hd) as [Hl _].
        destruct (Z.le_gt_cases (ilog2 d) (-1022)) as [|Hgt]; [done|exfalso].
        pose proof (pow2_le (-1022 + 1) (ilog2 d) ltac:(lia)) as Hp.
        assert (d < 2 ^ (-1022 + 1))%Q; [|lra].
        subst d. rewrite (Hsub Hsmall). rewrite (Hgrid' (-1022)%Z).
        apply Qmult_lt_compat_r; [by rewrite <- (Hsub Hsmall)|].
        rewrite <- Zlt_Qlt. lia.
      - rewrite (ilog2_unique d e); [lia| |].
        + subst d. rewrite (Hgrid e). apply Qmult_le_compat_r; [|lra].
          rewrite <- Zle_Qle. lia.
        + subst d. rewrite (Hgrid' e). apply Qmult_lt_compat_r; [done|].
          rewrite <- Zlt_Qlt. lia. }
    assert (d / 2 ^ (e - 52) == inject_Z n)%Q as Hq by (subst d; field; lra).
    by rewrite (rne_proper _ _ Hq), rne_inject_Z.
Qed.

Lemma double_pos_grid x :
  (0 < x)%Q →
  ∃ n e, (double_pos x == inject_Z n * 2 ^ (e - 52))%Q
         ∧ (0 ≤ n ≤ 2 ^ 53)%Z ∧ (-1022 ≤ e)%Z ∧ (n < 2 ^ 52 → e = -1022)%Z.
Proof.
  intros Hx. set (e := Z.max (ilog2 x) (-1022)).
  pose proof (pow2_pos (e - 52)) as Hu.
  exists (rne (x / 2 ^ (e - 52))), e. split; [apply double_pos_eq|].
  destruct (ilog2_spec x Hx) as [Hl Hh].
  assert (Hgrid : ∀ k, (2 ^ k == inject_Z (2 ^ 52) * 2 ^ (k - 52))%Q).
  { intros k. replace k with (52 + (k - 52))%Z at 1 by lia.
    rewrite Qpower_plus by lra. reflexivity. }
  assert (Hgrid' : ∀ k, (2 ^ (k + 1) == inject_Z (2 ^ 53) * 2 ^ (k - 52))%Q).
  { intros k. replace (k + 1)%Z with (53 + (k - 52))%Z by lia.
    rewrite Qpower_plus by lra. reflexivity. }
  assert (x / 2 ^ (e - 52) <= inject_Z (2 ^ 53))%Q as Hup.
  { apply Qle_shift_div_r; [done|]. rewrite <- Hgrid'.
    pose proof (pow2_le (ilog2 x + 1) (e + 1) ltac:(lia)). lra. }
  assert (inject_Z 0 <= x / 2 ^ (e - 52))%Q as Hlow.
  { apply Qle_shift_div_l; [done|]. change (inject_Z 0) with 0%Q. lra. }
  destruct (rne_range _ 0 (2 ^ 53) Hlow Hup) as [H0 H1].
  split; [lia|]. split; [lia|]. intros Hsmall.
  destruct (decide (e = -1022)%Z) as [|Hne]; [done|exfalso].
  assert (e = ilog2 x) as Heq by lia.
  assert (inject_Z (2 ^ 52) <= x / 2 ^ (e - 52))%Q as Hge.
  { apply Qle_shift_div_l; [done|]. rewrite <- Hgrid. by rewrite Heq. }
  destruct (rne_range _ (2 ^ 52) (2 ^ 53) Hge Hup). lia.
Qed.

(** Rounding a double gives it back. *)
Lemma double_idem q : (double (double q) == double q)%Q.
Proof.
  assert (Hpos : ∀ x, (0 < x)%Q → (double (double_pos x) == double_pos x)%Q).
  { intros x Hx. destruct (double_pos_grid x Hx) as (n & e & Hd & Hn & He & Hsub).
    rewrite Hd. destruct (decide (n = 0%Z)) as [->|Hn0].
    - rewrite Qmult_0_l. reflexivity.
    - pose proof (pow2_pos (e - 52)).
      assert (0 < inject_Z n)%Q.
      { change 0%Q with (inject_Z 0). rewrite <- Zlt_Qlt. lia. }
      unfold double at 1. rewrite decide_True by (apply Qmult_lt_0_compat; lra).
      apply double_pos_exact; [lia|done..]. }
  assert (Hpp : ∀ a b, (0 < a)%Q → (a == b)%Q → (double_pos a == double_pos b)%Q).
  { intros a b Ha Hab. pose proof (double_proper a b Hab) as Hp.
    unfold double in Hp. by rewrite !decide_True in Hp by lra. }
  destruct (Qlt_le_dec 0 q) as [H1|H1].
  { assert (double q = double_pos q) as -> by (unfold double; by rewrite decide_True).
    by apply Hpos. }
  destruct (Qlt_le_dec q 0) as [H2|H2].
  2:{ assert (double q = 0%Q) as ->; [|reflexivity].
      unfold double. rewrite !decide_False by lra. done. }
  assert (double q = (- double_pos (- q))%Q) as ->.
  { unfold double. rewrite decide_False by lra. by rewrite decide_True. }
  assert (0 < - q)%Q as Hq by lra. specialize (Hpos _ Hq).
  pose proof (double_pos_nonneg (- q) ltac:(lra)) as Hnn.
  destruct (Qeq_dec (double_pos (- q)) 0) as [Hz|Hnz].
  - rewrite Hz. reflexivity.
  - unfold double in *. rewrite decide_True in Hpos by lra.
    rewrite decide_False by lra. rewrite decide_True by lra.
    rewrite <- Hpos at 2. apply Qopp_comp. apply Hpp; lra.
Qed.

Lemma Qdiv_pos_inv n p : (0 < p)%Q → (0 < n / p)%Q → (0 < n)%Q.
Proof.
  intros Hp Hq. destruct (Qlt_le_dec 0 n) as [|Hn]; [done|exfalso].
  apply (Qlt_not_le _ _ Hq). unfold Qdiv.
  assert (0 <= / p)%Q by (apply Qlt_le_weak, Qinv_lt_0_compat, Hp). nra.
Qed.

Lemma js_div_pos_inv a b : (0 < js_div a b)%Q → (0 < double a / double b)%Q.
Proof. unfold js_div. apply double_pos_inv. Qed.

Lemma js_sub_pos_inv a b : (0 < js_sub a b)%Q → (double b < double a)%Q.
Proof.
  unfold js_sub. intros H%double_pos_inv. revert H.
  generalize (double a) (double b). intros x y H. lra.
Qed.

Lemma js_add_mono a a' b b' :
  (a <= a')%Q → (b <= b')%Q → (js_add a b <= js_add a' b')%Q.
Proof.
  intros Ha Hb. unfold js_add. apply double_mono.
  pose proof (double_mono a a' Ha). pose proof (double_mono b b' Hb). lra.
Qed.

(** Adding an amount that is not positive does not raise a number. *)
Lemma js_add_nonpos a b : (b <= 0)%Q → (js_add a b <= double a)%Q.
Proof.
  intros Hb. unfold js_add. rewrite <- (double_idem a) at 2.
  apply double_mono. pose proof (double_nonpos b Hb). lra.
Qed.

(** ** The kill-switch gate *)

Section gate.
Import RulesEngine.

Lemma findWallet_set_wallets_update d id f :
  (∀ w, w_id (f w) = w_id w) →
  findWallet (set_wallets (updateMany (λ w, w_id w = id) f) d) id
  = f <$> findWallet d id.
Proof.
  intros Hid. unfold findWallet. simpl.
  apply (findFirst_updateMany (λ w, w_id w = id)). intros w. by rewrite Hid.
Qed.

Lemma updateWallet_Some d id f w :
  (∀ w, w_id (f w) = w_id w) →
  findWallet d id = Some w →
  ∃ d', updateWallet id f d = Some d'
        ∧ d' = set_wallets (updateMany (λ w, w_id w = id) f) d
        ∧ findWallet d' id = Some (f w).
Proof.
  intros Hid Hw. unfold updateWallet. rewrite Hw. simpl. eexists; split; [done|].
  split; [done|]. by rewrite findWallet_set_wallets_update, Hw.
Qed.

(** Once the wallet exists, no kill-switch condition throws. *)
Lemma evaluateKillSwitchCondition_total clk d ks walletId w :
  findWallet d walletId = Some w →
  is_Some (evaluateKillSwitchCondition clk d ks walletId).
Proof.
  intros Hw. unfold evaluateKillSwitchCondition.
  destruct (ks_triggerType ks); try done.
  case_decide; [done|]. rewrite Hw. done.
Qed.

Lemma gate_frame_refl walletId w d :
  findWallet d walletId = Some w → gate_frame walletId w d d.
Proof. intros Hw. split; eauto. Qed.

Lemma checkKillSwitch_loop_spec clk d walletId w kss :
  findWallet d walletId = Some w →
  ∃ d1 st, checkKillSwitch_loop clk d walletId kss = Some (d1, st)
           ∧ gate_frame walletId w d d1
           ∧ (st = None → d1 = d).
Proof.
  intros Hw. induction kss as [|ks kss IH]; simpl.
  - exists d, None. eauto using gate_frame_refl.
  - destruct (latched ks).
    + eexists d, (Some _). split; [done|].
      split; [by apply gate_frame_refl | done].
    + destruct (evaluateKillSwitchCondition_total clk d ks walletId w Hw) as [c ->].
      simpl. destruct (trigger c); [|exact IH].
      set (d1 := set_killSwitches _ d).
      assert (Hw1 : findWallet d1 walletId = Some w) by done.
      destruct (updateWallet_Some d1 walletId (with_status W_KILL_SWITCHED) w)
        as (d2 & -> & Hd2 & Hw2); [done..|].
      simpl. rewrite Hw2. simpl.
      eexists _, (Some _). split; [done|]. split; [|done].
      split; simpl; try (subst d2; done).
      * exists (with_status W_KILL_SWITCHED w). done.
      * right. subst d2. simpl. by eexists.
Qed.

(** A gate that lets the request through has written nothing. *)
Lemma checkKillSwitch_loop_pass clk d walletId kss d1 :
  checkKillSwitch_loop clk d walletId kss = Some (d1, None) → d1 = d.
Proof.
  induction kss as [|ks kss IH]; simpl; [by intros [= ->]|].
  destruct (latched ks); [done|].
  destruct (evaluateKillSwitchCondition clk d ks walletId) as [c|]; [|done].
  simpl. destruct (trigger c); [|exact IH].
  destruct (updateWallet _ _ _) as [d2|]; [|done]. simpl.
  destruct (findWallet d2 walletId); done.
Qed.

(** The evaluation returns for every existing wallet, and an approving
    evaluation has written nothing. *)
Lemma evaluateTransaction_spec clk d walletId w cand :
  findWallet d walletId = Some w →
  ∃ d1 ev, evaluateTransaction clk d walletId cand = Some (d1, ev)
           ∧ gate_frame walletId w d d1
           ∧ (approved ev = true → d1 = d ∧ killSwitched ev = false).
Proof.
  intros Hw. unfold evaluateTransaction, checkKillSwitch.
  destruct (checkKillSwitch_loop_spec clk d walletId w
              (filter (λ ks, ks_walletId ks = walletId ∧ ks_active ks)
                      (killSwitches d)) Hw)
    as (d1 & st & -> & Hfr & Hst).
  simpl. destruct st as [st|].
  - eexists _, _. split; [done|]. split; [done|]. simpl. done.
  - eexists _, _. split; [done|]. split; [done|]. simpl. auto.
Qed.
End gate.

(** ** Admission *)

Section admission.
Import RulesEngine Transactions Scenario.

Lemma executeTransaction_spec clk d id t w :
  transactions d !! id = Some t →
  findWallet d (tx_walletId t) = Some w →
  ∃ d', executeTransaction clk d id = Some d'
        ∧ transactions d' = alter (complete clk) id (transactions d)
        ∧ findWallet d' (tx_walletId t) = Some (debit (tx_amount t) w)
        ∧ auditLogs d' = auditLogs d.
Proof.
  intros Ht Hw. unfold executeTransaction. rewrite Ht. simpl.
  destruct (updateWallet_Some d (tx_walletId t) (debit (tx_amount t)) w)
    as (d1 & -> & -> & Hw1); [done..|].
  simpl. eexists. split; [done|]. split; [done|]. split; [exact Hw1 | done].
Qed.

(** C1.  An admission whose preconditions hold returns, and persists
    exactly one transaction [t] for the wallet and the amount.  With [ev]
    the verdict of the rules engine: if [ev] is not approved, [t] is
    Rejected; if it is approved and requires approval, [t] is
    AwaitingApproval; in both cases the balance is untouched.  Otherwise
    [t] is Completed with [completedAt] set to the current instant and
    the balance of the wallet is the old balance minus the amount. *)
Theorem admission_final_status auth clk d body id amt wallet :
  admissible auth d body id amt wallet →
  ∃ d1 ev d' resp t,
    evaluateTransaction clk d id (candidateOf amt body) = Some (d1, ev)
    ∧ post auth clk d body = Some (d', resp)
    ∧ transactions d' = transactions d ++ [t]
    ∧ tx_walletId t = id ∧ tx_amount t = amt
    ∧ (approved ev = false →
         tx_status t = REJECTED ∧ tx_completedAt t = None
         ∧ w_balance <$> findWallet d' id = Some (w_balance wallet))
    ∧ (approved ev = true → requiresApproval ev = true →
         tx_status t = AWAITING_APPROVAL ∧ tx_completedAt t = None
         ∧ w_balance <$> findWallet d' id = Some (w_balance wallet))
    ∧ (approved ev = true → requiresApproval ev = false →
         tx_status t = COMPLETED ∧ tx_completedAt t = Some (now clk)
         ∧ w_balance <$> findWallet d' id = Some (w_balance wallet - amt)%Q).
Proof.
  intros [Hid Hne Hamt Hw Hacc Hact Hpos Hcov].
  destruct (evaluateTransaction_spec clk d id wallet (candidateOf amt body) Hw)
    as (d1 & ev & Hev & [Htx _ _ (w1 & Hw1 & Hbal & _) _] & Happ).
  exists d1, ev. unfold post. rewrite Hid, Hamt.
  assert (truthy (Some id) = true) as ->.
  { simpl. apply negb_true_iff, String.eqb_neq, Hne. }
  rewrite (bool_decide_eq_false_2 (amt == 0)%Q) by lra.
  rewrite (bool_decide_eq_false_2 (amt <= 0)%Q) by lra.
  simpl. rewrite Hw, Hacc, Hact. simpl.
  rewrite (bool_decide_eq_false_2 (w_balance wallet < amt)%Q) by lra.
  simpl. fold (candidateOf amt body). rewrite Hev. simpl.
  destruct (approved ev) eqn:Ha; simpl.
  - destruct (Happ eq_refl) as [-> _].
    destruct (requiresApproval ev) eqn:Hr; simpl.
    + eexists _, _, _. split; [done|]. split; [done|]. simpl.
      split; [done|]. split; [done|]. split; [done|].
      split; [intros [=]|]. split; [|intros _ [=]].
      intros _ _. unfold findWallet in *. simpl. by rewrite Hw.
    + set (t := {| tx_walletId := id |}).
      set (d2 := set_transactions (create t) d).
      destruct (executeTransaction_spec clk d2 (length (transactions d)) t wallet)
        as (d3 & -> & Htx3 & Hw3 & _).
      { subst d2. simpl. unfold create. apply lookup_last. }
      { done. }
      simpl. eexists _, _, (complete clk t). split; [done|]. split; [done|].
      split.
      { rewrite Htx3. subst d2. simpl. unfold create. apply alter_last. }
      split; [done|]. split; [done|].
      split; [intros [=]|]. split; [intros _ [=]|].
      intros _ _. simpl in Hw3. by rewrite Hw3.
  - eexists _, _, _. split; [done|]. split; [done|]. simpl. rewrite Htx.
    split; [done|]. split; [done|]. split; [done|].
    split; [|split; intros [=]].
    intros _. unfold findWallet in *. simpl. by rewrite Hw1, <- Hbal.
Qed.

Lemma base_admissible amt :
  (0 < amt)%Q → (amt <= 1000)%Q →
  admissible (AgentKey "a1") db_base (spend amt) "w1" amt w1.
Proof. intros Hpos Hcov. by split. Defined.

(** Agent a1 spends 50 from w1 (balance 1000, approval above 75, at most
    200 per transaction): Completed, and the balance is 1000 - 50. *)
Lemma admission_final_status_witness :
  ∃ d' resp t,
    post (AgentKey "a1") clk0 db_base (spend 50) = Some (d', resp)
    ∧ transactions d' = [t]
    ∧ tx_status t = COMPLETED ∧ tx_completedAt t = Some (now clk0)
    ∧ w_balance <$> findWallet d' "w1" = Some (1000 - 50)%Q.
Proof.
  destruct (admission_final_status (AgentKey "a1") clk0 db_base (spend 50)
              "w1" 50 w1)
    as (d1 & ev & d' & resp & t & Hev & Hpost & Htx & _ & _ & _ & _ & Hc).
  { apply base_admissible; [reflexivity | unfold Qle; simpl; lia]. }
  vm_compute in Hev. injection Hev as _ <-.
  destruct (Hc eq_refl eq_refl) as (Hs & Hat & Hb).
  exists d', resp, t. repeat split; assumption.
Defined.

(** Whatever the request, the route persists at most one transaction, with
    one of the three statuses its selection knows, and the only audit
    entry an admission can add is the one [checkKillSwitch] writes about
    the wallet when a switch fires. *)
Lemma post_outcomes auth clk d body d' resp :
  post auth clk d body = Some (d', resp) →
  (transactions d' = transactions d
   ∨ ∃ t, transactions d' = transactions d ++ [t]
          ∧ tx_status t ∈ [REJECTED; AWAITING_APPROVAL; COMPLETED])
  ∧ (auditLogs d' = auditLogs d
     ∨ ∃ entry, auditLogs d' = auditLogs d ++ [entry]
                ∧ al_action entry = "KILL_SWITCH_TRIGGERED"
                ∧ al_resource entry = "wallet").
Proof.
  unfold post.
  destruct (walletId body) as [id|]; [|by intros [= <- _]; auto].
  destruct (amount body) as [amt|]; [|by intros [= <- _]; auto].
  destruct (_ || _); [by intros [= <- _]; auto|].
  destruct (bool_decide (amt <= 0)%Q); [by intros [= <- _]; auto|].
  destruct (findWallet d id) as [wallet|] eqn:Hw; [|by intros [= <- _]; auto].
  destruct (negb (canAccessAgent _ _ _)); [by intros [= <- _]; auto|].
  destruct (negb (bool_decide _)); [by intros [= <- _]; auto|].
  destruct (bool_decide (_ < _)%Q); [by intros [= <- _]; auto|].
  destruct (evaluateTransaction_spec clk d id wallet
              {| t_amount := amt; t_category := category body;
                 t_recipientId := recipientId body; t_metadata := no_metadata |} Hw)
    as (d1 & ev & -> & [Htx _ _ (w1 & Hw1 & _) Haudit] & _).
  simpl.
  destruct (approved ev); simpl; [destruct (requiresApproval ev); simpl|].
  - intros [= <- _]. simpl. rewrite Htx. split.
    + right. eexists. split; [done|]. simpl. set_unfold. auto.
    + destruct Haudit as [?|(entry & ? & ? & ? & _)]; [by left|].
      right. by exists entry.
  - set (t := {| tx_walletId := id |}).
    set (d2 := set_transactions (create t) d1).
    destruct (executeTransaction_spec clk d2 (length (transactions d1)) t w1)
      as (d3 & Hex & Htx3 & _ & Hal3).
    { subst d2. simpl. unfold create. apply lookup_last. }
    { done. }
    rewrite Hex. simpl. intros [= <- _]. split.
    + right. exists (complete clk t). rewrite Htx3. subst d2. simpl.
      unfold create. rewrite alter_last, Htx. split; [done|].
      simpl. set_unfold. auto.
    + rewrite Hal3. subst d2. simpl.
      destruct Haudit as [?|(entry & ? & ? & ? & _)]; [by left|].
      right. by exists entry.
  - intros [= <- _]. simpl. rewrite Htx. split.
    + right. eexists. split; [done|]. simpl. set_unfold. auto.
    + destruct Haudit as [?|(entry & ? & ? & ? & _)]; [by left|].
      right. by exists entry.
Qed.

(** Scenario 1 and 2 of the specification: 80 awaits approval, 250 is
    rejected, and neither moves the balance. *)
Example approval_threshold_flow :
  snd <$> post (AgentKey "a1") clk0 db_base (spend 80)
  = Some (Accepted 0
            {| approved := true; killSwitched := false; requiresApproval := true;
               results := [ {| rr_ruleId := "r2";
                               rr_ruleType := Some PER_TRANSACTION_LIMIT;
                               rr_passed := true |};
                            {| rr_ruleId := "r1";
                               rr_ruleType := Some REQUIRES_APPROVAL;
                               rr_passed := true |} ];
               evaluatedAt := now clk0 |})
  ∧ (wallets ∘ fst) <$> post (AgentKey "a1") clk0 db_base (spend 80) = Some [w1]
  ∧ (wallets ∘ fst) <$> post (AgentKey "a1") clk0 db_base (spend 250) = Some [w1]
  ∧ (map tx_status ∘ transactions ∘ fst)
      <$> post (AgentKey "a1") clk0 db_base (spend 250) = Some [REJECTED].
Proof. repeat split; vm_compute; reflexivity. Qed.

(** C3, at the failing input.  Wallet w1 is Active and carries an active
    kill switch with [triggered = true] and [resetAt = null].  The
    evaluation reports [killSwitched], yet the route persists the
    transaction as REJECTED: its status selection never reads the flag,
    and no path of the route writes KILL_SWITCHED. *)
Lemma latched_admission_is_persisted_rejected :
  RulesEngine.latched ks_latched = true
  ∧ (killSwitched ∘ snd)
      <$> evaluateTransaction clk0 db_latched "w1" (candidateOf 10 (spend 10))
    = Some true
  ∧ (map tx_status ∘ transactions ∘ fst)
      <$> post (AgentKey "a1") clk0 db_latched (spend 10)
    = Some [REJECTED].
Proof. repeat split; vm_compute; reflexivity. Qed.

(** Scenario 4 of the specification, as the code runs it.  The first
    admission fires the switch: the switch row is latched with the observed
    drawdown (the double nearest to 500/1500), the wallet becomes
    KILL_SWITCHED, one audit
    entry about the wallet is written, and the transaction is persisted as
    REJECTED.  The next admission stops at the wallet status and persists
    nothing. *)
Example kill_switch_latching :
  (map tx_status ∘ transactions) db_fired = [COMPLETED; REJECTED]
  ∧ map (λ k, (latched k, ks_currentValue k)) (killSwitches db_fired)
    = [(true, Some (double (1 # 3)))]
  ∧ map w_status (wallets db_fired) = [W_KILL_SWITCHED]
  ∧ map (λ e, (al_action e, al_resourceId e)) (auditLogs db_fired)
    = [("KILL_SWITCH_TRIGGERED", "w1")]
  ∧ post (AgentKey "a1") clk0 db_fired (spend 10)
    = Some (db_fired, BadRequest "Wallet is not active").
Proof. repeat split; vm_compute; reflexivity. Qed.

(** C4, at the failing input.  Agent a1 has an enabled dead-man config of
    at most 3 transactions a minute and three gated transactions in the
    last three seconds, so the dead-man gate blocks a fourth.  The
    admission route never consults the gate: the same spend, submitted by
    the agent, completes and records no dead-man event. *)
Lemma admission_skips_dead_man_gate :
  (DeadManSwitch.evaluateTransaction clk0 s_busy db_dms "a1" 10
     (Some "vendor.example")).2
  = DeadManSwitch.blocked DeadManSwitch.VelocityLimit
  ∧ (map tx_status ∘ transactions ∘ fst)
      <$> post (AgentKey "a1") clk0 db_dms (spend 10)
    = Some [COMPLETED]
  ∧ (dmsEvents ∘ fst) <$> post (AgentKey "a1") clk0 db_dms (spend 10) = Some [].
Proof. repeat split; vm_compute; reflexivity. Qed.

(** C6, at the failing inputs.  The three admission outcomes on w1
    (50 completes, 80 awaits approval, 250 is rejected) each leave the
    audit log empty: the route never calls [logAudit]. *)
Lemma admission_writes_no_audit_log :
  (map tx_status ∘ transactions ∘ fst) <$>
      post (AgentKey "a1") clk0 db_base (spend 50) = Some [COMPLETED]
  ∧ (auditLogs ∘ fst) <$> post (AgentKey "a1") clk0 db_base (spend 50) = Some []
  ∧ (map tx_status ∘ transactions ∘ fst) <$>
      post (AgentKey "a1") clk0 db_base (spend 80) = Some [AWAITING_APPROVAL]
  ∧ (auditLogs ∘ fst) <$> post (AgentKey "a1") clk0 db_base (spend 80) = Some []
  ∧ (map tx_status ∘ transactions ∘ fst) <$>
      post (AgentKey "a1") clk0 db_base (spend 250) = Some [REJECTED]
  ∧ (auditLogs ∘ fst) <$> post (AgentKey "a1") clk0 db_base (spend 250) = Some [].
Proof. repeat split; vm_compute; reflexivity. Qed.
End admission.

(** ** Spend windows *)

Section spend_windows.
Import RulesEngine Transactions Scenario.

(** The aggregate reads the wallet, the status and the date of a row,
    never its category: what it makes a number of is the sum over the
    counted rows, and appending a row [t] adds [t]'s amount to that sum
    exactly when [t] is a Completed row of the wallet at or after the
    cutoff, a deposit included. *)
Lemma spend_counts_every_completed d walletId since t :
  let total d :=
    sumQ (tx_amount <$> filter (counted walletId since) (transactions d)) in
  getSpendSince d walletId since = double (total d)
  ∧ (total (set_transactions (create t) d)
     == total d + (if decide (counted walletId since t) then tx_amount t else 0))%Q.
Proof.
  split; [done|]. unfold create. simpl.
  rewrite filter_app, fmap_app, sumQ_app.
  rewrite filter_cons, filter_nil.
  destruct (decide _).
  - change (sumQ (tx_amount <$> [t])) with (tx_amount t + 0)%Q. lra.
  - change (sumQ (tx_amount <$> [])) with 0%Q. lra.
Qed.

(** A deposit that succeeds leaves a row the aggregate counts, at every
    cutoff up to the instant of the deposit. *)
Lemma deposit_is_counted auth clk d id amount source d' since :
  deposit auth clk d id (Some amount) source = Some (d', Ok) →
  (since ≤ now clk)%Z →
  ∃ t, transactions d' = transactions d ++ [t]
       ∧ tx_category t = Some "deposit" ∧ tx_amount t = amount
       ∧ counted id since t.
Proof.
  unfold deposit. destruct (_ || _); [done|].
  destruct (findWallet d id) as [wallet|] eqn:Hw; [|done].
  destruct (negb (bool_decide _)); [done|].
  destruct (negb (canAccessAgent _ _ _)); [done|].
  destruct (updateWallet_Some d id (credit amount) wallet) as (d1 & -> & -> & _);
    [done..|].
  simpl. intros [= <-] Hsince. eexists. split; [done|]. by repeat split.
Qed.

(** C2, at the failing input.  Wallet w1 has spent nothing and its only
    rule is DailyLimit 150.  The owner deposits 100: the deposit route
    writes a Completed row of category "deposit", and [getSpendSince], the
    aggregate the engine reports as the wallet's daily spend, counts it
    (100, where the aggregate over non-deposit rows is 0).  A first spend
    of 100 is then rejected by the daily limit, on a projected total of
    200. *)
Lemma deposit_counts_toward_daily_limit :
  deposit (OwnerKey "o1") clk0 db_daily "w1" (Some 100%Q) "manual"
  = Some (db_deposited, Ok)
  ∧ (map tx_category ∘ transactions) db_deposited = [Some "deposit"]
  ∧ (getSpendSince db_deposited "w1" (startOfDay clk0) == 100)%Q
  ∧ (spend_without_deposits db_deposited "w1" (startOfDay clk0) == 0)%Q
  ∧ (js_add (getSpendSince db_deposited "w1" (startOfDay clk0)) 100 == 200)%Q
  ∧ cr_passed (checkDailyLimit clk0 db_deposited "w1" 100 (limit_of 150)) = false
  ∧ (map tx_status ∘ transactions ∘ fst)
      <$> post (AgentKey "a1") clk0 db_deposited (spend 100)
    = Some [COMPLETED; REJECTED].
Proof. repeat split; vm_compute; reflexivity. Qed.

(** Scenario 3 of the specification: three Completed spends of 200 today
    under DailyLimit 500 reject a fourth of 150. *)
Example daily_cap_aggregation :
  let paid :=
    {| tx_walletId := "w1"; tx_amount := 200; tx_recipientId := None;
       tx_recipientType := EXTERNAL; tx_category := Some "advertising";
       tx_description := None; tx_status := COMPLETED;
       tx_ruleCheckResults := None; tx_metadata := no_metadata;
       tx_createdAt := 1699950000000; tx_completedAt := Some 1699950000000%Z |} in
  let d := set_transactions (λ _, [paid; paid; paid])
             (db_with [rule "r1" "w1" DAILY_LIMIT (limit_of 500) 1]) in
  (getSpendSince d "w1" (startOfDay clk0) == 600)%Q
  ∧ cr_passed (checkDailyLimit clk0 d "w1" 150 (limit_of 500)) = false.
Proof. split; vm_compute; reflexivity. Qed.
End spend_windows.

(** ** Rules *)

Section rules.
Import RulesEngine Scenario.

Lemma ruleStep_fold clk d walletId tx rules acc :
  foldl (ruleStep clk d walletId tx) acc rules
  = {| v_results := v_results acc ++ (entryOf clk d walletId tx <$> rules);
       v_approved := v_approved acc
         && forallb (λ r, cr_passed (evaluateRule clk d r walletId tx)) rules;
       v_requiresApproval := v_requiresApproval acc
         || existsb (λ r, cr_requiresApproval (evaluateRule clk d r walletId tx))
                    rules |}.
Proof.
  revert acc. induction rules as [|r rules IH]; intros [res app req]; simpl.
  - by rewrite app_nil_r, andb_true_r, orb_false_r.
  - rewrite IH. simpl. unfold entryOf at 2. rewrite <- app_assoc. simpl.
    f_equal.
    + destruct (cr_passed _); simpl; [done|]. by rewrite andb_false_r.
    + destruct (cr_requiresApproval _); simpl; [|done]. by rewrite orb_true_r.
Qed.

Lemma approval_rule_passes clk d walletId tx r :
  isApprovalThreshold r →
  cr_passed (evaluateRule clk d r walletId tx) = true
  ∧ cr_requiresApproval (evaluateRule clk d r walletId tx)
    = gt_nan (t_amount tx) (p_threshold (r_parameters r)).
Proof. unfold isApprovalThreshold, evaluateRule. intros ->. done. Qed.

Lemma blocking_rule_no_flag clk d walletId tx r :
  ¬ isApprovalThreshold r →
  cr_requiresApproval (evaluateRule clk d r walletId tx) = false.
Proof.
  unfold isApprovalThreshold, evaluateRule. destruct (r_ruleType r); done.
Qed.

Lemma forallb_blocking clk d walletId tx rules :
  forallb (λ r, cr_passed (evaluateRule clk d r walletId tx)) rules
  = forallb (λ r, cr_passed (evaluateRule clk d r walletId tx))
      (filter (λ r, ¬ isApprovalThreshold r) rules).
Proof.
  induction rules as [|r rules IH]; [done|]. rewrite filter_cons. simpl.
  destruct (decide (¬ isApprovalThreshold r)) as [Hb|Hb]; simpl; [by rewrite IH|].
  apply dec_stable in Hb.
  by rewrite (proj1 (approval_rule_passes clk d walletId tx r Hb)).
Qed.

Lemma existsb_approval clk d walletId tx rules :
  existsb (λ r, cr_requiresApproval (evaluateRule clk d r walletId tx)) rules
  = existsb (λ r, cr_requiresApproval (evaluateRule clk d r walletId tx))
      (filter isApprovalThreshold rules).
Proof.
  induction rules as [|r rules IH]; [done|]. rewrite filter_cons. simpl.
  destruct (decide (isApprovalThreshold r)) as [Ha|Hb]; simpl.
  - by rewrite IH.
  - by rewrite blocking_rule_no_flag.
Qed.

(** C5.  When the kill-switch gate lets the request through, the
    evaluation returns a verdict [ev] and leaves the store as it was.
    With [rules] the active rules of the wallet: [rules] is a permutation
    of the wallet's active rules sorted by descending priority; [results]
    has exactly one entry per rule, in that order, each with the rule's
    own [passed]; [approved] is the conjunction of [passed] over the
    blocking rules; [requiresApproval] is the disjunction of the flags of
    the ApprovalThreshold rules; and an ApprovalThreshold rule passes and
    raises its flag exactly when the amount exceeds its threshold. *)
Theorem rules_evaluation_semantics clk d walletId tx d1 :
  checkKillSwitch clk d walletId = Some (d1, None) →
  let rules := activeRules d walletId in
  ∃ ev, evaluateTransaction clk d walletId tx = Some (d, ev)
    ∧ rules ≡ₚ filter (λ r, r_walletId r = walletId ∧ r_active r) (spendRules d)
    ∧ StronglySorted (λ a b, (r_priority b ≤ r_priority a)%Z) rules
    ∧ results ev = entryOf clk d walletId tx <$> rules
    ∧ length (results ev) = length rules
    ∧ approved ev
      = forallb (λ r, cr_passed (evaluateRule clk d r walletId tx))
          (filter (λ r, ¬ isApprovalThreshold r) rules)
    ∧ requiresApproval ev
      = existsb (λ r, cr_requiresApproval (evaluateRule clk d r walletId tx))
          (filter isApprovalThreshold rules)
    ∧ (∀ r, isApprovalThreshold r →
         cr_passed (evaluateRule clk d r walletId tx) = true
         ∧ (cr_requiresApproval (evaluateRule clk d r walletId tx) = true
            ↔ ∃ th, p_threshold (r_parameters r) = Some th
                    ∧ (th < t_amount tx)%Q)).
Proof.
  intros Hks rules.
  assert (d1 = d) as -> by (eapply checkKillSwitch_loop_pass, Hks).
  unfold evaluateTransaction. rewrite Hks. simpl. fold rules.
  rewrite ruleStep_fold. simpl. eexists. split; [done|]. simpl.
  split; [apply merge_sort_Permutation|].
  split; [apply (StronglySorted_merge_sort (desc r_priority))|].
  split; [done|]. split; [by rewrite length_fmap|].
  split; [apply forallb_blocking|].
  split; [apply existsb_approval|].
  intros r Hr. destruct (approval_rule_passes clk d walletId tx r Hr) as [Hp Hf].
  split; [done|]. rewrite Hf. apply gt_nan_spec.
Qed.

(** On w1 (approval above 75 at priority 1, at most 200 per transaction
    at priority 2) a spend of 80 yields two entries, the higher priority
    first, is approved, and requires approval. *)
Lemma rules_evaluation_semantics_witness :
  ∃ ev, evaluateTransaction clk0 db_base "w1" (candidateOf 80 (spend 80))
        = Some (db_base, ev)
    ∧ map rr_ruleId (results ev) = ["r2"; "r1"]
    ∧ approved ev = true ∧ requiresApproval ev = true.
Proof.
  destruct (rules_evaluation_semantics clk0 db_base "w1"
              (candidateOf 80 (spend 80)) db_base)
    as (ev & Hev & _ & _ & Hres & _ & Happ & Hreq & _).
  { vm_compute. reflexivity. }
  exists ev. split; [exact Hev|].
  rewrite Hres, Happ, Hreq. repeat split; vm_compute; reflexivity.
Defined.
End rules.

(** ** Spawning *)

Section spawning.
Import SpawnGovernor Scenario.

Lemma readRule_allowlist acc rule :
  pr_vendorAllowlist (readRule acc rule) = pr_vendorAllowlist acc.
Proof. unfold readRule. repeat case_decide; done. Qed.

(** The derivation never reads a vendor allowlist from the parent. *)
Lemma parentRulesOf_allowlist ws : pr_vendorAllowlist (parentRulesOf ws) = None.
Proof.
  unfold parentRulesOf.
  set (acc := {| pr_dailyLimit := None |}).
  assert (Hacc : pr_vendorAllowlist acc = None) by done.
  clearbody acc. revert acc Hacc.
  induction ws as [|rs ws IH]; intros acc Hacc; simpl; [done|].
  apply IH. clear IH. revert acc Hacc.
  induction rs as [|r rs IH]; intros acc Hacc; simpl; [done|].
  apply IH. by rewrite readRule_allowlist.
Qed.

(** Whatever the parent's rules, its spawn policy and the override list,
    the child's vendor allowlist is empty: the branch that intersects the
    override list with the parent's never runs. *)
Lemma vendorAllowlist_always_empty ws sp ov :
  vendorAllowlist (_deriveChildPolicy ws sp ov) = [].
Proof.
  unfold _deriveChildPolicy. rewrite parentRulesOf_allowlist.
  destruct (o_dailyLimit ov), (o_maxSpendPerTx ov), (o_vendorAllowlist ov),
    (o_daily_limit_ratio ov); done.
Qed.

(** C7, at the failing inputs.  Parent p owns wallet wp, whose only spend
    rule is DailyLimit 1000; agents c and g exist and have no lineage yet;
    the spawn policy is the default one (ratio 1).

    - Overrides loosen.  Spawning c with the overrides [dailyLimit = -1000]
      and [daily_limit_ratio = -5] is authorized, and the child's daily
      limit is 5000, five times the parent's.
    - A grandchild is not bound by its parent.  Spawning c with the
      override [dailyLimit = 100] gives c a daily limit of 100 and writes
      no spend rule; when c then spawns g, the derivation finds no rule of
      c and starts from its default of 1000: g's daily limit is 1000, ten
      times its parent's.
    - A rule that is switched off counts.  When wp carries an active
      DailyLimit 100 and, after it, an inactive DailyLimit 5000, the
      engine enforces 100 on p, and the child's daily limit is 5000.
    - The vendor allowlist of the child is empty whatever the override
      list. *)
Lemma spawn_limits_exceed_the_parent :
  (spendRules db_family = [rule "rp" "wp" DAILY_LIMIT (limit_of 1000) 1]
   ∧ ∃ d' r, authorizeSpawn db_family "p" "c" ov_negative = (d', Authorized r)
       ∧ (dailyLimit (inheritedPolicy r) == 5000)%Q)
  ∧ (∃ d1 r1 d2 r2,
       authorizeSpawn db_family "p" "c" ov_100 = (d1, Authorized r1)
       ∧ (dailyLimit (inheritedPolicy r1) == 100)%Q
       ∧ spendRules d1 = spendRules db_family
       ∧ authorizeSpawn d1 "c" "g" no_overrides = (d2, Authorized r2)
       ∧ (dailyLimit (inheritedPolicy r2) == 1000)%Q)
  ∧ (map r_id (RulesEngine.activeRules db_switched_off "wp") = ["rp"]
     ∧ RulesEngine.cr_passed
         (RulesEngine.checkDailyLimit clk0 db_switched_off "wp" 101 (limit_of 100))
       = false
     ∧ ∃ d' r, authorizeSpawn db_switched_off "p" "c" no_overrides
               = (d', Authorized r)
         ∧ (dailyLimit (inheritedPolicy r) == 5000)%Q)
  ∧ (∃ d' r, authorizeSpawn db_family "p" "c" ov_vendor = (d', Authorized r)
       ∧ vendorAllowlist (inheritedPolicy r) = [])
  ∧ (∀ ws sp ov, vendorAllowlist (_deriveChildPolicy ws sp ov) = []).
Proof.
  split; [split; [reflexivity|]|].
  { eexists _, _. split; [vm_compute; reflexivity|]. vm_compute. reflexivity. }
  split.
  { eexists _, _, _, _. split; [vm_compute; reflexivity|].
    split; [vm_compute; reflexivity|]. split; [vm_compute; reflexivity|].
    split; [vm_compute; reflexivity|]. vm_compute. reflexivity. }
  split.
  { split; [vm_compute; reflexivity|]. split; [vm_compute; reflexivity|].
    eexists _, _. split; [vm_compute; reflexivity|]. vm_compute. reflexivity. }
  split; [|apply vendorAllowlist_always_empty].
  eexists _, _. split; [vm_compute; reflexivity|]. vm_compute. reflexivity.
Qed.

(** The override [daily_limit_ratio] scales the daily limit once more
    after the [dailyLimit] override: with the ratio one half, the child of
    a parent limited to 1000 a day is given 500. *)
Example daily_limit_ratio_scales_the_limit :
  ∃ d' r,
    authorizeSpawn db_family "p" "c" ov_ratio = (d', Authorized r)
    ∧ (dailyLimit (inheritedPolicy r) == 500)%Q.
Proof.
  eexists _, _. split; [vm_compute; reflexivity|]. vm_compute. reflexivity.
Qed.
End spawning.

(** ** Dead-man switch *)

Section dead_man.
Import DeadManSwitch Scenario.

Lemma mark_one status id (l : list Agent) :
  updateMany (λ a, a_id a = id) (with_agent_status status) l
  = mark status [id] <$> l.
Proof.
  unfold updateMany. apply list_fmap_ext. intros _ a _. unfold mark.
  destruct (decide (a_id a = id)) as [->|Hne].
  - rewrite decide_True; [done|]. by left.
  - rewrite decide_False; [done|]. by intros ?%list_elem_of_singleton.
Qed.

Lemma mark_snoc status ids c (l : list Agent) :
  updateMany (λ a, a_id a = c) (with_agent_status status) (mark status ids <$> l)
  = mark status (ids ++ [c]) <$> l.
Proof.
  unfold updateMany. rewrite <- list_fmap_compose. apply list_fmap_ext.
  intros _ a _. unfold mark, compose.
  destruct (decide (a_id a ∈ ids)) as [Hin|Hin]; simpl.
  - rewrite (decide_True (P := a_id a ∈ ids ++ [c])) by (apply elem_of_app; auto).
    by destruct (decide _).
  - destruct (decide (a_id a = c)) as [Hc|Hc].
    + rewrite decide_True; [done|]. apply elem_of_app. right. subst. by left.
    + rewrite decide_False; [done|].
      intros [?|Hs%list_elem_of_singleton]%elem_of_app; done.
Qed.

Lemma frozen_cons (c : string) (cs : list string) (F : gset string) :
  list_to_set cs ∪ ({[c]} ∪ F) = list_to_set (c :: cs) ∪ F.
Proof.
  rewrite list_to_set_cons, (assoc_L (∪)).
  by rewrite (comm_L (∪) (list_to_set cs)).
Qed.

(** The cascade loop, by induction on the children it walks. *)
Lemma cascade_loop status cs s d ids acc base :
  agents d = mark status ids <$> base →
  let '(s', d', cascadedTo) :=
    foldl (λ '(s, d, cascadedTo) childId,
             (add_frozen childId s,
              set_agents (updateMany (λ a, a_id a = childId)
                                     (with_agent_status status)) d,
              cascadedTo ++ [childId]))
          (s, d, acc) cs in
  _frozenAgents s' = list_to_set cs ∪ _frozenAgents s
  ∧ agents d' = mark status (ids ++ cs) <$> base
  ∧ dmsEvents d' = dmsEvents d
  ∧ cascadedTo = acc ++ cs.
Proof.
  revert s d ids acc.
  induction cs as [|c cs IH]; intros s d ids acc Hb; simpl.
  - rewrite !app_nil_r. split; [|done].
    symmetry. apply (left_id_L ∅ (∪)).
  - specialize (IH (add_frozen c s)
      (set_agents (updateMany (λ a, a_id a = c) (with_agent_status status)) d)
      (ids ++ [c]) (acc ++ [c])).
    destruct (foldl _ _ cs) as [[s' d'] cascadedTo].
    destruct IH as (Hf & Ha & He & Hc).
    { simpl. rewrite Hb. apply mark_snoc. }
    rewrite <- !app_assoc in *. simpl in *.
    split; [rewrite Hf; apply frozen_cons|done].
Qed.

(** C8, as stated, fails.  In the lineage root > child > grand, a trigger
    on root with action freeze and [cascadeToChildren] set freezes root
    and child only: grand is a descendant of root, yet it is not in the
    frozen set, its status is still Active, and the recorded event lists
    child alone. *)
Lemma cascade_stops_at_direct_children :
  bool_decide ("grand" ∈ descendants db_tree 3 "root") = true
  ∧ bool_decide ("child" ∈ _frozenAgents after_freeze.1) = true
  ∧ bool_decide ("grand" ∈ _frozenAgents after_freeze.1) = false
  ∧ a_status <$> findAgent after_freeze.2 "grand" = Some A_ACTIVE
  ∧ e_cascadedTo <$> last (dmsEvents after_freeze.2) = Some ["child"].
Proof. repeat split; vm_compute; reflexivity. Qed.

(** C8, amended.  When a trigger fires with action freeze (or terminate)
    and the config has [cascadeToChildren] set, the action is applied to
    the agent and to each of its direct children, the [childrenIds] of
    its lineage row: exactly these join the frozen set, exactly these
    have their status set to Frozen (or Terminated) while every other
    agent row is unchanged, and the recorded event lists the children as
    [cascadedTo]. *)
Theorem cascade_reaches_direct_children s d agentId triggerType action details
    config lineage s' d' :
  action = freeze ∨ action = terminate →
  cascadeToChildren config = true →
  SpawnGovernor.findLineage d agentId = Some lineage →
  _trigger s d agentId triggerType action details (Some config) = (s', d') →
  _frozenAgents s'
  = list_to_set (agentId :: l_childrenIds lineage) ∪ _frozenAgents s
  ∧ agents d'
    = mark (statusOf action) (agentId :: l_childrenIds lineage) <$> agents d
  ∧ dmsEvents d'
    = dmsEvents d ++
      [{| e_agentId := agentId; e_triggerType := triggerType;
          e_actionTaken := Some action; e_details := details;
          e_cascadedTo := l_childrenIds lineage; e_resolved := false |}].
Proof.
  unfold SpawnGovernor.findLineage.
  intros Hact Hcasc Hlin. unfold _trigger, cascade. simpl. rewrite Hcasc. simpl.
  destruct Hact as [-> | ->]; simpl.
  - rewrite Hlin.
    pose proof (cascade_loop A_FROZEN (l_childrenIds lineage) (add_frozen agentId s)
      (set_agents (updateMany (λ a, a_id a = agentId)
                     (with_agent_status A_FROZEN)) d)
      [agentId] [] (agents d)) as Hloop.
    destruct (foldl _ _ (l_childrenIds lineage)) as [[s1 d1] cascadedTo].
    destruct Hloop as (Hf & Ha & He & Hc); [apply mark_one|].
    intros [= <- <-]. simpl. rewrite Hf, Ha, He, Hc. simpl.
    split; [apply frozen_cons|done].
  - assert (findFirst (λ l, l_agentId l = agentId)
              (updateMany (λ l, l_agentId l = agentId)
                 (with_lineage_status L_terminated) (lineages d))
            = Some (with_lineage_status L_terminated lineage)) as ->.
    { rewrite (findFirst_updateMany (λ l, l_agentId l = agentId)) by done.
      by rewrite Hlin. }
    simpl.
    pose proof (cascade_loop A_TERMINATED (l_childrenIds lineage)
      (add_frozen agentId s)
      (set_lineages (updateMany (λ l, l_agentId l = agentId)
                       (with_lineage_status L_terminated))
        (set_agents (updateMany (λ a, a_id a = agentId)
                       (with_agent_status A_TERMINATED)) d))
      [agentId] [] (agents d)) as Hloop.
    destruct (foldl _ _ (l_childrenIds lineage)) as [[s1 d1] cascadedTo].
    destruct Hloop as (Hf & Ha & He & Hc); [apply mark_one|].
    intros [= <- <-]. simpl. rewrite Hf, Ha, He, Hc. simpl.
    split; [apply frozen_cons|done].
Qed.

(** The freeze of root in the lineage root > child > grand: the agent
    rows after it are root and child Frozen, grand Active. *)
Lemma cascade_reaches_direct_children_witness :
  map a_status (agents after_freeze.2) = [A_FROZEN; A_FROZEN; A_ACTIVE]
  ∧ e_cascadedTo <$> last (dmsEvents after_freeze.2) = Some ["child"].
Proof.
  destruct (cascade_reaches_direct_children initial db_tree "root" T_heartbeat
              freeze (D_heartbeat 200 180) (dms_config "root" alert)
              (lineage "root" None 0 ["child"]) after_freeze.1 after_freeze.2)
    as (_ & Ha & He).
  - left. reflexivity.
  - reflexivity.
  - vm_compute. reflexivity.
  - unfold after_freeze. by destruct (_trigger _ _ _ _ _ _ _).
  - rewrite Ha, He. split; vm_compute; reflexivity.
Defined.

(** C10.  For an agent that is not in the frozen set and has no dead-man
    config, or a disabled one, the transaction gate allows every amount
    and every vendor, and touches neither its state nor the store: no
    velocity, vendor-diversity or spend-anomaly check runs. *)
Theorem dead_man_gate_is_opt_in clk s d agentId amount vendor :
  unprotected d agentId →
  agentId ∉ _frozenAgents s →
  evaluateTransaction clk s d agentId amount vendor = (s, d, allowed)
  ∧ allow (evaluateTransaction clk s d agentId amount vendor).2 = true.
Proof.
  unfold unprotected, evaluateTransaction. intros Hc Hf.
  rewrite bool_decide_eq_false_2 by done.
  destruct (_getConfig d agentId) as [config|]; [|done].
  by rewrite Hc.
Qed.

(** Agent a1 has no dead-man config: even right after three gated
    transactions, a spend of a million to a new vendor is allowed. *)
Lemma dead_man_gate_is_opt_in_witness :
  allow (evaluateTransaction clk0 s_busy db_base "a1" 1000000
           (Some "new-vendor.example")).2 = true.
Proof.
  apply (dead_man_gate_is_opt_in clk0 s_busy db_base "a1" 1000000
           (Some "new-vendor.example")).
  - vm_compute. exact I.
  - apply (bool_decide_eq_false_1 ("a1" ∈ _frozenAgents s_busy)).
    vm_compute. reflexivity.
Defined.
End dead_man.

(** ** Cross-agent policies *)

Section cross_agent.
Import CrossAgentGovernor Scenario.

Lemma firstGroupPolicy_Some d sourceId gs p :
  firstGroupPolicy d sourceId gs = Some p →
  ∃ g, g ∈ gs ∧ p ∈ policies d ∧ groupMatch sourceId g p.
Proof.
  induction gs as [|g gs IH]; simpl; [done|].
  destruct (findFirst (groupMatch sourceId g) (policies d)) as [q|] eqn:Hq.
  - intros [= ->]. apply findFirst_Some in Hq as [??]. exists g.
    split; [left|done].
  - intros (g' & ? & ?)%IH. exists g'. split; [by right|done].
Qed.

Lemma firstGroupPolicy_None d sourceId gs :
  firstGroupPolicy d sourceId gs = None →
  Forall (λ g, Forall (λ q, ¬ groupMatch sourceId g q) (policies d)) gs.
Proof.
  induction gs as [|g gs IH]; simpl; [constructor|].
  destruct (findFirst (groupMatch sourceId g) (policies d)) as [q|] eqn:Hq; [done|].
  intros Hn. constructor; [by apply findFirst_None in Hq | by apply IH].
Qed.

Lemma resolvePolicy_most_specific d sourceId targetId :
  MostSpecific d sourceId targetId (_resolvePolicy d sourceId targetId).
Proof.
  unfold _resolvePolicy.
  destruct (findFirst (exactMatch sourceId targetId) (policies d)) as [p|] eqn:He.
  { apply findFirst_Some in He as [??]. by apply ms_exact. }
  apply findFirst_None in He.
  destruct (firstGroupPolicy d sourceId _) as [p|] eqn:Hg.
  { apply firstGroupPolicy_Some in Hg
      as (g & [Htg Hin]%list_elem_of_filter & ? & ?).
    by eapply ms_group. }
  apply firstGroupPolicy_None in Hg.
  assert (Forall (λ g, targetId ∈ g_agentIds g →
            Forall (λ q, ¬ groupMatch sourceId g q) (policies d)) (groups d))
    as Hg'.
  { apply Forall_forall. intros g Hin Ht. rewrite Forall_forall in Hg.
    apply Hg. by apply list_elem_of_filter. }
  destruct (findFirst (wildcardMatch sourceId) (policies d)) as [p|] eqn:Hw.
  { apply findFirst_Some in Hw as [??]. by apply ms_wildcard. }
  apply findFirst_None in Hw. by apply ms_none.
Qed.

(** C9.  For every cross-agent authorization, the policy applied is the
    most specific enabled policy for (source, target): an exact match if
    one exists, otherwise a policy on a group that contains the target,
    otherwise the wildcard policy with both target fields null, otherwise
    none.  When none resolves, the outcome is unauthorized with
    [requiresHuman], and exactly one CrossAgentTransaction row is
    appended, unauthorized, without a policy id and with
    [requiresHuman = true].  When a policy [p] resolves, it is [p] that
    decides: the payment is authorized exactly when [p]'s mutual-policy
    requirement is met, the five checks pass against [p]'s limits and the
    amount is at most [p]'s human-approval threshold; it is held for a
    human exactly when all that holds but the amount is above that
    threshold; an authorized outcome carries [p]'s id and settlement mode;
    nothing is written when the mutual policy is missing, and otherwise
    exactly one row is appended, with [p]'s id, the request's parties and
    amount and the outcome's flags. *)
Theorem cross_agent_policy_resolution clk d req d' out :
  authorizeTransaction clk d req = (d', out) →
  let resolved := _resolvePolicy d (sourceAgentId req) (targetAgentId req) in
  MostSpecific d (sourceAgentId req) (targetAgentId req) resolved
  ∧ match resolved with
    | None =>
        authorized out = false ∧ requiresHuman out = true
        ∧ transactionId out = Some (length (crossTxs d))
        ∧ ∃ x, crossTxs d' = crossTxs d ++ [x]
               ∧ x_sourceAgentId x = sourceAgentId req
               ∧ x_targetAgentId x = targetAgentId req
               ∧ x_amount x = amount req ∧ x_policyId x = None
               ∧ x_authorized x = false ∧ x_requiresHuman x = true
    | Some p =>
        (authorized out = true
         ↔ reciprocated d req p ∧ clears clk d req p
           ∧ (amount req <= requireHumanApprovalAbove p)%Q)
        ∧ (requiresHuman out = true
           ↔ reciprocated d req p ∧ clears clk d req p
             ∧ (requireHumanApprovalAbove p < amount req)%Q)
        ∧ (authorized out = true →
           out_policyId out = Some (cp_id p)
           ∧ out_settlementMode out = Some (settlementMode p))
        ∧ (¬ reciprocated d req p → d' = d)
        ∧ (reciprocated d req p →
           ∃ x, crossTxs d' = crossTxs d ++ [x]
                ∧ x_policyId x = Some (cp_id p)
                ∧ x_sourceAgentId x = sourceAgentId req
                ∧ x_targetAgentId x = targetAgentId req
                ∧ x_amount x = amount req
                ∧ x_authorized x = authorized out
                ∧ x_requiresHuman x = requiresHuman out
                ∧ (authorized out = true →
                   x_settlementStatus x
                   = match settlementMode p with
                     | immediate => S_settled
                     | _ => S_pending
                     end))
    end.
Proof.
  intros Hauth resolved. split; [apply resolvePolicy_most_specific|].
  revert Hauth. unfold authorizeTransaction, _recordTransaction. subst resolved.
  destruct (_resolvePolicy d (sourceAgentId req) (targetAgentId req)) as [p|].
  2:{ cbv zeta iota beta. intros [= <- <-]. simpl.
      do 3 (split; [done|]). by eexists. }
  assert (Hmut : requireMutualPolicy p
                 && negb (bool_decide (is_Some
                      (_resolvePolicy d (targetAgentId req) (sourceAgentId req))))
                 = false ↔ reciprocated d req p).
  { unfold reciprocated. destruct (requireMutualPolicy p); simpl.
    - rewrite negb_false_iff, bool_decide_eq_true.
      split; [auto|intros H; by apply H].
    - split; [intros _ [=]|done]. }
  destruct (requireMutualPolicy p && _) eqn:Hm.
  { assert (¬ reciprocated d req p) as Hno.
    { intros Hr%Hmut. discriminate. }
    intros [= <- <-]. simpl.
    split; [split; [done|by intros [? _]]|].
    split; [split; [done|by intros [? _]]|].
    split; [done|]. split; [done|]. done. }
  assert (reciprocated d req p) as Hrec by (by apply Hmut).
  clear Hmut Hm.
  match goal with |- context [findFirst _ ?l] => set (cs := l) end.
  assert (Hcs : findFirst (λ c, ¬ passed c) cs = None ↔ clears clk d req p).
  { unfold clears. split.
    - intros Hn%findFirst_None. subst cs.
      repeat (apply Forall_cons in Hn as [?Hc Hn]).
      repeat split; by apply dec_stable.
    - intros (H1 & H2 & H3 & H4 & H5). subst cs.
      rewrite !findFirst_cons.
      rewrite !decide_False by (intros Hx; apply Hx; assumption). done. }
  destruct (findFirst _ cs) as [failed|] eqn:Hf.
  { assert (¬ clears clk d req p) as Hno.
    { intros Hc%Hcs. discriminate. }
    cbv zeta iota beta. intros [= <- <-]. simpl.
    split; [split; [done|by intros (_ & ? & _)]|].
    split; [split; [done|by intros (_ & ? & _)]|]. split; [done|].
    split; [done|]. intros _. eexists. split; [done|]. by repeat split. }
  assert (clears clk d req p) as Hcl by (by apply Hcs).
  clear Hcs Hf.
  case_bool_decide as Hesc; cbv zeta iota beta; intros [= <- <-]; simpl.
  - split; [split; [done|intros (_ & _ & ?); lra]|].
    split; [split; [intros _; by split|done]|].
    split; [done|]. split; [intros Hn; by destruct Hn|].
    intros _. eexists. split; [done|]. by repeat split.
  - split.
    { split; [|done]. intros _. split; [exact Hrec|]. split; [exact Hcl|]. lra. }
    split; [split; [done|intros (_ & _ & ?); lra]|].
    split; [done|]. split; [intros Hn; by destruct Hn|].
    intros _. eexists. split; [done|]. by repeat split.
Qed.

(** Source a holds an exact policy towards b, a policy on the group
    "partners" (which holds c) and a wildcard: b resolves to the exact
    policy, c to the group policy, anyone else to the wildcard; source z
    holds none. *)
Example resolution_order :
  cp_id <$> _resolvePolicy db_cross "a" "b" = Some "a-b"
  ∧ cp_id <$> _resolvePolicy db_cross "a" "c" = Some "grp"
  ∧ cp_id <$> _resolvePolicy db_cross "a" "d" = Some "any"
  ∧ _resolvePolicy db_cross "z" "b" = None.
Proof. repeat split; vm_compute; reflexivity. Qed.

(** Source a holds an exact policy towards b capped at 20 a transaction
    and a wildcard capped at 100.  A payment of 50 to b falls under the
    exact policy and is refused, with one unauthorized row that carries
    that policy's id; under the wildcard it would have passed. *)
Lemma cross_agent_policy_resolution_witness :
  ∃ d' out x,
    authorizeTransaction clk0 db_cross_capped (pay "a" "b" 50) = (d', out)
    ∧ cp_id <$> _resolvePolicy db_cross_capped "a" "b" = Some "a-b"
    ∧ authorized out = false
    ∧ crossTxs d' = [x] ∧ x_policyId x = Some "a-b" ∧ x_authorized x = false
    ∧ authorized (authorizeTransaction clk0 db_cross_capped (pay "a" "d" 50)).2
      = true.
Proof.
  destruct (authorizeTransaction clk0 db_cross_capped (pay "a" "b" 50))
    as [d' out] eqn:Hauth.
  destruct (cross_agent_policy_resolution clk0 db_cross_capped (pay "a" "b" 50)
              d' out Hauth) as [_ H].
  destruct (_resolvePolicy db_cross_capped (sourceAgentId (pay "a" "b" 50))
              (targetAgentId (pay "a" "b" 50))) as [p|] eqn:Hp;
    [|vm_compute in Hp; discriminate].
  destruct H as (Hiff & _ & _ & _ & Hrow).
  assert (cp_id p = "a-b" ∧ requireMutualPolicy p = false
          ∧ maxPerTransaction p = 20%Q) as (Hid & Hmut & Hcap).
  { vm_compute in Hp. injection Hp as <-. done. }
  destruct Hrow as (x & Hx & Hpol & _ & _ & _ & Ha & _).
  { intros Hreq. rewrite Hmut in Hreq. discriminate. }
  assert (authorized out = false) as Hno.
  { destruct (authorized out) eqn:Hout; [exfalso|done].
    destruct Hiff as [Hiff _]. destruct (Hiff eq_refl) as (_ & (_ & Hper & _) & _).
    unfold _checkPerTxLimit in Hper. simpl in Hper. rewrite Hcap in Hper.
    vm_compute in Hper. done. }
  exists d', out, x. split; [reflexivity|].
  split; [change (_resolvePolicy db_cross_capped "a" "b") with
            (_resolvePolicy db_cross_capped (sourceAgentId (pay "a" "b" 50))
               (targetAgentId (pay "a" "b" 50))); by rewrite Hp, <- Hid|].
  split; [exact Hno|]. split; [exact Hx|].
  split; [by rewrite Hpol, Hid|]. split; [by rewrite Ha|].
  vm_compute. reflexivity.
Defined.
End cross_agent.

(** ** Approval and rejection by the owner *)

Section approval.
Import RulesEngine Transactions Scenario.

Lemma executeTransaction_Some clk d id t w :
  transactions d !! id = Some t →
  findWallet d (tx_walletId t) = Some w →
  executeTransaction clk d id
  = Some (set_transactions (alter (complete clk) id)
            (set_wallets (updateMany (λ w, w_id w = tx_walletId t)
                                     (debit (tx_amount t))) d)).
Proof.
  intros Ht Hw. unfold executeTransaction, updateWallet. rewrite Ht. simpl.
  by rewrite Hw.
Qed.

(** X1.  The owner approves a transaction that awaits approval and that
    the balance covers: the handler answers 200, the row is Completed with
    [completedAt] set to the current instant, no row is added, and the
    wallet is debited by the amount, whatever the status of the wallet
    (the handler does not read it).  Approving the same transaction again
    is refused with 400 and changes nothing: the amount is debited once. *)
Theorem approve_executes_once clk clk' d id t w a :
  transactions d !! id = Some t →
  tx_status t = AWAITING_APPROVAL →
  findWallet d (tx_walletId t) = Some w →
  findAgent d (w_agentId w) = Some a →
  (tx_amount t <= w_balance w)%Q →
  ∃ d', approve (OwnerKey (a_ownerId a)) clk d id = Some (d', Ok)
    ∧ transactions d' !! id = Some (complete clk t)
    ∧ length (transactions d') = length (transactions d)
    ∧ findWallet d' (tx_walletId t) = Some (debit (tx_amount t) w)
    ∧ approve (OwnerKey (a_ownerId a)) clk' d' id
      = Some (d', BadRequest "Transaction is not awaiting approval").
Proof.
  intros Ht Hst Hw Ha Hbal.
  assert (Hw' : findWallet
            (set_transactions (alter (complete clk) id)
               (set_wallets (updateMany (λ w, w_id w = tx_walletId t)
                                        (debit (tx_amount t))) d))
            (tx_walletId t) = Some (debit (tx_amount t) w)).
  { pose proof (findWallet_set_wallets_update d (tx_walletId t)
                  (debit (tx_amount t))) as Hf.
    unfold findWallet in *. simpl in *. rewrite Hf by done. by rewrite Hw. }
  eexists. split.
  { unfold approve. rewrite Ht, Hw. simpl. rewrite Ha. simpl.
    rewrite bool_decide_eq_true_2 by done. rewrite Hst. simpl.
    rewrite (bool_decide_eq_false_2 (w_balance w < tx_amount t)%Q) by lra.
    rewrite (executeTransaction_Some clk d id t w) by done. done. }
  split; [simpl; by rewrite list_lookup_alter_eq, Ht|].
  split; [simpl; by rewrite length_alter|].
  split; [exact Hw'|].
  unfold approve. simpl transactions. rewrite list_lookup_alter_eq, Ht. simpl.
  unfold findWallet in *. simpl in *. rewrite Hw'. simpl.
  unfold findAgent in *. simpl. rewrite Ha. simpl.
  by rewrite bool_decide_eq_true_2.
Qed.

(** The 80 that awaits approval on w1 is approved by owner o1: the balance
    goes from 1000 to 920, and a second approval is refused. *)
Lemma approve_executes_once_witness :
  ∃ d', approve (OwnerKey "o1") clk0 db_awaiting 0 = Some (d', Ok)
    ∧ w_balance <$> findWallet d' "w1" = Some (1000 - 80)%Q
    ∧ approve (OwnerKey "o1") clk0 d' 0
      = Some (d', BadRequest "Transaction is not awaiting approval").
Proof.
  destruct (transactions db_awaiting !! 0%nat) as [t|] eqn:Ht;
    [|vm_compute in Ht; discriminate].
  destruct (approve_executes_once clk0 clk0 db_awaiting 0 t w1 (agent "a1") Ht)
    as (d' & Happ & _ & _ & Hw & Hagain).
  - vm_compute in Ht. injection Ht as <-. reflexivity.
  - vm_compute in Ht. injection Ht as <-. vm_compute. reflexivity.
  - vm_compute in Ht. injection Ht as <-. vm_compute. reflexivity.
  - vm_compute in Ht. injection Ht as <-. unfold Qle. simpl. lia.
  - exists d'. split; [exact Happ|]. split; [|exact Hagain].
    vm_compute in Ht. injection Ht as <-. simpl in Hw. by rewrite Hw.
Defined.

(** X2.  The approval handler fails closed.  It answers 200 only to the
    owner of the wallet's agent, for a transaction that awaits approval
    and that the balance covers; every other answer is a refusal (400,
    403 or 404) and leaves the store as it was.  An agent key is always
    refused. *)
Theorem approve_fails_closed auth clk d id d' resp :
  approve auth clk d id = Some (d', resp) →
  (resp = Ok
   ∧ ∃ t w a, auth = OwnerKey (a_ownerId a)
       ∧ transactions d !! id = Some t
       ∧ tx_status t = AWAITING_APPROVAL
       ∧ findWallet d (tx_walletId t) = Some w
       ∧ findAgent d (w_agentId w) = Some a
       ∧ (tx_amount t <= w_balance w)%Q)
  ∨ (refusal resp ∧ d' = d).
Proof.
  unfold approve. destruct auth as [ownerId|agentId]; [|by intros [= <- <-]; right].
  destruct (transactions d !! id) as [t|] eqn:Ht; [|by intros [= <- <-]; right].
  destruct (findWallet d (tx_walletId t)) as [w|] eqn:Hw; [|done]. simpl.
  destruct (findAgent d (w_agentId w)) as [a|] eqn:Ha; [|done]. simpl.
  case_bool_decide as Hown; simpl; [|by intros [= <- <-]; right].
  case_bool_decide as Hst; simpl; [|by intros [= <- <-]; right].
  case_bool_decide as Hbal; simpl; [by intros [= <- <-]; right|].
  destruct (executeTransaction clk d id) as [d1|]; [|done]. simpl.
  intros [= <- <-]. left. split; [done|]. exists t, w, a. subst ownerId.
  repeat split; try done. lra.
Qed.

(** The agent itself cannot approve its pending transaction: it is
    refused, and the store is as before. *)
Lemma approve_fails_closed_witness :
  ∃ d' resp,
    approve (AgentKey "a1") clk0 db_awaiting 0 = Some (d', resp)
    ∧ refusal resp ∧ d' = db_awaiting.
Proof.
  destruct (approve (AgentKey "a1") clk0 db_awaiting 0) as [[d' resp]|] eqn:Happ;
    [|vm_compute in Happ; discriminate].
  destruct (approve_fails_closed (AgentKey "a1") clk0 db_awaiting 0 d' resp Happ)
    as [[Hok _]|[Hr Hd]].
  - vm_compute in Happ. injection Happ as _ <-. discriminate Hok.
  - exists d', resp. split; [reflexivity|]. split; [exact Hr|exact Hd].
Defined.

(** X3.  The owner rejects a transaction that awaits approval: the row
    becomes Rejected, every other row and every wallet is untouched.  The
    rejection is final: a later approval or rejection of the same
    transaction is refused with 400 and changes nothing. *)
Theorem reject_is_final clk d id t w a :
  transactions d !! id = Some t →
  tx_status t = AWAITING_APPROVAL →
  findWallet d (tx_walletId t) = Some w →
  findAgent d (w_agentId w) = Some a →
  ∃ d', reject (OwnerKey (a_ownerId a)) d id = Some (d', Ok)
    ∧ transactions d' = alter (with_tx_status REJECTED) id (transactions d)
    ∧ transactions d' !! id = Some (with_tx_status REJECTED t)
    ∧ wallets d' = wallets d
    ∧ approve (OwnerKey (a_ownerId a)) clk d' id
      = Some (d', BadRequest "Transaction is not awaiting approval")
    ∧ reject (OwnerKey (a_ownerId a)) d' id
      = Some (d', BadRequest "Transaction is not awaiting approval").
Proof.
  intros Ht Hst Hw Ha. eexists. split.
  { unfold reject. rewrite Ht, Hw. simpl. rewrite Ha. simpl.
    rewrite bool_decide_eq_true_2 by done. rewrite Hst. done. }
  split; [done|].
  split; [simpl; by rewrite list_lookup_alter_eq, Ht|].
  split; [done|].
  unfold approve, reject. simpl transactions.
  rewrite list_lookup_alter_eq, Ht. simpl.
  unfold findWallet, findAgent in *. simpl. rewrite Hw. simpl. rewrite Ha. simpl.
  by rewrite bool_decide_eq_true_2.
Qed.

(** The 80 that awaits approval on w1 is rejected by owner o1: w1 keeps
    its 1000. *)
Lemma reject_is_final_witness :
  ∃ d', reject (OwnerKey "o1") db_awaiting 0 = Some (d', Ok)
    ∧ wallets d' = [w1]
    ∧ approve (OwnerKey "o1") clk0 d' 0
      = Some (d', BadRequest "Transaction is not awaiting approval").
Proof.
  destruct (transactions db_awaiting !! 0%nat) as [t|] eqn:Ht;
    [|vm_compute in Ht; discriminate].
  destruct (reject_is_final clk0 db_awaiting 0 t w1 (agent "a1") Ht)
    as (d' & Hrej & _ & _ & Hw & Happ & _).
  - vm_compute in Ht. injection Ht as <-. reflexivity.
  - vm_compute in Ht. injection Ht as <-. vm_compute. reflexivity.
  - vm_compute in Ht. injection Ht as <-. vm_compute. reflexivity.
  - exists d'. split; [exact Hrej|]. split; [|exact Happ].
    rewrite Hw. vm_compute. reflexivity.
Defined.
End approval.

(** ** Balances *)

Section balances.
Import RulesEngine Transactions Scenario.

Lemma updateMany_ids (P : Wallet → Prop) `{∀ w, Decision (P w)} f l :
  (∀ w, w_id (f w) = w_id w) →
  w_id <$> updateMany P f l = w_id <$> l.
Proof.
  intros Hid. unfold updateMany. rewrite <- list_fmap_compose.
  apply list_fmap_ext. intros _ w _. simpl. by destruct (decide (P w)).
Qed.

Lemma updateMany_status_balances id s l :
  Forall (λ w, (0 <= w_balance w)%Q) l →
  Forall (λ w, (0 <= w_balance w)%Q)
         (updateMany (λ w, w_id w = id) (with_status s) l).
Proof.
  intros Hl. unfold updateMany. apply Forall_fmap.
  eapply Forall_impl; [exact Hl|]. intros w Hw. simpl.
  by destruct (decide (w_id w = id)).
Qed.

(** Under unique ids, the row [findWallet] returns is the only one with
    that id. *)
Lemma findWallet_unique d id w w' :
  wallet_ids_unique d → findWallet d id = Some w →
  w' ∈ wallets d → w_id w' = id → w' = w.
Proof.
  unfold wallet_ids_unique, findWallet. generalize (wallets d) as l.
  induction l as [|x l IH]; [done|].
  rewrite fmap_cons, NoDup_cons, findFirst_cons. intros [Hx Hl].
  destruct (decide (w_id x = id)) as [Hxid|Hxid].
  - intros [= <-] [->|Hin]%elem_of_cons Hid; [done|].
    exfalso. apply Hx. rewrite Hxid, <- Hid. by apply list_elem_of_fmap_2.
  - intros Hf [->|Hin]%elem_of_cons Hid; [done|]. by apply IH.
Qed.

Lemma debit_keeps_solvent d id w amt :
  wallet_ids_unique d → solvent d →
  findWallet d id = Some w → (amt <= w_balance w)%Q →
  Forall (λ w, (0 <= w_balance w)%Q)
         (updateMany (λ w, w_id w = id) (debit amt) (wallets d)).
Proof.
  intros Hu Hs Hw Hamt. unfold updateMany. apply Forall_fmap, Forall_forall.
  intros w' Hin. simpl. destruct (decide (w_id w' = id)) as [Hid|_].
  - rewrite (findWallet_unique d id w w' Hu Hw Hin Hid). simpl. lra.
  - unfold solvent in Hs. rewrite Forall_forall in Hs. by apply Hs.
Qed.

Lemma credit_keeps_solvent d id amt :
  solvent d → (0 <= amt)%Q →
  Forall (λ w, (0 <= w_balance w)%Q)
         (updateMany (λ w, w_id w = id) (credit amt) (wallets d)).
Proof.
  intros Hs Hamt. unfold updateMany. apply Forall_fmap.
  eapply Forall_impl; [exact Hs|]. intros w Hw. simpl in *.
  destruct (decide (w_id w = id)); simpl; lra.
Qed.

(** The kill-switch gate writes wallets in one way only: the status of the
    wallet it closes. *)
Lemma checkKillSwitch_loop_wallets clk d walletId kss d1 st :
  checkKillSwitch_loop clk d walletId kss = Some (d1, st) →
  wallets d1 = wallets d
  ∨ wallets d1 = updateMany (λ w, w_id w = walletId)
                            (with_status W_KILL_SWITCHED) (wallets d).
Proof.
  induction kss as [|ks kss IH]; simpl; [intros [= <- _]; by left|].
  destruct (latched ks); [intros [= <- _]; by left|].
  destruct (evaluateKillSwitchCondition clk d ks walletId) as [c|]; [|done].
  simpl. destruct (trigger c); [|exact IH].
  unfold updateWallet. simpl.
  destruct (findWallet _ walletId) as [w0|]; [|done]. simpl.
  destruct (findWallet _ walletId) as [w2|]; [|done]. simpl.
  intros [= <- _]. by right.
Qed.

(** How an admission can write the wallets: not at all, by closing the
    wallet when a kill switch fires, or by one debit that the balance
    covers. *)
Lemma post_wallets auth clk d body d' resp :
  post auth clk d body = Some (d', resp) →
  wallets d' = wallets d
  ∨ (∃ id, wallets d' = updateMany (λ w, w_id w = id)
                                   (with_status W_KILL_SWITCHED) (wallets d))
  ∨ (∃ id amt w, findWallet d id = Some w ∧ (amt <= w_balance w)%Q
       ∧ wallets d' = updateMany (λ w, w_id w = id) (debit amt) (wallets d)).
Proof.
  unfold post.
  destruct (walletId body) as [id|]; [|by intros [= <- _]; auto].
  destruct (amount body) as [amt|]; [|by intros [= <- _]; auto].
  destruct (_ || _); [by intros [= <- _]; auto|].
  destruct (bool_decide (amt <= 0)%Q); [by intros [= <- _]; auto|].
  destruct (findWallet d id) as [wallet|] eqn:Hw; [|by intros [= <- _]; auto].
  destruct (negb (canAccessAgent _ _ _)); [by intros [= <- _]; auto|].
  destruct (negb (bool_decide _)); [by intros [= <- _]; auto|].
  case_bool_decide as Hbal; [by intros [= <- _]; auto|].
  unfold evaluateTransaction, checkKillSwitch.
  destruct (checkKillSwitch_loop clk d id _) as [[d1 st]|] eqn:Hloop; [|done].
  pose proof (checkKillSwitch_loop_wallets _ _ _ _ _ _ Hloop) as Hws.
  simpl. destruct st as [st|]; simpl.
  { intros [= <- _]. simpl. destruct Hws as [->| ->]; eauto. }
  apply checkKillSwitch_loop_pass in Hloop as ->.
  destruct (v_approved _); simpl; [|intros [= <- _]; by left].
  destruct (v_requiresApproval _); simpl; [intros [= <- _]; by left|].
  match goal with
  | |- context [executeTransaction clk ?d2 ?n] =>
      destruct (executeTransaction clk d2 n) as [d3|] eqn:Hex; [|done]
  end.
  unfold executeTransaction in Hex. simpl in Hex.
  unfold create in Hex. rewrite lookup_last in Hex. simpl in Hex.
  unfold updateWallet in Hex. simpl in Hex.
  unfold findWallet in Hw, Hex. simpl in Hex. rewrite Hw in Hex. simpl in Hex.
  injection Hex as <-. simpl. intros [= <- _]. simpl.
  right. right. exists id, amt, wallet. unfold findWallet. split; [done|].
  split; [lra|done].
Qed.

(** Left alone, the handler of the approval route is [approve]. *)
Lemma run_alone_approve auth clk d id :
  run_alone (approve_step auth clk id) 5 at_findTransaction d
  = approve auth clk d id.
Proof.
  unfold approve, executeTransaction. simpl.
  destruct auth as [ownerId|agentId]; [|done].
  destruct (transactions d !! id) as [t|] eqn:Ht; [|done]. simpl.
  destruct (findWallet d (tx_walletId t)) as [w|] eqn:Hw; [|done]. simpl.
  destruct (findAgent d (w_agentId w)) as [a|]; [|done]. simpl.
  destruct (negb (bool_decide (a_ownerId a = ownerId))); [done|].
  destruct (negb (bool_decide _)); [done|]. simpl. rewrite Hw. simpl.
  destruct (bool_decide (w_balance w < tx_amount t)%Q); [done|]. simpl.
  rewrite Ht. simpl.
  destruct (updateWallet (tx_walletId t) (debit (tx_amount t)) d); done.
Qed.

(** Two approvals on one wallet whose balance tests both run before
    either debit: both respond 200, and the wallet is debited twice. *)
Lemma interleaved_approvals clk d id1 id2 t1 t2 w a :
  id1 ≠ id2 →
  transactions d !! id1 = Some t1 → transactions d !! id2 = Some t2 →
  tx_status t1 = AWAITING_APPROVAL → tx_status t2 = AWAITING_APPROVAL →
  tx_walletId t2 = tx_walletId t1 →
  findWallet d (tx_walletId t1) = Some w →
  findAgent d (w_agentId w) = Some a →
  (tx_amount t1 <= w_balance w)%Q → (tx_amount t2 <= w_balance w)%Q →
  ∃ d', interleave checks_first
          (approve_step (OwnerKey (a_ownerId a)) clk id1)
          (approve_step (OwnerKey (a_ownerId a)) clk id2)
          at_findTransaction at_findTransaction d
        = Some (responded Ok, responded Ok, d')
    ∧ findWallet d' (tx_walletId t1)
      = Some (debit (tx_amount t2) (debit (tx_amount t1) w)).
Proof.
  intros Hne Ht1 Ht2 Hs1 Hs2 Hsame Hw Ha Hb1 Hb2.
  unfold checks_first. cbn [interleave approve_step].
  rewrite Ht1. simpl. rewrite Hw. simpl. rewrite Ha. simpl.
  rewrite bool_decide_eq_true_2 by done. rewrite Hs1. simpl.
  rewrite Hw. simpl. rewrite (bool_decide_eq_false_2 (_ < _)%Q) by lra. simpl.
  rewrite Ht2. simpl. rewrite Hsame, Hw. simpl. rewrite Ha. simpl.
  rewrite bool_decide_eq_true_2 by done. rewrite Hs2. simpl.
  rewrite Hsame, Hw. simpl.
  rewrite (bool_decide_eq_false_2 (_ < _)%Q) by lra. simpl.
  rewrite Ht1. simpl.
  destruct (updateWallet_Some d (tx_walletId t1) (debit (tx_amount t1)) w)
    as (d1 & -> & Hd1 & Hw1); [done..|].
  simpl. rewrite Hd1. simpl.
  rewrite list_lookup_alter_ne by done. rewrite Ht2. simpl. rewrite Hsame.
  set (d2 := set_transactions _ _).
  assert (Hw2 : findWallet d2 (tx_walletId t1) = Some (debit (tx_amount t1) w)).
  { rewrite <- Hw1. by rewrite Hd1. }
  destruct (updateWallet_Some d2 (tx_walletId t1) (debit (tx_amount t2))
              (debit (tx_amount t1) w)) as (d3 & -> & Hd3 & Hw3); [done..|].
  simpl. eexists. split; [done|]. exact Hw3.
Qed.

(** X4.  Solvency needs the handlers to run one at a time.  In a store
    whose wallet ids are unique and whose balances are all non-negative:
    an admission, an approval or a deposit that runs from its first read
    to its last write with no other request in between leaves unique
    wallet ids and non-negative balances, whatever it answers.  The
    handlers take no lock, though.  When two approvals of transactions
    that await approval on one wallet, each covered by the balance, both
    test the balance before either debits, both answer 200 and the wallet
    is debited by both amounts: if the balance is below their sum, it ends
    negative. *)
Theorem money_routes_need_serial_execution auth clk d :
  wallet_ids_unique d → solvent d →
  (∀ body d' resp, post auth clk d body = Some (d', resp) →
     solvent d' ∧ wallet_ids_unique d')
  ∧ (∀ id d' resp,
       run_alone (approve_step auth clk id) 5 at_findTransaction d
       = Some (d', resp) →
       solvent d' ∧ wallet_ids_unique d')
  ∧ (∀ id amount source d' resp,
       deposit auth clk d id amount source = Some (d', resp) →
       solvent d' ∧ wallet_ids_unique d')
  ∧ (∀ id1 id2 t1 t2 w a,
       id1 ≠ id2 →
       transactions d !! id1 = Some t1 → transactions d !! id2 = Some t2 →
       tx_status t1 = AWAITING_APPROVAL → tx_status t2 = AWAITING_APPROVAL →
       tx_walletId t2 = tx_walletId t1 →
       findWallet d (tx_walletId t1) = Some w →
       findAgent d (w_agentId w) = Some a →
       (tx_amount t1 <= w_balance w)%Q → (tx_amount t2 <= w_balance w)%Q →
       ∃ d', interleave checks_first
               (approve_step (OwnerKey (a_ownerId a)) clk id1)
               (approve_step (OwnerKey (a_ownerId a)) clk id2)
               at_findTransaction at_findTransaction d
             = Some (responded Ok, responded Ok, d')
         ∧ w_balance <$> findWallet d' (tx_walletId t1)
           = Some (w_balance w - tx_amount t1 - tx_amount t2)%Q
         ∧ ((w_balance w < tx_amount t1 + tx_amount t2)%Q → ¬ solvent d')).
Proof.
  intros Hu Hs. split; [|split; [|split]].
  - intros body d' resp Hpost. unfold solvent, wallet_ids_unique.
    destruct (post_wallets _ _ _ _ _ _ Hpost)
      as [->|[(id & ->)|(id & amt & w & Hw & Hamt & ->)]].
    + done.
    + split; [by apply updateMany_status_balances|].
      by rewrite updateMany_ids.
    + split; [by eapply debit_keeps_solvent|]. by rewrite updateMany_ids.
  - intros id d' resp. rewrite run_alone_approve. unfold approve.
    destruct auth as [ownerId|agentId]; [|by intros [= <- _]].
    destruct (transactions d !! id) as [t|] eqn:Ht; [|by intros [= <- _]].
    destruct (findWallet d (tx_walletId t)) as [w|] eqn:Hw; [|done]. simpl.
    destruct (findAgent d (w_agentId w)) as [a|]; [|done]. simpl.
    destruct (negb (bool_decide (a_ownerId a = ownerId))); [by intros [= <- _]|].
    destruct (negb (bool_decide _)); [by intros [= <- _]|].
    case_bool_decide as Hbal; [by intros [= <- _]|].
    rewrite (executeTransaction_Some clk d id t w) by done. simpl.
    intros [= <- _]. unfold solvent, wallet_ids_unique. simpl.
    split; [eapply debit_keeps_solvent; eauto; lra|]. by rewrite updateMany_ids.
  - intros id amount source d' resp. unfold deposit.
    destruct amount as [amt|]; [|by intros [= <- _]].
    destruct (bool_decide (amt == 0)%Q); [by intros [= <- _]|]. simpl.
    case_bool_decide as Hpos; [by intros [= <- _]|].
    destruct (findWallet d id) as [w|] eqn:Hw; [|by intros [= <- _]].
    destruct (negb (bool_decide _)); [by intros [= <- _]|].
    destruct (negb (canAccessAgent _ _ _)); [by intros [= <- _]|].
    unfold updateWallet. rewrite Hw. simpl. intros [= <- _].
    unfold solvent, wallet_ids_unique. simpl.
    split; [apply credit_keeps_solvent; [done|lra]|]. by rewrite updateMany_ids.
  - intros id1 id2 t1 t2 w a Hne Ht1 Ht2 Hs1 Hs2 Hsame Hw Ha Hb1 Hb2.
    destruct (interleaved_approvals clk d id1 id2 t1 t2 w a)
      as (d' & Hrun & Hw'); [done..|].
    exists d'. split; [exact Hrun|]. rewrite Hw'. simpl.
    split; [reflexivity|]. intros Hlt Hsolv.
    apply findFirst_Some in Hw' as [Hin _].
    unfold solvent in Hsolv. rewrite Forall_forall in Hsolv.
    specialize (Hsolv _ Hin). simpl in Hsolv. lra.
Qed.

(** Wallet w1 holds 100 and two requests of 80 await approval.  Approved
    one after the other, the second is refused and the balance stays at
    20; approved with both balance tests first, both succeed and the
    balance is 100 - 80 - 80. *)
Lemma money_routes_need_serial_execution_witness :
  (∃ d1 d2,
     run_alone (approve_step (OwnerKey "o1") clk0 0) 5 at_findTransaction
       db_two_awaiting = Some (d1, Ok)
     ∧ run_alone (approve_step (OwnerKey "o1") clk0 1) 5 at_findTransaction d1
       = Some (d2, BadRequest "Insufficient balance")
     ∧ solvent d2)
  ∧ ∃ d', interleave checks_first
            (approve_step (OwnerKey "o1") clk0 0)
            (approve_step (OwnerKey "o1") clk0 1)
            at_findTransaction at_findTransaction db_two_awaiting
          = Some (responded Ok, responded Ok, d')
      ∧ w_balance <$> findWallet d' "w1" = Some (100 - 80 - 80)%Q
      ∧ ¬ solvent d'.
Proof.
  assert (Hu : wallet_ids_unique db_two_awaiting).
  { unfold wallet_ids_unique. vm_compute. apply NoDup_singleton. }
  assert (Hs : solvent db_two_awaiting).
  { unfold solvent. vm_compute. constructor; [|constructor]. discriminate. }
  destruct (money_routes_need_serial_execution (OwnerKey "o1") clk0
              db_two_awaiting Hu Hs) as (_ & Happ & _ & Hrace).
  split.
  - destruct (run_alone (approve_step (OwnerKey "o1") clk0 0) 5
                at_findTransaction db_two_awaiting) as [[d1 r1]|] eqn:H1;
      [|vm_compute in H1; discriminate].
    destruct (Happ _ _ _ H1) as [Hs1 Hu1].
    destruct (money_routes_need_serial_execution (OwnerKey "o1") clk0 d1 Hu1 Hs1)
      as (_ & Happ1 & _).
    destruct (run_alone (approve_step (OwnerKey "o1") clk0 1) 5
                at_findTransaction d1) as [[d2 r2]|] eqn:H2.
    2:{ vm_compute in H1. injection H1 as <- <-. vm_compute in H2. discriminate. }
    exists d1, d2.
    assert (r1 = Ok) as -> by (vm_compute in H1; by injection H1 as _ <-).
    split; [reflexivity|]. split; [|exact (proj1 (Happ1 _ _ _ H2))].
    vm_compute in H1. injection H1 as <-. vm_compute in H2.
    injection H2 as <- <-. reflexivity.
  - edestruct (Hrace 0%nat 1%nat) as (d' & Hrun & Hbal & Hneg);
      [done|vm_compute; reflexivity|vm_compute; reflexivity|reflexivity
      |reflexivity|reflexivity|vm_compute; reflexivity|vm_compute; reflexivity
      |vm_compute; discriminate|vm_compute; discriminate|].
    exists d'. split; [exact Hrun|]. split; [exact Hbal|].
    apply Hneg. vm_compute. reflexivity.
Defined.
End balances.

(** ** Kill switches: latching, firing and reset *)

Section kill_switches.
Import RulesEngine Transactions Wallets Scenario.

Lemma checkKillSwitch_loop_unlatched clk d walletId kss d1 :
  checkKillSwitch_loop clk d walletId kss = Some (d1, None) →
  Forall (λ ks, latched ks = false) kss.
Proof.
  induction kss as [|ks kss IH]; simpl; [constructor|].
  destruct (latched ks) eqn:Hl; [done|].
  destruct (evaluateKillSwitchCondition clk d ks walletId) as [c|]; [|done].
  simpl. destruct (trigger c).
  - destruct (updateWallet _ _ _) as [d2|]; [|done]. simpl.
    destruct (findWallet d2 walletId); done.
  - intros Hrest. constructor; auto.
Qed.

(** A latched switch among those the gate walks stops the gate. *)
Lemma checkKillSwitch_latched clk d walletId w ks :
  findWallet d walletId = Some w →
  ks ∈ killSwitches d → ks_walletId ks = walletId → ks_active ks = true →
  latched ks = true →
  ∃ d1 st, checkKillSwitch clk d walletId = Some (d1, Some st)
           ∧ gate_frame walletId w d d1.
Proof.
  intros Hw Hin Hid Hact Hl. unfold checkKillSwitch.
  destruct (checkKillSwitch_loop_spec clk d walletId w
              (filter (λ ks, ks_walletId ks = walletId ∧ ks_active ks)
                      (killSwitches d)) Hw)
    as (d1 & st & Hloop & Hfr & _).
  destruct st as [st|]; [by eauto|].
  apply checkKillSwitch_loop_unlatched in Hloop.
  rewrite Forall_forall in Hloop. rewrite (Hloop ks) in Hl; [done|].
  apply list_elem_of_filter. split; [|done]. split; [done|]. by rewrite Hact.
Qed.

(** What the route answers to an admissible request that the engine does
    not approve. *)
Lemma post_rejected auth clk d body id amt wallet d1 ev :
  admissible auth d body id amt wallet →
  evaluateTransaction clk d id (candidateOf amt body) = Some (d1, ev) →
  approved ev = false →
  ∃ t, post auth clk d body
       = Some (set_transactions (create t) d1,
               RejectedByRules (length (transactions d1)) ev
                 (filter (λ r, ¬ rr_passed r) (results ev)))
       ∧ tx_walletId t = id ∧ tx_amount t = amt ∧ tx_status t = REJECTED
       ∧ tx_completedAt t = None.
Proof.
  intros [Hid Hne Hamt Hw Hacc Hact Hpos Hcov] Hev Happ.
  unfold post. rewrite Hid, Hamt.
  assert (truthy (Some id) = true) as ->.
  { simpl. apply negb_true_iff, String.eqb_neq, Hne. }
  rewrite (bool_decide_eq_false_2 (amt == 0)%Q) by lra.
  rewrite (bool_decide_eq_false_2 (amt <= 0)%Q) by lra.
  simpl. rewrite Hw, Hacc, Hact. simpl.
  rewrite (bool_decide_eq_false_2 (w_balance wallet < amt)%Q) by lra.
  simpl. fold (candidateOf amt body). rewrite Hev. simpl. rewrite Happ. simpl.
  eexists. split; [done|]. done.
Qed.

(** A request on a wallet that is not active is refused without a write. *)
Lemma post_inactive auth clk d body id w :
  walletId body = Some id → findWallet d id = Some w →
  w_status w ≠ W_ACTIVE →
  ∃ resp, post auth clk d body = Some (d, resp) ∧ refusal resp.
Proof.
  intros Hid Hw Hst. unfold post. rewrite Hid.
  destruct (amount body) as [amt|]; [|by eexists].
  destruct (_ || _); [by eexists|].
  destruct (bool_decide (amt <= 0)%Q); [by eexists|].
  rewrite Hw. destruct (negb (canAccessAgent _ _ _)); [by eexists|].
  rewrite (bool_decide_eq_false_2 (w_status w = W_ACTIVE)) by done.
  by eexists.
Qed.

(** X5.  A latched kill switch blocks every evaluation.  While a wallet
    carries an active switch with [triggered] set and no [resetAt], the
    evaluation of any candidate, whatever its amount, returns
    [approved = false] and [killSwitched = true] with the single
    KILL_SWITCH entry, reads no spend rule, and writes no transaction.
    The admission route then persists the request as Rejected and leaves
    the balance as it was. *)
Theorem latched_switch_blocks_every_evaluation clk d walletId w ks :
  findWallet d walletId = Some w →
  ks ∈ killSwitches d → ks_walletId ks = walletId → ks_active ks = true →
  latched ks = true →
  (∀ tx, ∃ d1 ev,
     evaluateTransaction clk d walletId tx = Some (d1, ev)
     ∧ approved ev = false ∧ killSwitched ev = true
     ∧ requiresApproval ev = false
     ∧ map rr_ruleType (results ev) = [None]
     ∧ transactions d1 = transactions d)
  ∧ (∀ auth body amt,
       admissible auth d body walletId amt w →
       ∃ d' n ev failed t,
         post auth clk d body = Some (d', RejectedByRules n ev failed)
         ∧ killSwitched ev = true
         ∧ transactions d' = transactions d ++ [t]
         ∧ tx_status t = REJECTED ∧ tx_amount t = amt
         ∧ w_balance <$> findWallet d' walletId = Some (w_balance w)).
Proof.
  intros Hw Hin Hid Hact Hl.
  destruct (checkKillSwitch_latched clk d walletId w ks Hw Hin Hid Hact Hl)
    as (d1 & st & Hks & Hfr).
  assert (Hev : ∀ tx, ∃ ev,
            evaluateTransaction clk d walletId tx = Some (d1, ev)
            ∧ approved ev = false ∧ killSwitched ev = true
            ∧ requiresApproval ev = false
            ∧ map rr_ruleType (results ev) = [None]).
  { intros tx. unfold evaluateTransaction. rewrite Hks. simpl.
    eexists. split; [done|]. done. }
  destruct Hfr as [Htx _ _ (w1 & Hw1 & Hbal & _) _].
  split.
  - intros tx. destruct (Hev tx) as (ev & ? & ? & ? & ? & ?).
    exists d1, ev. repeat split; done.
  - intros auth body amt Hadm.
    destruct (Hev (candidateOf amt body)) as (ev & Heval & Happ & Hk & _).
    destruct (post_rejected auth clk d body walletId amt w d1 ev Hadm Heval Happ)
      as (t & Hpost & _ & Hamt & Hst & _).
    eexists _, _, ev, _, t. split; [exact Hpost|]. split; [done|].
    simpl. rewrite Htx. split; [done|]. split; [done|]. split; [done|].
    unfold findWallet in *. simpl. rewrite Hw1. simpl. by rewrite Hbal.
Qed.

(** w1 is Active with a latched switch: a spend of 10 is evaluated as
    kill-switched, whatever else the wallet's rules would say. *)
Lemma latched_switch_blocks_every_evaluation_witness :
  ∃ d1 ev,
    evaluateTransaction clk0 db_latched "w1" (candidateOf 10 (spend 10))
    = Some (d1, ev)
    ∧ approved ev = false ∧ killSwitched ev = true.
Proof.
  destruct (latched_switch_blocks_every_evaluation clk0 db_latched "w1" w1
              ks_latched) as [Hev _].
  - vm_compute. reflexivity.
  - simpl. apply list_elem_of_singleton. reflexivity.
  - reflexivity.
  - reflexivity.
  - vm_compute. reflexivity.
  - destruct (Hev (candidateOf 10 (spend 10))) as (d1 & ev & He & Ha & Hk & _).
    by exists d1, ev.
Defined.

(** X6.  Unfreezing a wallet does not reset its kill switch.  Any owner
    key (the handler checks the key's type, not whose wallet it is) sets
    an existing wallet to Active whatever its status was, KillSwitched
    included, and touches nothing else: the balance, the kill-switch
    rows, the transactions and the audit log are as before.  A switch
    that was latched therefore still is, and every evaluation on the
    reopened wallet is kill-switched. *)
Theorem unfreeze_reactivates_without_reset ownerId d id w :
  findWallet d id = Some w →
  ∃ d', unfreezeWallet (OwnerKey ownerId) d id = Some (d', Ok)
    ∧ findWallet d' id = Some (with_status W_ACTIVE w)
    ∧ killSwitches d' = killSwitches d
    ∧ transactions d' = transactions d
    ∧ auditLogs d' = auditLogs d
    ∧ ∀ ks clk tx,
        ks ∈ killSwitches d → ks_walletId ks = id → ks_active ks = true →
        latched ks = true →
        ∃ d1 ev, evaluateTransaction clk d' id tx = Some (d1, ev)
                 ∧ approved ev = false ∧ killSwitched ev = true.
Proof.
  intros Hw. unfold unfreezeWallet. rewrite Hw.
  destruct (updateWallet_Some d id (with_status W_ACTIVE) w)
    as (d' & -> & -> & Hw'); [done..|].
  simpl. eexists. split; [done|]. split; [exact Hw'|].
  split; [done|]. split; [done|]. split; [done|].
  intros ks clk tx Hin Hid Hact Hl.
  destruct (checkKillSwitch_latched clk _ id _ ks Hw' Hin Hid Hact Hl)
    as (d1 & st & Hks & _).
  unfold evaluateTransaction. rewrite Hks. simpl. by eexists _, _.
Qed.

(** w1 after its drawdown switch has fired is KillSwitched; an owner key
    of somebody else reopens it, and the switch is still latched. *)
Lemma unfreeze_reactivates_without_reset_witness :
  ∃ d', unfreezeWallet (OwnerKey "somebody") db_fired "w1" = Some (d', Ok)
    ∧ w_status <$> findWallet d' "w1" = Some W_ACTIVE
    ∧ map latched (killSwitches d') = [true].
Proof.
  destruct (unfreeze_reactivates_without_reset "somebody" db_fired "w1"
              (with_status W_KILL_SWITCHED w1))
    as (d' & Hun & Hw & Hks & _).
  - vm_compute. reflexivity.
  - exists d'. split; [exact Hun|]. split; [by rewrite Hw|].
    rewrite Hks. vm_compute. reflexivity.
Defined.

(** X7.  The owner resets a triggered kill switch: the switch row has
    [triggered] cleared, [triggeredAt] and [currentValue] null and
    [resetAt] set to the current instant, its threshold and [active] flag
    unchanged; the wallet is Active again; exactly one KILL_SWITCH_RESET
    audit entry is appended; no transaction is written.  Resetting the
    same switch again is refused with 400, and any other key is refused
    with 403, both without a write. *)
Theorem reset_reopens_the_wallet clk clk' d id ks w a :
  findFirst (λ k, ks_id k = id) (killSwitches d) = Some ks →
  ks_triggered ks = true →
  findWallet d (ks_walletId ks) = Some w →
  findAgent d (w_agentId w) = Some a →
  ∃ d' ks' entry,
    KillSwitchRoutes.reset (OwnerKey (a_ownerId a)) clk d id = Some (d', Ok)
    ∧ findFirst (λ k, ks_id k = id) (killSwitches d') = Some ks'
    ∧ ks_triggered ks' = false ∧ ks_triggeredAt ks' = None
    ∧ ks_resetAt ks' = Some (now clk) ∧ ks_currentValue ks' = None
    ∧ ks_active ks' = ks_active ks ∧ ks_threshold ks' = ks_threshold ks
    ∧ findWallet d' (ks_walletId ks) = Some (with_status W_ACTIVE w)
    ∧ auditLogs d' = auditLogs d ++ [entry]
    ∧ al_action entry = "KILL_SWITCH_RESET" ∧ al_agentId entry = w_agentId w
    ∧ al_resourceId entry = id
    ∧ transactions d' = transactions d
    ∧ KillSwitchRoutes.reset (OwnerKey (a_ownerId a)) clk' d' id
      = Some (d', BadRequest "Kill switch is not triggered")
    ∧ (∀ auth, auth ≠ OwnerKey (a_ownerId a) →
         ∃ e, KillSwitchRoutes.reset auth clk d id = Some (d, Forbidden e)).
Proof.
  intros Hks Htr Hw Ha.
  set (cleared := λ k : KillSwitch,
         {| ks_id := ks_id k; ks_walletId := ks_walletId k;
            ks_triggerType := ks_triggerType k; ks_threshold := ks_threshold k;
            ks_windowHours := ks_windowHours k; ks_active := ks_active k;
            ks_triggered := false; ks_triggeredAt := None;
            ks_resetAt := Some (now clk); ks_currentValue := None |}).
  set (d1 := set_killSwitches (updateMany (λ k, ks_id k = id) cleared) d).
  assert (Hks1 : findFirst (λ k, ks_id k = id) (killSwitches d1)
                 = Some (cleared ks)).
  { subst d1. simpl.
    rewrite (findFirst_updateMany (λ k, ks_id k = id)) by done. by rewrite Hks. }
  assert (Hw1 : findWallet d1 (ks_walletId ks) = Some w) by done.
  destruct (updateWallet_Some d1 (ks_walletId ks) (with_status W_ACTIVE) w)
    as (d2 & Hup & Hd2 & Hw2); [done..|].
  assert (Hreset : resetKillSwitch clk d id (a_ownerId a)
            = Some (logAudit (w_agentId w) (λ agentId,
                {| al_agentId := agentId; al_action := "KILL_SWITCH_RESET";
                   al_resource := "kill_switch"; al_resourceId := id;
                   al_decision := ALLOWED;
                   al_reasoning := ReasonReset (a_ownerId a) (ks_walletId ks) |})
                d2)).
  { unfold resetKillSwitch. rewrite Hks. simpl. rewrite Hw. simpl.
    rewrite Ha. simpl. rewrite decide_True by done.
    fold cleared. fold d1. by rewrite Hup. }
  eexists _, (cleared ks), _. split.
  { unfold KillSwitchRoutes.reset. rewrite Hks, Hw. simpl. rewrite Ha. simpl.
    rewrite bool_decide_eq_true_2 by done. rewrite Htr. simpl.
    by rewrite Hreset. }
  split; [subst d2; exact Hks1|].
  do 6 (split; [done|]).
  split; [exact Hw2|].
  split; [subst d2; done|]. do 3 (split; [done|]).
  split; [subst d2; done|].
  split.
  - unfold KillSwitchRoutes.reset.
    assert (findFirst (λ k, ks_id k = id)
              (killSwitches (logAudit (w_agentId w) (λ agentId,
                {| al_agentId := agentId; al_action := "KILL_SWITCH_RESET";
                   al_resource := "kill_switch"; al_resourceId := id;
                   al_decision := ALLOWED;
                   al_reasoning := ReasonReset (a_ownerId a) (ks_walletId ks) |})
                d2)) = Some (cleared ks)) as ->.
    { subst d2. exact Hks1. }
    simpl ks_walletId.
    assert (∀ f, findWallet (logAudit (w_agentId w) f d2) (ks_walletId ks)
                 = Some (with_status W_ACTIVE w)) as -> by (intros f; exact Hw2).
    simpl.
    assert (∀ f, findAgent (logAudit (w_agentId w) f d2) (w_agentId w) = Some a)
      as ->.
    { intros f. subst d2. exact Ha. }
    simpl. by rewrite bool_decide_eq_true_2.
  - intros auth Hne. unfold KillSwitchRoutes.reset.
    destruct auth as [ownerId|agentId]; [|by eexists].
    rewrite Hks, Hw. simpl. rewrite Ha. simpl.
    rewrite bool_decide_eq_false_2; [by eexists|]. congruence.
Qed.

(** The drawdown switch that fired on w1 is reset by owner o1: w1 is
    Active again and the switch is no longer triggered. *)
Lemma reset_reopens_the_wallet_witness :
  ∃ d', KillSwitchRoutes.reset (OwnerKey "o1") clk0 db_fired "ks1" = Some (d', Ok)
    ∧ w_status <$> findWallet d' "w1" = Some W_ACTIVE
    ∧ map al_action (auditLogs d')
      = ["KILL_SWITCH_TRIGGERED"; "KILL_SWITCH_RESET"].
Proof.
  destruct (findFirst (λ k, ks_id k = "ks1") (killSwitches db_fired))
    as [ks|] eqn:Hks; [|vm_compute in Hks; discriminate].
  destruct (reset_reopens_the_wallet clk0 clk0 db_fired "ks1" ks
              (with_status W_KILL_SWITCHED w1) (agent "a1") Hks)
    as (d' & ks' & entry & Hr & _ & _ & _ & _ & _ & _ & _ & Hw & Hal & Hact & _).
  - vm_compute in Hks. injection Hks as <-. reflexivity.
  - vm_compute in Hks. injection Hks as <-. vm_compute. reflexivity.
  - vm_compute. reflexivity.
  - exists d'. split; [exact Hr|].
    vm_compute in Hks. injection Hks as <-. simpl in Hw.
    split; [by rewrite Hw|]. rewrite Hal, map_app.
    change (map al_action [entry]) with [al_action entry]. rewrite Hact.
    vm_compute. reflexivity.
Defined.

(** X8.  A switch that has been reset once never latches again.  The
    reset stores [resetAt], and firing a switch does not clear it: once
    such a switch fires again its row says [triggered], yet it is not
    latched.  The gate therefore keeps re-evaluating its condition, and
    lets a request through whenever the condition is not met at that
    moment. *)
Theorem reset_switch_never_latches_again clk d id ownerId d' :
  resetKillSwitch clk d id ownerId = Some d' →
  ∀ k, k ∈ killSwitches d' → ks_id k = id →
    ks_resetAt k = Some (now clk)
    ∧ ∀ clk1 v,
        ks_triggered (fire clk1 v k) = true
        ∧ latched (fire clk1 v k) = false
        ∧ ∀ clk2 d2 walletId c,
            evaluateKillSwitchCondition clk2 d2 (fire clk1 v k) walletId = Some c →
            trigger c = false →
            checkKillSwitch_loop clk2 d2 walletId [fire clk1 v k] = Some (d2, None).
Proof.
  unfold resetKillSwitch.
  destruct (findFirst _ (killSwitches d)) as [ks|]; [|done]. simpl.
  destruct (findWallet d (ks_walletId ks)) as [w|]; [|done]. simpl.
  destruct (findAgent d (w_agentId w)) as [a|]; [|done]. simpl.
  case_decide; [|done].
  destruct (updateWallet _ _ _) as [d2|] eqn:Hup; [|done]. simpl.
  intros [= <-] k Hin Hid.
  unfold updateWallet in Hup. simpl in Hup.
  destruct (findWallet _ _); [|done]. simpl in Hup. injection Hup as <-.
  simpl in Hin. unfold updateMany in Hin.
  apply list_elem_of_fmap in Hin as (k0 & -> & Hin0).
  destruct (decide (ks_id k0 = id)) as [Hk0| Hk0]; [|done].
  split; [done|]. intros clk1 v. split; [done|]. split; [done|].
  intros clk2 d2 walletId c Hc Htr. simpl in *. rewrite Hc. simpl.
  by rewrite Htr.
Qed.

(** The switch of w1 fired, was reset by o1, and fires again: it is
    triggered but not latched. *)
Lemma reset_switch_never_latches_again_witness :
  ∃ d' k, resetKillSwitch clk0 db_fired "ks1" "o1" = Some d'
    ∧ killSwitches d' = [k]
    ∧ ks_triggered (fire clk0 (Some (1 # 3)) k) = true
    ∧ latched (fire clk0 (Some (1 # 3)) k) = false.
Proof.
  destruct (resetKillSwitch clk0 db_fired "ks1" "o1") as [d'|] eqn:Hr;
    [|vm_compute in Hr; discriminate].
  destruct (killSwitches d') as [|k [|]] eqn:Hk;
    [vm_compute in Hr; injection Hr as <-; discriminate Hk| |
     vm_compute in Hr; injection Hr as <-; discriminate Hk].
  destruct (reset_switch_never_latches_again clk0 db_fired "ks1" "o1" d' Hr k)
    as [_ Hf].
  - rewrite Hk. apply list_elem_of_singleton. reflexivity.
  - vm_compute in Hr. injection Hr as <-. injection Hk as <-. reflexivity.
  - exists d', k. destruct (Hf clk0 (Some (1 # 3))) as (Ht & Hl & _).
    by repeat split.
Defined.

(** The running balance of the DRAWDOWN_PERCENT loop is a double, and rows
    whose amounts are not positive do not raise it. *)
Lemma running_balance_double b (l : list Transaction) :
  let peak := foldl (λ running t, js_add running (tx_amount t)) (double b) l in
  (double peak == peak)%Q.
Proof.
  induction l as [|t l IH] using rev_ind; simpl.
  - apply double_idem.
  - rewrite foldl_app. simpl. apply double_idem.
Qed.

Lemma running_balance_nonpos b (l : list Transaction) :
  Forall (λ t, tx_amount t <= 0)%Q l →
  (foldl (λ running t, js_add running (tx_amount t)) (double b) l <= double b)%Q.
Proof.
  induction l as [|t l IH] using rev_ind; intros Hl; simpl; [lra|].
  apply Forall_app in Hl as [Hl Ht]. rewrite Forall_singleton in Ht.
  rewrite foldl_app. simpl.
  eapply Qle_trans; [apply js_add_nonpos; exact Ht|].
  eapply Qle_trans; [apply double_mono, IH, Hl|].
  rewrite double_idem. lra.
Qed.

(** X9.  What the DRAWDOWN_PERCENT condition measures.  The rows it reads
    are the Completed transactions of the wallet in the window, whatever
    their category (a deposit counts like a purchase), oldest first.  The
    peak is reconstructed from the current balance by adding their
    amounts, newest first, in double arithmetic.  Once the wallet exists
    the condition never throws, and a switch whose threshold is a positive
    number fires exactly when there is such a row, the peak is positive
    and the rounded quotient (peak - balance) / peak reaches the threshold.
    It fires only if the peak exceeds the balance, hence only if one of the
    rows has a positive amount. *)
Theorem drawdown_counts_every_completed_amount clk d ks walletId w :
  ks_triggerType ks = DRAWDOWN_PERCENT →
  findWallet d walletId = Some w →
  (0 < double (ks_threshold ks))%Q →
  let rows :=
    merge_sort (asc tx_createdAt)
      (filter (counted walletId (now clk - ks_windowHours ks * 3600000))
              (transactions d)) in
  let balance := double (w_balance w) in
  let peak :=
    foldl (λ running t, js_add running (tx_amount t)) balance (reverse rows) in
  ∃ c, evaluateKillSwitchCondition clk d ks walletId = Some c
    ∧ (trigger c = true ↔
       rows ≠ [] ∧ (0 < peak)%Q
       ∧ (double (ks_threshold ks) <= js_div (js_sub peak balance) peak)%Q)
    ∧ (trigger c = true →
       (balance < peak)%Q
       ∧ ∃ t, t ∈ transactions d ∧ tx_walletId t = walletId
              ∧ tx_status t = COMPLETED ∧ (0 < tx_amount t)%Q).
Proof.
  intros Hty Hw Hth rows balance peak.
  assert (Hc : ∃ c, evaluateKillSwitchCondition clk d ks walletId = Some c
    ∧ (trigger c = true ↔
       rows ≠ [] ∧ (0 < peak)%Q
       ∧ (double (ks_threshold ks) <= js_div (js_sub peak balance) peak)%Q)).
  { unfold evaluateKillSwitchCondition. rewrite Hty. cbv zeta.
    match goal with
    | |- context [merge_sort _ ?l] =>
        assert (merge_sort (asc tx_createdAt) l = rows) as ->
          by (subst rows; f_equal; by apply list_filter_iff)
    end.
    case_decide as Hlen.
    - eexists. split; [done|]. simpl. split; [done|]. intros [Hne _].
      by apply nil_length_inv in Hlen.
    - rewrite Hw. simpl. fold balance peak. eexists. split; [done|].
      unfold threshold_hit. cbn [trigger]. rewrite bool_decide_eq_true.
      assert (rows ≠ []) as Hne by (intros Hnil; by rewrite Hnil in Hlen).
      case_decide as Hpos.
      + split; [by intros ?|by intros (_ & _ & ?)].
      + split; [lra|by intros (_ & ? & _)]. }
  destruct Hc as (c & Hc & Htr). exists c. split; [done|]. split; [done|].
  intros (Hne & Hpos & Hle)%Htr. clear Hc Htr.
  pose proof (running_balance_double (w_balance w) (reverse rows)) as Hpk.
  pose proof (running_balance_nonpos (w_balance w) (reverse rows)) as Hno.
  assert (Hbal : (double balance == balance)%Q) by apply double_idem.
  cbv zeta in Hpk. fold balance in Hpk, Hno. fold peak in Hpk, Hno.
  clearbody peak balance.
  assert (Hlt : (balance < peak)%Q).
  { assert (0 < js_div (js_sub peak balance) peak)%Q as Hq
      by (eapply Qlt_le_trans; [exact Hth|exact Hle]).
    apply js_div_pos_inv, Qdiv_pos_inv, double_pos_inv, js_sub_pos_inv in Hq.
    - revert Hq Hpk Hbal. generalize (double peak) (double balance).
      intros dp db Hq Hpk Hbal. lra.
    - revert Hpk Hpos. generalize (double peak). intros dp Hpk Hpos. lra. }
  split; [exact Hlt|].
  destruct (decide (Forall (λ t, tx_amount t <= 0)%Q (reverse rows))) as [Hall|Hex].
  { specialize (Hno Hall). lra. }
  apply not_Forall_Exists in Hex; [|apply _].
  apply Exists_exists in Hex as (t & Hin & Ht). simpl in Ht.
  rewrite elem_of_reverse in Hin. subst rows.
  apply (elem_of_Permutation_proper t _ _ (merge_sort_Permutation _ _)) in Hin.
  apply list_elem_of_filter in Hin as [(Hid & Hst & _) Hin].
  exists t. repeat split; try done. lra.
Qed.

(** db_drawdown: balance 1000 after a Completed 500 in the window, under
    a threshold of one fifth: the quotient is 500 / 1500, and the switch
    fires. *)
Lemma drawdown_counts_every_completed_amount_witness :
  ∃ c, evaluateKillSwitchCondition clk0 db_drawdown
         {| ks_id := "ks1"; ks_walletId := "w1"; ks_triggerType := DRAWDOWN_PERCENT;
            ks_threshold := 1 # 5; ks_windowHours := 24; ks_active := true;
            ks_triggered := false; ks_triggeredAt := None; ks_resetAt := None;
            ks_currentValue := None |} "w1" = Some c
       ∧ trigger c = true.
Proof.
  destruct (drawdown_counts_every_completed_amount clk0 db_drawdown
         {| ks_id := "ks1"; ks_walletId := "w1"; ks_triggerType := DRAWDOWN_PERCENT;
            ks_threshold := 1 # 5; ks_windowHours := 24; ks_active := true;
            ks_triggered := false; ks_triggeredAt := None; ks_resetAt := None;
            ks_currentValue := None |} "w1" w1) as (c & Hc & Htr & _).
  - reflexivity.
  - vm_compute. reflexivity.
  - vm_compute. reflexivity.
  - exists c. split; [exact Hc|]. apply Htr.
    split; [vm_compute; discriminate|].
    split; [vm_compute; reflexivity|]. vm_compute. discriminate.
Defined.

(** A drawdown of exactly the threshold can be missed.  Wallet w1 holds
    0.80 after a Completed 0.20 in the window, under a threshold of 0.2:
    in decimals (1.00 - 0.80) / 1.00 is the threshold, in doubles the
    quotient is 0.19999999999999996 and the switch does not fire. *)
Example drawdown_at_the_threshold_is_missed :
  let w := {| w_id := "w1"; w_agentId := "a1"; w_balance := 8 # 10;
              w_status := W_ACTIVE |} in
  let ks := {| ks_id := "ks1"; ks_walletId := "w1";
               ks_triggerType := DRAWDOWN_PERCENT; ks_threshold := 2 # 10;
               ks_windowHours := 24; ks_active := true; ks_triggered := false;
               ks_triggeredAt := None; ks_resetAt := None;
               ks_currentValue := None |} in
  let d := set_transactions (λ _,
             [{| tx_walletId := "w1"; tx_amount := 2 # 10; tx_recipientId := None;
                 tx_recipientType := EXTERNAL; tx_category := Some "trading";
                 tx_description := None; tx_status := COMPLETED;
                 tx_ruleCheckResults := None; tx_metadata := no_metadata;
                 tx_createdAt := 1699996400000;
                 tx_completedAt := Some 1699996400000%Z |}])
             (set_wallets (λ _, [w]) db_base) in
  (((8 # 10) + (2 # 10) - (8 # 10)) / ((8 # 10) + (2 # 10)) == 2 # 10)%Q
  ∧ evaluateKillSwitchCondition clk0 d ks "w1"
    = Some {| trigger := false;
              currentValue := Some (900719925474099 # 4503599627370496) |}.
Proof. split; vm_compute; reflexivity. Qed.

(** The iteration of the gate that fires, when no switch was latched. *)
Lemma checkKillSwitch_loop_fires clk d walletId w kss d1 st :
  findWallet d walletId = Some w →
  Forall (λ k, latched k = false) kss →
  checkKillSwitch_loop clk d walletId kss = Some (d1, Some st) →
  ∃ ks c, ks ∈ kss ∧ killSwitchId st = ks_id ks
    ∧ evaluateKillSwitchCondition clk d ks walletId = Some c
    ∧ trigger c = true
    ∧ killSwitches d1
      = updateMany (λ k, ks_id k = ks_id ks) (fire clk (currentValue c))
                   (killSwitches d)
    ∧ wallets d1
      = updateMany (λ w, w_id w = walletId) (with_status W_KILL_SWITCHED)
                   (wallets d)
    ∧ (∃ entry, auditLogs d1 = auditLogs d ++ [entry]
         ∧ al_agentId entry = w_agentId w
         ∧ al_action entry = "KILL_SWITCH_TRIGGERED"
         ∧ al_decision entry = BLOCKED)
    ∧ transactions d1 = transactions d ∧ agents d1 = agents d.
Proof.
  intros Hw Hun. induction Hun as [|ks kss Hl _ IH]; simpl; [done|].
  rewrite Hl.
  destruct (evaluateKillSwitchCondition clk d ks walletId) as [c|] eqn:Hc; [|done].
  simpl. destruct (trigger c) eqn:Htr.
  - set (dk := set_killSwitches _ d).
    assert (Hwk : findWallet dk walletId = Some w) by done.
    destruct (updateWallet_Some dk walletId (with_status W_KILL_SWITCHED) w)
      as (d2 & -> & Hd2 & Hw2); [done..|].
    simpl. rewrite Hw2. simpl. intros [= <- <-].
    exists ks, c. split; [by left|]. split; [done|]. split; [done|].
    split; [done|]. subst d2. simpl. split; [done|]. split; [done|].
    split; [|done]. by eexists.
  - intros (k & c' & Hin & ?)%IH. exists k, c'. split; [by right|done].
Qed.

(** X10.  A switch that fires closes the wallet.  When no switch of the
    wallet was latched and an evaluation comes back kill-switched, a
    condition has been met during that evaluation: the wallet now has
    status KILL_SWITCHED with its balance unchanged, a switch row of the
    wallet is triggered with [triggeredAt] at the current instant, one
    KILL_SWITCH_TRIGGERED audit entry with decision BLOCKED has been
    appended for the wallet's agent, and no transaction was written.  From
    then on the admission route refuses every request on that wallet
    without a write. *)
Theorem fired_switch_closes_the_wallet clk d walletId w tx d1 ev :
  findWallet d walletId = Some w →
  (∀ k, k ∈ killSwitches d → ks_walletId k = walletId → latched k = false) →
  evaluateTransaction clk d walletId tx = Some (d1, ev) →
  killSwitched ev = true →
  findWallet d1 walletId = Some (with_status W_KILL_SWITCHED w)
  ∧ (∃ k, k ∈ killSwitches d1 ∧ ks_walletId k = walletId
          ∧ ks_triggered k = true ∧ ks_triggeredAt k = Some (now clk))
  ∧ (∃ entry, auditLogs d1 = auditLogs d ++ [entry]
       ∧ al_agentId entry = w_agentId w
       ∧ al_action entry = "KILL_SWITCH_TRIGGERED"
       ∧ al_decision entry = BLOCKED)
  ∧ transactions d1 = transactions d
  ∧ (∀ auth clk' body, Transactions.walletId body = Some walletId →
       ∃ resp, post auth clk' d1 body = Some (d1, resp) ∧ refusal resp).
Proof.
  intros Hw Hun. unfold evaluateTransaction, checkKillSwitch.
  destruct (checkKillSwitch_loop clk d walletId _) as [[d1' st]|] eqn:Hloop;
    [|done].
  simpl. destruct st as [st|]; [|by intros [= _ <-]].
  intros [= <- _] _.
  apply (checkKillSwitch_loop_fires clk d walletId w) in Hloop
    as (ks & c & [[Hid _] Hin]%list_elem_of_filter & _ & _ & _ & Hks & Hws & Hal
        & Htx & _); [|done|].
  2:{ apply Forall_forall. intros k [[Hk _] Hk']%list_elem_of_filter. auto. }
  assert (Hw1 : findWallet d1' walletId = Some (with_status W_KILL_SWITCHED w)).
  { pose proof (findWallet_set_wallets_update d walletId
                  (with_status W_KILL_SWITCHED)) as Hf.
    unfold findWallet in *. simpl in Hf. rewrite Hws, Hf by done. by rewrite Hw. }
  split; [exact Hw1|]. split.
  { exists (fire clk (currentValue c) ks). rewrite Hks. split; [|done].
    unfold updateMany. apply list_elem_of_fmap. exists ks.
    by rewrite decide_True. }
  split; [exact Hal|]. split; [exact Htx|].
  intros auth clk' body Hbody.
  by apply (post_inactive auth clk' d1' body walletId
              (with_status W_KILL_SWITCHED w)).
Qed.

(** The first admission on db_drawdown fires the switch: w1 is closed and
    the next request is refused without a write. *)
Lemma fired_switch_closes_the_wallet_witness :
  ∃ d1 ev,
    evaluateTransaction clk0 db_drawdown "w1" (candidateOf 10 (spend 10))
    = Some (d1, ev)
    ∧ w_status <$> findWallet d1 "w1" = Some W_KILL_SWITCHED
    ∧ ∃ resp, post (AgentKey "a1") clk0 d1 (spend 10) = Some (d1, resp)
              ∧ refusal resp.
Proof.
  destruct (evaluateTransaction clk0 db_drawdown "w1" (candidateOf 10 (spend 10)))
    as [[d1 ev]|] eqn:Hev; [|vm_compute in Hev; discriminate].
  destruct (fired_switch_closes_the_wallet clk0 db_drawdown "w1" w1
              (candidateOf 10 (spend 10)) d1 ev) as (Hw & _ & _ & _ & Hpost).
  - vm_compute. reflexivity.
  - intros k Hk _. simpl in Hk. apply list_elem_of_singleton in Hk as ->.
    reflexivity.
  - exact Hev.
  - vm_compute in Hev. injection Hev as _ <-. reflexivity.
  - exists d1, ev. split; [reflexivity|]. split; [by rewrite Hw|].
    apply Hpost. reflexivity.
Defined.
End kill_switches.

(** ** Rules: what a verdict depends on *)

Section verdicts.
Import RulesEngine Scenario.

Lemma le_nan_mono a a' b : (a' <= a)%Q → le_nan a b = true → le_nan a' b = true.
Proof.
  unfold le_nan. destruct b as [b|]; [|done].
  rewrite !bool_decide_eq_true. lra.
Qed.

Lemma evaluateRule_mono clk d walletId tx tx' r :
  same_but_amount tx tx' → (t_amount tx' <= t_amount tx)%Q →
  (cr_passed (evaluateRule clk d r walletId tx) = true →
   cr_passed (evaluateRule clk d r walletId tx') = true)
  ∧ (cr_requiresApproval (evaluateRule clk d r walletId tx') = true →
     cr_requiresApproval (evaluateRule clk d r walletId tx) = true).
Proof.
  intros (Hc & Hr & Hm) Ha. unfold evaluateRule. rewrite Hc, Hr, Hm.
  destruct (r_ruleType r); try done;
    unfold checkPerTransactionLimit, checkDailyLimit, checkWeeklyLimit,
      checkMonthlyLimit, checkRequiresApproval, blocking;
    cbn [cr_passed cr_requiresApproval].
  - split; [apply le_nan_mono; lra|done].
  - split; [apply le_nan_mono, js_add_mono; lra|done].
  - split; [apply le_nan_mono, js_add_mono; lra|done].
  - split; [apply le_nan_mono, js_add_mono; lra|done].
  - split; [done|]. rewrite !gt_nan_spec.
    intros (th & -> & Hlt). exists th. split; [done|lra].
Qed.

(** X11.  Approval is monotone in the amount.  If the engine approves a
    candidate, it approves, in the same store and at the same instant,
    every candidate that differs only by a smaller amount; and if the
    larger one needs no human approval, neither does the smaller one. *)
Theorem smaller_amount_is_approved clk d walletId tx tx' d1 ev :
  same_but_amount tx tx' → (t_amount tx' <= t_amount tx)%Q →
  evaluateTransaction clk d walletId tx = Some (d1, ev) →
  approved ev = true →
  ∃ ev', evaluateTransaction clk d walletId tx' = Some (d1, ev')
    ∧ approved ev' = true
    ∧ (requiresApproval ev = false → requiresApproval ev' = false)
    ∧ map rr_ruleId (results ev') = map rr_ruleId (results ev).
Proof.
  intros Hsame Ha. unfold evaluateTransaction.
  destruct (checkKillSwitch clk d walletId) as [[d1' st]|]; [|done]. simpl.
  destruct st as [st|]; [by intros [= _ <-]|].
  rewrite !ruleStep_fold. simpl. intros [= <- <-]. simpl.
  intros Happ. eexists. split; [done|]. simpl.
  revert Happ. generalize (activeRules d1' walletId) as rules. intros rules Happ.
  split; [|split].
  - induction rules as [|r rules IH]; [done|]. simpl in *.
    apply andb_true_iff in Happ as [Hr Hrest].
    apply andb_true_iff. split; [|by apply IH].
    by apply (evaluateRule_mono clk d1' walletId tx tx' r).
  - clear Happ. induction rules as [|r rules IH]; [done|]. simpl.
    intros [Hr Hrest]%orb_false_iff. apply orb_false_iff. split; [|by apply IH].
    destruct (cr_requiresApproval (evaluateRule clk d1' r walletId tx')) eqn:Hf;
      [|done].
    apply (evaluateRule_mono clk d1' walletId tx tx' r) in Hf; [|done..].
    congruence.
  - rewrite <- !list_fmap_compose. done.
Qed.

(** On w1 a spend of 50 is approved; so is the same spend of 20. *)
Lemma smaller_amount_is_approved_witness :
  ∃ ev', evaluateTransaction clk0 db_base "w1" (candidateOf 20 (spend 20))
         = Some (db_base, ev')
    ∧ approved ev' = true.
Proof.
  destruct (evaluateTransaction clk0 db_base "w1" (candidateOf 50 (spend 50)))
    as [[d1 ev]|] eqn:Hev; [|vm_compute in Hev; discriminate].
  destruct (smaller_amount_is_approved clk0 db_base "w1"
              (candidateOf 50 (spend 50)) (candidateOf 20 (spend 20)) d1 ev)
    as (ev' & Hev' & Happ & _).
  - repeat split.
  - unfold Qle. simpl. lia.
  - exact Hev.
  - vm_compute in Hev. injection Hev as _ <-. reflexivity.
  - exists ev'. vm_compute in Hev. injection Hev as <- _. by split.
Defined.

Lemma list_rule_passes clk d walletId tx r :
  truthy (t_category tx) = false → truthy (t_recipientId tx) = false →
  isListRule r → cr_passed (evaluateRule clk d r walletId tx) = true.
Proof.
  intros Hc Hr. unfold isListRule, evaluateRule. set_unfold.
  intros [->|[->|[->|[->|[]]]]]; simpl; by rewrite ?Hc, ?Hr.
Qed.

(** X12.  A request that names no category and no recipient is not
    subject to the whitelists and blacklists.  When the kill-switch gate
    lets the request through and its category and recipient are absent
    (or empty), each of the four list rules passes whatever its list, so
    the verdict is the conjunction over the remaining active rules; a
    wallet governed by list rules alone approves it. *)
Theorem unnamed_request_passes_list_rules clk d walletId tx d1 :
  checkKillSwitch clk d walletId = Some (d1, None) →
  truthy (t_category tx) = false → truthy (t_recipientId tx) = false →
  ∃ ev, evaluateTransaction clk d walletId tx = Some (d, ev)
    ∧ approved ev
      = forallb (λ r, cr_passed (evaluateRule clk d r walletId tx))
          (filter (λ r, ¬ isListRule r) (activeRules d walletId))
    ∧ (Forall isListRule (activeRules d walletId) →
       approved ev = true ∧ requiresApproval ev = false).
Proof.
  intros Hks Hc Hr.
  assert (d1 = d) as -> by (eapply checkKillSwitch_loop_pass, Hks).
  unfold evaluateTransaction. rewrite Hks. simpl. rewrite ruleStep_fold. simpl.
  eexists. split; [done|]. simpl.
  generalize (activeRules d walletId) as rules. intros rules. split.
  - induction rules as [|r rules IH]; [done|]. rewrite filter_cons. simpl.
    destruct (decide (¬ isListRule r)) as [Hn|Hl]; simpl; [by rewrite IH|].
    apply dec_stable in Hl. by rewrite (list_rule_passes clk d walletId tx r).
  - induction 1 as [|r rules Hl _ IH]; [done|]. simpl.
    rewrite (list_rule_passes clk d walletId tx r) by done.
    assert (cr_requiresApproval (evaluateRule clk d r walletId tx) = false) as ->.
    { apply blocking_rule_no_flag. unfold isApprovalThreshold, isListRule in *.
      intros Heq. rewrite Heq in Hl.
      repeat (apply elem_of_cons in Hl as [Hl|Hl]; [discriminate Hl|]).
      by apply elem_of_nil in Hl. }
    exact IH.
Qed.

(** w1 accepts the category "software" only; a request of 10 that names
    no category and no recipient is approved. *)
Lemma unnamed_request_passes_list_rules_witness :
  let d := db_with [rule "r1" "w1" CATEGORY_WHITELIST
                      {| p_limit := None; p_threshold := None;
                         p_categories := Some ["software"];
                         p_recipients := None; p_startHour := None;
                         p_endHour := None; p_allowedSignals := None;
                         p_throttled := false |} 1] in
  let tx := {| t_amount := 10; t_category := None; t_recipientId := None;
               t_metadata := no_metadata |} in
  ∃ ev, evaluateTransaction clk0 d "w1" tx = Some (d, ev) ∧ approved ev = true.
Proof.
  intros d tx.
  destruct (unnamed_request_passes_list_rules clk0 d "w1" tx d)
    as (ev & Hev & _ & Hall).
  - vm_compute. reflexivity.
  - reflexivity.
  - reflexivity.
  - exists ev. split; [exact Hev|]. apply Hall.
    vm_compute. constructor; [|constructor].
    apply list_elem_of_here.
Defined.

(** X13.  The time windows the rule routes accept.  Parameters that pass
    the validation of a TIME_WINDOW rule carry two hours between 0 and 23,
    and the rule passes exactly when start <= current UTC hour < end.
    Hence no accepted window admits a transaction during hour 23, and a
    window whose end is not after its start (one meant to wrap midnight,
    22 to 6, is accepted by the validation) admits none at any hour. *)
Theorem validated_time_window params :
  Rules.validateRuleParameters TIME_WINDOW params = true →
  ∃ startHour endHour,
    p_startHour params = Some startHour ∧ p_endHour params = Some endHour
    ∧ (0 ≤ startHour ≤ 23)%Z ∧ (0 ≤ endHour ≤ 23)%Z
    ∧ ∀ clk,
        (cr_passed (checkTimeWindow clk params) = true
         ↔ (startHour ≤ currentHourUTC clk < endHour)%Z)
        ∧ (currentHourUTC clk = 23%Z →
           cr_passed (checkTimeWindow clk params) = false)
        ∧ ((endHour ≤ startHour)%Z →
           cr_passed (checkTimeWindow clk params) = false).
Proof.
  unfold Rules.validateRuleParameters, checkTimeWindow.
  destruct (p_startHour params) as [s|]; [|done].
  destruct (p_endHour params) as [e|]; [|done].
  intros Hv. apply negb_true_iff in Hv.
  repeat (apply orb_false_iff in Hv as [Hv ?]).
  repeat match goal with
         | H : bool_decide _ = false |- _ => apply bool_decide_eq_false in H
         end.
  exists s, e. split; [done|]. split; [done|]. split; [lia|]. split; [lia|].
  intros clk. simpl. split; [|split].
  - rewrite andb_true_iff, !bool_decide_eq_true. lia.
  - intros H23. apply andb_false_iff. right. apply bool_decide_eq_false. lia.
  - intros Hwrap. apply andb_false_iff.
    destruct (decide (s ≤ currentHourUTC clk)%Z).
    + right. apply bool_decide_eq_false. lia.
    + left. by apply bool_decide_eq_false.
Qed.

(** A window from 22 to 6 passes the validation and rejects at 22:13. *)
Lemma validated_time_window_witness :
  cr_passed (checkTimeWindow clk0
    {| p_limit := None; p_threshold := None; p_categories := None;
       p_recipients := None; p_startHour := Some 22%Z; p_endHour := Some 6%Z;
       p_allowedSignals := None; p_throttled := false |}) = false.
Proof.
  destruct (validated_time_window
    {| p_limit := None; p_threshold := None; p_categories := None;
       p_recipients := None; p_startHour := Some 22%Z; p_endHour := Some 6%Z;
       p_allowedSignals := None; p_throttled := false |})
    as (s & e & Hs & He & _ & _ & Hclk).
  - vm_compute. reflexivity.
  - destruct (Hclk clk0) as (_ & _ & Hwrap). apply Hwrap.
    simpl in Hs, He. injection Hs as <-. injection He as <-. lia.
Defined.
End verdicts.

(** ** Dead-man switch: what a trigger writes, and the controls *)

Section dead_man_controls.
Import DeadManSwitch Scenario.

Lemma throttleWallet_shape d w : ∃ G, throttleWallet d w = set_spendRules G d.
Proof.
  unfold throttleWallet.
  generalize (filter (λ r, r_walletId r = w_id w ∧ r_ruleType r = DAILY_LIMIT
                           ∧ r_active r) (spendRules d)) as rules.
  intros rules. revert d. induction rules as [|r rules IH]; intros d; simpl.
  - exists id. by destruct d.
  - destruct (IH (set_spendRules
                    (updateMany (λ r0, r_id r0 = r_id r)
                       (with_parameters (throttled (r_parameters r)))) d))
      as [G ->].
    by exists (λ l, G (updateMany (λ r0, r_id r0 = r_id r)
                        (with_parameters (throttled (r_parameters r))) l)).
Qed.

Lemma throttle_shape ws d : ∃ G, foldl throttleWallet d ws = set_spendRules G d.
Proof.
  revert d. induction ws as [|w ws IH]; intros d; simpl.
  - exists id. by destruct d.
  - destruct (throttleWallet_shape d w) as [G1 ->].
    destruct (IH (set_spendRules G1 d)) as [G2 ->].
    by exists (λ l, G2 (G1 l)).
Qed.

Lemma cascade_fold_shape status cs s d acc :
  ∃ Fz F,
    foldl (λ '(s, d, cascadedTo) childId,
             (add_frozen childId s,
              set_agents (updateMany (λ a, a_id a = childId)
                                     (with_agent_status status)) d,
              cascadedTo ++ [childId]))
          (s, d, acc) cs
    = ({| _frozenAgents := Fz; _heartbeats := _heartbeats s;
          _txWindows := _txWindows s |}, set_agents F d, acc ++ cs)
    ∧ _frozenAgents s ⊆ Fz.
Proof.
  revert s d acc. induction cs as [|c cs IH]; intros s d acc; simpl.
  - exists (_frozenAgents s), id. rewrite app_nil_r.
    split; [by destruct s, d|done].
  - destruct (IH (add_frozen c s)
                (set_agents (updateMany (λ a, a_id a = c)
                               (with_agent_status status)) d) (acc ++ [c]))
      as (Fz & F & -> & Hsub).
    exists Fz, (λ l, F (updateMany (λ a, a_id a = c)
                          (with_agent_status status) l)).
    rewrite <- app_assoc. split; [done|].
    etrans; [|exact Hsub]. simpl. apply union_subseteq_r.
Qed.

Lemma cascade_shape status agentId config s d :
  ∃ Fz F cascadedTo,
    cascade status agentId config s d
    = ({| _frozenAgents := Fz; _heartbeats := _heartbeats s;
          _txWindows := _txWindows s |}, set_agents F d, cascadedTo)
    ∧ _frozenAgents s ⊆ Fz
    ∧ (config = None → Fz = _frozenAgents s ∧ cascadedTo = []
                       ∧ set_agents F d = d).
Proof.
  unfold cascade. destruct config as [config|]; simpl.
  - destruct (cascadeToChildren config).
    + destruct (findFirst _ (lineages d)) as [lineage|].
      * destruct (cascade_fold_shape status (l_childrenIds lineage) s d [])
          as (Fz & F & -> & Hsub).
        exists Fz, F, (l_childrenIds lineage). done.
      * exists (_frozenAgents s), id, []. split; [by destruct s, d|done].
    + exists (_frozenAgents s), id, []. split; [by destruct s, d|done].
  - exists (_frozenAgents s), id, []. split; [by destruct s, d|].
    split; [done|]. intros _. by destruct d.
Qed.

(** What a trigger can write: the frozen set, the agent rows, the spend
    rules (when it throttles), the lineage rows (when it terminates), and
    one event. *)
Lemma trigger_shape s d agentId ty action details config :
  ∃ Fz F G H cascadedTo,
    _trigger s d agentId ty action details config
    = ({| _frozenAgents := Fz; _heartbeats := _heartbeats s;
          _txWindows := _txWindows s |},
       set_dmsEvents (create
         {| e_agentId := agentId; e_triggerType := ty;
            e_actionTaken := Some action; e_details := details;
            e_cascadedTo := cascadedTo; e_resolved := false |})
         (set_lineages H (set_spendRules G (set_agents F d))))
    ∧ _frozenAgents s ⊆ Fz
    ∧ (action = freeze ∨ action = terminate → agentId ∈ Fz)
    ∧ (action ≠ freeze → action ≠ terminate → Fz = _frozenAgents s).
Proof.
  unfold _trigger. destruct action.
  - exists (_frozenAgents s), id, id, id, []. split; [by destruct s, d|].
    split; [done|]. split; [by intros [|]|done].
  - destruct (throttle_shape (filter (λ w, w_agentId w = agentId) (wallets d)) d)
      as [G ->].
    exists (_frozenAgents s), id, G, id, []. split; [by destruct s, d|].
    split; [done|]. split; [by intros [|]|done].
  - destruct (cascade_shape A_FROZEN agentId config (add_frozen agentId s)
                (set_agents (updateMany (λ a, a_id a = agentId)
                               (with_agent_status A_FROZEN)) d))
      as (Fz & F & cascadedTo & -> & Hsub & _).
    exists Fz, (λ l, F (updateMany (λ a, a_id a = agentId)
                          (with_agent_status A_FROZEN) l)), id, id, cascadedTo.
    split; [by destruct d|]. simpl in Hsub.
    assert (agentId ∈ Fz).
    { apply Hsub, elem_of_union_l, elem_of_singleton_2. done. }
    split; [|split; [done|done]].
    etrans; [|exact Hsub]. apply union_subseteq_r.
  - destruct (cascade_shape A_TERMINATED agentId config (add_frozen agentId s)
                (set_lineages (updateMany (λ l, l_agentId l = agentId)
                                 (with_lineage_status L_terminated))
                  (set_agents (updateMany (λ a, a_id a = agentId)
                                 (with_agent_status A_TERMINATED)) d)))
      as (Fz & F & cascadedTo & -> & Hsub & _).
    exists Fz, (λ l, F (updateMany (λ a, a_id a = agentId)
                          (with_agent_status A_TERMINATED) l)), id,
           (updateMany (λ l, l_agentId l = agentId)
              (with_lineage_status L_terminated)), cascadedTo.
    split; [by destruct d|]. simpl in Hsub.
    assert (agentId ∈ Fz).
    { apply Hsub, elem_of_union_l, elem_of_singleton_2. done. }
    split; [|split; [done|done]].
    etrans; [|exact Hsub]. apply union_subseteq_r.
  - exists (_frozenAgents s), id, id, id, []. split; [by destruct s, d|].
    split; [done|]. split; [by intros [|]|done].
Qed.

Lemma window_init s agentId :
  let s0 := if bool_decide (is_Some (_txWindows s !! agentId)) then s
            else set_window agentId [] s in
  default [] (_txWindows s0 !! agentId) = default [] (_txWindows s !! agentId)
  ∧ _frozenAgents s0 = _frozenAgents s ∧ _heartbeats s0 = _heartbeats s.
Proof.
  simpl. case_bool_decide as Hs; [done|]. simpl. rewrite lookup_insert_eq.
  split; [|done]. destruct (_txWindows s !! agentId) eqn:E; [|done].
  exfalso. apply Hs. by eexists.
Qed.

Lemma gate_allowed clk s d agentId amount vendor config s' d' g :
  agentId ∉ _frozenAgents s →
  _getConfig d agentId = Some config → enabled config = true →
  evaluateTransaction clk s d agentId amount vendor = (s', d', g) →
  allow g = true →
  _frozenAgents s' = _frozenAgents s
  ∧ _heartbeats s' = _heartbeats s
  ∧ _txWindows s' !! agentId
    = Some (filter (λ t, (now clk - 3600000 < t)%Z)
              (default [] (_txWindows s !! agentId) ++ [now clk]))
  ∧ dmsConfigs d' = dmsConfigs d
  ∧ transactions d' = transactions d ∧ wallets d' = wallets d.
Proof.
  intros Hf Hc He. unfold evaluateTransaction.
  rewrite bool_decide_eq_false_2 by done. rewrite Hc, He. simpl.
  destruct (window_init s agentId) as (Hwin & Hfz & Hhb).
  set (s0 := if bool_decide (is_Some (_txWindows s !! agentId)) then s
             else set_window agentId [] s) in *.
  rewrite Hwin. clearbody s0.
  case_bool_decide as Hvel.
  { destruct (_trigger s0 d agentId T_velocity _ _ _) as [s1 d1]. simpl. by intros [= <- <- <-]. }
  destruct (truthy vendor && _).
  { destruct (_trigger s0 d agentId T_velocity _ _ _) as [s1 d1]. simpl. by intros [= <- <- <-]. }
  destruct (bool_decide (0 < _)%Q && _) eqn:Han; simpl.
  - destruct (trigger_shape s0 d agentId T_anomaly (onAnomaly config)
       (D_anomaly
          (spendSince d agentId (now clk - anomalyWindowMinutes config * 60000) + amount)
          (_getHistoricalAverage clk d agentId (anomalyWindowMinutes config))
          (anomalySpendMultiplier config)) (Some config))
      as (Fz & F & G & H & cs & -> & _ & _ & Hsame).
    destruct (bool_decide (onAnomaly config ∈ [freeze; terminate])) eqn:Hact;
      [by intros [= <- <- <-]|]. apply bool_decide_eq_false in Hact.
    intros [= <- <- <-] _. simpl. rewrite lookup_insert_eq.
    rewrite Hsame, Hfz, Hhb; [done| |].
    + intros Heq. apply Hact. rewrite Heq. apply list_elem_of_here.
    + intros Heq. apply Hact. rewrite Heq. apply list_elem_of_further, list_elem_of_here.
  - intros [= <- <- <-] _. simpl. rewrite lookup_insert_eq. by rewrite Hfz, Hhb.
Qed.

Lemma gate_blocked clk s d agentId amount vendor config s' d' g :
  agentId ∉ _frozenAgents s →
  _getConfig d agentId = Some config → enabled config = true →
  evaluateTransaction clk s d agentId amount vendor = (s', d', g) →
  allow g = false →
  default [] (_txWindows s' !! agentId) = default [] (_txWindows s !! agentId)
  ∧ _frozenAgents s ⊆ _frozenAgents s'
  ∧ ∃ e, dmsEvents d' = dmsEvents d ++ [e]
      ∧ e_agentId e = agentId
      ∧ e_actionTaken e = Some (onAnomaly config)
      ∧ e_resolved e = false
      ∧ e_triggerType e
        = match reason g with
          | Some AnomalousSpending => T_anomaly
          | _ => T_velocity
          end.
Proof.
  intros Hf Hc He. unfold evaluateTransaction.
  rewrite bool_decide_eq_false_2 by done. rewrite Hc, He. simpl.
  destruct (window_init s agentId) as (Hwin & Hfz & Hhb).
  set (s0 := if bool_decide (is_Some (_txWindows s !! agentId)) then s
             else set_window agentId [] s) in *.
  rewrite Hwin. clearbody s0.
  case_bool_decide as Hvel.
  { destruct (trigger_shape s0 d agentId T_velocity (onAnomaly config)
       (D_txPerMinute
          (length (filter (λ t, (now clk - 60000 < t)%Z)
                     (default [] (_txWindows s !! agentId))))
          (maxTxPerMinute config)) (Some config))
      as (Fz & F & G & H & cs & -> & Hsub & _).
    intros [= <- <- <-] _. simpl. rewrite <- Hfz. split; [done|].
    split; [done|]. by eexists. }
  destruct (truthy vendor && _).
  { match goal with
    | |- context [_trigger s0 d agentId T_velocity ?a ?det ?c] =>
        destruct (trigger_shape s0 d agentId T_velocity a det c)
          as (Fz & F & G & H & cs & -> & Hsub & _)
    end.
    intros [= <- <- <-] _. simpl. rewrite <- Hfz. split; [done|].
    split; [done|]. by eexists. }
  destruct (bool_decide (0 < _)%Q && _) eqn:Han; simpl.
  - destruct (trigger_shape s0 d agentId T_anomaly (onAnomaly config)
       (D_anomaly
          (spendSince d agentId (now clk - anomalyWindowMinutes config * 60000) + amount)
          (_getHistoricalAverage clk d agentId (anomalyWindowMinutes config))
          (anomalySpendMultiplier config)) (Some config))
      as (Fz & F & G & H & cs & -> & Hsub & _).
    destruct (bool_decide (onAnomaly config ∈ [freeze; terminate]));
      [|by intros [= <- <- <-]].
    intros [= <- <- <-] _. simpl. rewrite <- Hfz. split; [done|].
    split; [done|]. by eexists.
  - by intros [= <- <- <-].
Qed.

(** X14.  The dead-man gate keeps its own books.  For an agent that is
    not frozen and has an enabled config: a call the gate allows stores
    the agent's window as the former timestamps plus the current instant,
    trimmed to the last hour, and leaves the frozen set as it was; a call
    the gate blocks leaves the window as it was and appends exactly one
    unresolved DeadManSwitchEvent for the agent, with the config's
    [onAnomaly] action. *)
Theorem gate_records_what_it_decides clk s d agentId amount vendor config s' d' g :
  agentId ∉ _frozenAgents s →
  _getConfig d agentId = Some config → enabled config = true →
  evaluateTransaction clk s d agentId amount vendor = (s', d', g) →
  let window := default [] (_txWindows s !! agentId) in
  (allow g = true →
     _txWindows s' !! agentId
     = Some (filter (λ t, (now clk - 3600000 < t)%Z) (window ++ [now clk]))
     ∧ _frozenAgents s' = _frozenAgents s)
  ∧ (allow g = false →
     default [] (_txWindows s' !! agentId) = window
     ∧ ∃ e, dmsEvents d' = dmsEvents d ++ [e]
         ∧ e_agentId e = agentId
         ∧ e_actionTaken e = Some (onAnomaly config)
         ∧ e_resolved e = false).
Proof.
  intros Hf Hc He Hev window. split; intros Hg.
  - destruct (gate_allowed clk s d agentId amount vendor config s' d' g
                Hf Hc He Hev Hg) as (? & _ & ? & _).
    done.
  - destruct (gate_blocked clk s d agentId amount vendor config s' d' g
                Hf Hc He Hev Hg) as (? & _ & e & ? & ? & ? & ? & _).
    split; [done|]. by exists e.
Qed.

(** a1 is at its limit of three calls a minute: the fourth is blocked and
    recorded as one event with action alert. *)
Lemma gate_records_what_it_decides_witness :
  ∃ s' d' g e,
    evaluateTransaction clk0 s_busy db_dms "a1" 10 (Some "vendor.example")
    = (s', d', g)
    ∧ allow g = false ∧ dmsEvents d' = [e] ∧ e_actionTaken e = Some alert.
Proof.
  destruct (evaluateTransaction clk0 s_busy db_dms "a1" 10 (Some "vendor.example"))
    as [[s' d'] g] eqn:Hev.
  destruct (gate_records_what_it_decides clk0 s_busy db_dms "a1" 10
              (Some "vendor.example") (dms_config "a1" alert) s' d' g)
    as [_ Hblocked].
  - apply (bool_decide_eq_false_1 ("a1" ∈ _frozenAgents s_busy)).
    vm_compute. reflexivity.
  - vm_compute. reflexivity.
  - reflexivity.
  - exact Hev.
  - assert (allow g = false) as Hg.
    { vm_compute in Hev. injection Hev as _ _ <-. reflexivity. }
    destruct (Hblocked Hg) as (_ & e & He & _ & Hact & _).
    exists s', d', g, e. by repeat split.
Defined.

Lemma filter_filter_impl (P Q : Z → Prop) `{∀ x, Decision (P x)}
    `{∀ x, Decision (Q x)} (l : list Z) :
  (∀ x, P x → Q x) → filter P (filter Q l) = filter P l.
Proof.
  intros HPQ. induction l as [|x l IH]; [done|].
  rewrite !filter_cons. destruct (decide (Q x)) as [HQ|HQ].
  - rewrite filter_cons. destruct (decide (P x)); by rewrite IH.
  - rewrite decide_False by auto. exact IH.
Qed.

(** X15.  The velocity limit counts the calls the gate has allowed.  After
    an allowed call at instant [now], a later call is blocked with the
    velocity reason, whatever its amount and vendor, as soon as the
    timestamps of the last minute, the one just recorded included, reach
    [maxTxPerMinute]. *)
Theorem velocity_limit_counts_allowed_calls clk clk' s d agentId amount vendor
    amount' vendor' config s1 d1 g :
  agentId ∉ _frozenAgents s →
  _getConfig d agentId = Some config → enabled config = true →
  evaluateTransaction clk s d agentId amount vendor = (s1, d1, g) →
  allow g = true →
  (now clk ≤ now clk')%Z →
  (maxTxPerMinute config
   ≤ Z.of_nat (length (filter (λ t, (now clk' - 60000 < t)%Z)
                         (default [] (_txWindows s !! agentId) ++ [now clk]))))%Z →
  (evaluateTransaction clk' s1 d1 agentId amount' vendor').2
  = blocked VelocityLimit.
Proof.
  intros Hf Hc He Hev Hg Hclk Hmax.
  destruct (gate_allowed clk s d agentId amount vendor config s1 d1 g
              Hf Hc He Hev Hg) as (Hfz & _ & Hwin & Hcfg & _).
  unfold evaluateTransaction.
  rewrite bool_decide_eq_false_2 by (by rewrite Hfz).
  unfold _getConfig in *. rewrite Hcfg, Hc, He. simpl.
  rewrite (bool_decide_eq_true_2 (is_Some (_txWindows s1 !! agentId)))
    by (by rewrite Hwin).
  rewrite Hwin. simpl.
  rewrite (filter_filter_impl (λ t, (now clk' - 60000 < t)%Z)
             (λ t, (now clk - 3600000 < t)%Z)) by (intros x; lia).
  rewrite bool_decide_eq_true_2 by done.
  by destruct (_trigger _ _ _ _ _ _ _).
Qed.

(** a1 may make three calls a minute and has made two: the third is
    allowed, and a fourth at the same instant is blocked. *)
Lemma velocity_limit_counts_allowed_calls_witness :
  ∃ s1 d1 g,
    evaluateTransaction clk0 s_two db_dms "a1" 10 (Some "vendor.example")
    = (s1, d1, g)
    ∧ allow g = true
    ∧ (evaluateTransaction clk0 s1 d1 "a1" 10 (Some "vendor.example")).2
      = blocked VelocityLimit.
Proof.
  destruct (evaluateTransaction clk0 s_two db_dms "a1" 10 (Some "vendor.example"))
    as [[s1 d1] g] eqn:Hev.
  assert (allow g = true) as Hg.
  { vm_compute in Hev. injection Hev as _ _ <-. reflexivity. }
  exists s1, d1, g. split; [reflexivity|]. split; [exact Hg|].
  apply (velocity_limit_counts_allowed_calls clk0 clk0 s_two db_dms "a1" 10
           (Some "vendor.example") 10 (Some "vendor.example")
           (dms_config "a1" alert) s1 d1 g).
  - apply (bool_decide_eq_false_1 ("a1" ∈ _frozenAgents s_two)).
    vm_compute. reflexivity.
  - vm_compute. reflexivity.
  - reflexivity.
  - exact Hev.
  - exact Hg.
  - lia.
  - vm_compute. discriminate.
Defined.

(** X16.  The heartbeat deadline.  For an agent that is not frozen and has
    an enabled config, the monitor does nothing while the last beat is at
    most interval * threshold seconds old, the bound included.  Past it,
    with [onMissedHeartbeat] freeze or terminate, the agent joins the
    frozen set and one heartbeat event is recorded with the whole seconds
    elapsed; from then on the transaction gate blocks every call of the
    agent as frozen, its heartbeats are answered 'frozen' and no longer
    refresh anything, and the monitor skips it. *)
Theorem missed_heartbeat_stops_the_agent clk s d agentId lastBeat config :
  agentId ∉ _frozenAgents s →
  _getConfig d agentId = Some config → enabled config = true →
  let maxGap :=
    (heartbeatIntervalSeconds config * missedHeartbeatThreshold config)%Z in
  ((now clk - lastBeat ≤ maxGap * 1000)%Z →
     DeadManControls.checkHeartbeat clk s d agentId lastBeat = (s, d))
  ∧ ((maxGap * 1000 < now clk - lastBeat)%Z →
     onMissedHeartbeat config = freeze ∨ onMissedHeartbeat config = terminate →
     ∃ s' d' e,
       DeadManControls.checkHeartbeat clk s d agentId lastBeat = (s', d')
       ∧ agentId ∈ _frozenAgents s'
       ∧ dmsEvents d' = dmsEvents d ++ [e]
       ∧ e_triggerType e = T_heartbeat
       ∧ e_actionTaken e = Some (onMissedHeartbeat config)
       ∧ e_details e = D_heartbeat ((now clk - lastBeat) / 1000) maxGap
       ∧ (∀ clk' amount vendor,
            evaluateTransaction clk' s' d' agentId amount vendor
            = (s', d', blocked AgentIsFrozen))
       ∧ (∀ clk',
            DeadManControls.heartbeat clk' s' d' agentId
            = (s', {| DeadManControls.b_frozen := true;
                      DeadManControls.b_directive :=
                        DeadManControls.cease_all_transactions;
                      DeadManControls.nextHeartbeatDue := None |}))
       ∧ (∀ clk' lastBeat',
            DeadManControls.checkHeartbeat clk' s' d' agentId lastBeat'
            = (s', d'))).
Proof.
  intros Hf Hc He maxGap. unfold DeadManControls.checkHeartbeat at 1 2.
  rewrite bool_decide_eq_false_2 by done. rewrite Hc, He. simpl. fold maxGap.
  split.
  - intros Hle. by rewrite bool_decide_eq_false_2 by lia.
  - intros Hlt Hact. rewrite bool_decide_eq_true_2 by lia.
    destruct (trigger_shape s d agentId T_heartbeat (onMissedHeartbeat config)
                (D_heartbeat ((now clk - lastBeat) / 1000) maxGap) (Some config))
      as (Fz & F & G & H & cs & -> & _ & Hin & _).
    specialize (Hin Hact).
    eexists _, _, _. split; [done|]. split; [done|]. split; [done|].
    do 3 (split; [done|]).
    split; [|split].
    + intros clk' amount vendor. unfold evaluateTransaction.
      by rewrite bool_decide_eq_true_2.
    + intros clk'. unfold DeadManControls.heartbeat.
      by rewrite bool_decide_eq_true_2.
    + intros clk' lastBeat'. unfold DeadManControls.checkHeartbeat.
      by rewrite bool_decide_eq_true_2.
Qed.

(** a1 beats every 60 seconds and may miss three beats: 200 seconds after
    its last beat the monitor freezes it. *)
Lemma missed_heartbeat_stops_the_agent_witness :
  ∃ s' d',
    DeadManControls.checkHeartbeat clk0 initial db_dms "a1" (now clk0 - 200000)
    = (s', d')
    ∧ "a1" ∈ _frozenAgents s'
    ∧ (evaluateTransaction clk0 s' d' "a1" 10 None).2 = blocked AgentIsFrozen.
Proof.
  destruct (missed_heartbeat_stops_the_agent clk0 initial db_dms "a1"
              (now clk0 - 200000) (dms_config "a1" alert)) as [_ Hlate].
  - apply (bool_decide_eq_false_1 ("a1" ∈ _frozenAgents initial)).
    vm_compute. reflexivity.
  - vm_compute. reflexivity.
  - reflexivity.
  - destruct Hlate as (s' & d' & e & Hcheck & Hin & _ & _ & _ & _ & Hgate & _).
    + simpl. lia.
    + left. reflexivity.
    + exists s', d'. split; [exact Hcheck|]. split; [exact Hin|].
      by rewrite Hgate.
Defined.

Lemma trigger_freeze_cascade s d agentId ty details config lineage s' d' :
  cascadeToChildren config = true →
  SpawnGovernor.findLineage d agentId = Some lineage →
  _trigger s d agentId ty freeze details (Some config) = (s', d') →
  _frozenAgents s'
  = list_to_set (agentId :: l_childrenIds lineage) ∪ _frozenAgents s
  ∧ agents d' = mark A_FROZEN (agentId :: l_childrenIds lineage) <$> agents d
  ∧ dmsConfigs d' = dmsConfigs d.
Proof.
  unfold SpawnGovernor.findLineage. intros Hcasc Hlin Htr.
  destruct (trigger_shape s d agentId ty freeze details (Some config))
    as (Fz & F & G & H & cs & Hshape & _).
  assert (Hcfg : dmsConfigs d' = dmsConfigs d).
  { rewrite Htr in Hshape. by injection Hshape as _ ->. }
  split; [|split; [|exact Hcfg]]; revert Htr; clear Hshape.
  all: unfold _trigger, cascade; simpl; rewrite Hcasc; simpl; rewrite Hlin.
  all: pose proof (cascade_loop A_FROZEN (l_childrenIds lineage)
         (add_frozen agentId s)
         (set_agents (updateMany (λ a, a_id a = agentId)
                        (with_agent_status A_FROZEN)) d)
         [agentId] [] (agents d)) as Hloop.
  all: destruct (foldl _ _ (l_childrenIds lineage)) as [[s1 d1] cascadedTo].
  all: destruct Hloop as (Hf & Ha & He & _); [apply mark_one|].
  all: intros [= <- <-]; simpl.
  - rewrite Hf. apply frozen_cons.
  - exact Ha.
Qed.

Lemma updateMany_id {A} (P : A → Prop) `{∀ x, Decision (P x)} (f : A → A) l :
  Forall (λ x, ¬ P x) l → updateMany P f l = l.
Proof.
  intros Hl. unfold updateMany. rewrite <- (list_fmap_id l) at 2.
  apply Forall_fmap_ext_1. eapply Forall_impl; [exact Hl|].
  intros x Hx. simpl. by rewrite decide_False.
Qed.

(** X17.  Unfreezing does not cascade.  A manual freeze of an agent whose
    config cascades freezes its direct children with it; unfreezing the
    agent afterwards (with an operator) sets the agent's own rows back to
    Active and takes it out of the frozen set, but every child stays in
    the frozen set with status Frozen, and the gate keeps blocking the
    child's transactions. *)
Theorem unfreeze_does_not_reach_the_children s d agentId op op' config lineage
    s1 d1 :
  _getConfig d agentId = Some config → cascadeToChildren config = true →
  SpawnGovernor.findLineage d agentId = Some lineage →
  truthy op' = true →
  DeadManControls.freeze s d agentId op = (s1, d1) →
  ∃ s2 d2,
    DeadManControls.unfreeze s1 d1 agentId op' = (s2, d2, true)
    ∧ (agentId ∉ _frozenAgents s2)
    ∧ (∀ a, a ∈ agents d → a_id a = agentId →
         with_agent_status A_ACTIVE a ∈ agents d2)
    ∧ (∀ c, c ∈ l_childrenIds lineage → c ≠ agentId →
         c ∈ _frozenAgents s2
         ∧ (∀ a, a ∈ agents d → a_id a = c →
              with_agent_status A_FROZEN a ∈ agents d2)
         ∧ ∀ clk amount vendor,
             evaluateTransaction clk s2 d2 c amount vendor
             = (s2, d2, blocked AgentIsFrozen)).
Proof.
  intros Hc Hcasc Hlin Hop. unfold DeadManControls.freeze. rewrite Hc.
  intros Htr.
  destruct (trigger_freeze_cascade s d agentId T_manual (D_manual op) config
              lineage s1 d1 Hcasc Hlin Htr) as (Hfz & Hag & Hcfg).
  unfold DeadManControls.unfreeze. rewrite Hop, andb_false_r.
  eexists _, _. split; [done|]. simpl.
  split; [|split].
  - rewrite elem_of_difference, elem_of_singleton. tauto.
  - intros a Hin Hid. rewrite Hag. unfold updateMany.
    apply list_elem_of_fmap.
    exists (mark A_FROZEN (agentId :: l_childrenIds lineage) a).
    split; [|by apply list_elem_of_fmap_2].
    assert (mark A_FROZEN (agentId :: l_childrenIds lineage) a
            = with_agent_status A_FROZEN a) as ->.
    { unfold mark. rewrite decide_True; [done|]. rewrite Hid.
      apply list_elem_of_here. }
    rewrite decide_True; [done|]. split; [done|]. apply list_elem_of_here.
  - intros c Hin Hne.
    assert (Hc2 : c ∈ _frozenAgents s1 ∖ {[agentId]}).
    { rewrite elem_of_difference, elem_of_singleton. split; [|done].
      rewrite Hfz. apply elem_of_union_l, elem_of_list_to_set.
      by apply list_elem_of_further. }
    split; [exact Hc2|]. split.
    + intros a Ha Hid. rewrite Hag. unfold updateMany.
      apply list_elem_of_fmap.
      exists (mark A_FROZEN (agentId :: l_childrenIds lineage) a).
      split; [|by apply list_elem_of_fmap_2].
      assert (mark A_FROZEN (agentId :: l_childrenIds lineage) a
              = with_agent_status A_FROZEN a) as ->.
      { unfold mark. rewrite decide_True; [done|]. rewrite Hid.
        by apply list_elem_of_further. }
      rewrite decide_False; [done|]. simpl. intros [? _]. congruence.
    + intros clk amount vendor. unfold evaluateTransaction.
      by rewrite bool_decide_eq_true_2.
Qed.

(** root is frozen together with its child, then unfrozen by operator o1:
    root is Active again, child and its gate stay frozen. *)
Lemma unfreeze_does_not_reach_the_children_witness :
  ∃ s1 d1 s2 d2,
    DeadManControls.freeze initial db_tree_dms "root" (Some "o1") = (s1, d1)
    ∧ DeadManControls.unfreeze s1 d1 "root" (Some "o1") = (s2, d2, true)
    ∧ "child" ∈ _frozenAgents s2
    ∧ (evaluateTransaction clk0 s2 d2 "child" 10 None).2 = blocked AgentIsFrozen.
Proof.
  destruct (DeadManControls.freeze initial db_tree_dms "root" (Some "o1"))
    as [s1 d1] eqn:Hfr.
  destruct (unfreeze_does_not_reach_the_children initial db_tree_dms "root"
              (Some "o1") (Some "o1") (dms_config "root" alert)
              (lineage "root" None 0 ["child"]) s1 d1)
    as (s2 & d2 & Hun & _ & _ & Hchild).
  - vm_compute. reflexivity.
  - reflexivity.
  - vm_compute. reflexivity.
  - reflexivity.
  - exact Hfr.
  - destruct (Hchild "child") as (Hin & _ & Hgate).
    + apply list_elem_of_here.
    + discriminate.
    + exists s1, d1, s2, d2. split; [reflexivity|]. split; [exact Hun|].
      split; [exact Hin|]. by rewrite Hgate.
Defined.

(** X18.  A manual kill of an agent that has no dead-man config
    terminates that agent alone: the action defaults to terminate, the
    agent joins the frozen set and its rows become Terminated, and, there
    being no config to ask for a cascade, no other agent row changes and
    the event lists no child.  Such an agent can then be unfrozen without
    an operator: it leaves the frozen set while its rows stay Terminated,
    and the gate allows its transactions again. *)
Theorem manual_kill_without_config_spares_children s d agentId op s1 d1 action :
  _getConfig d agentId = None →
  DeadManControls.manualKill s d agentId op = (s1, d1, action) →
  action = terminate
  ∧ _frozenAgents s1 = {[agentId]} ∪ _frozenAgents s
  ∧ agents d1 = mark A_TERMINATED [agentId] <$> agents d
  ∧ (∃ e, dmsEvents d1 = dmsEvents d ++ [e]
          ∧ e_actionTaken e = Some terminate ∧ e_cascadedTo e = [])
  ∧ ∃ s2 d2,
      DeadManControls.unfreeze s1 d1 agentId None = (s2, d2, true)
      ∧ (agentId ∉ _frozenAgents s2)
      ∧ agents d2 = agents d1
      ∧ ∀ clk amount vendor,
          evaluateTransaction clk s2 d2 agentId amount vendor
          = (s2, d2, allowed).
Proof.
  intros Hc. unfold DeadManControls.manualKill. rewrite Hc. simpl.
  unfold _trigger, cascade. simpl. intros [= <- <- <-].
  split; [done|]. split; [done|]. simpl.
  split; [apply mark_one|]. split; [by eexists|].
  unfold DeadManControls.unfreeze.
  assert (∀ d', dmsConfigs d' = dmsConfigs d → _getConfig d' agentId = None)
    as Hc'.
  { intros d' Hd'. unfold _getConfig in *. by rewrite Hd'. }
  rewrite Hc' by done. simpl. eexists _, _. split; [done|]. simpl.
  split; [|split].
  - rewrite elem_of_difference, elem_of_singleton. tauto.
  - apply updateMany_id. apply Forall_forall. intros a Hin [Hid Hst].
    unfold updateMany in Hin. apply list_elem_of_fmap in Hin as (a0 & -> & _).
    destruct (decide (a_id a0 = agentId)) as [Ha0|Ha0]; simpl in *.
    + repeat (apply elem_of_cons in Hst as [Hst|Hst]; [discriminate Hst|]).
      by apply elem_of_nil in Hst.
    + done.
  - intros clk amount vendor. unfold evaluateTransaction.
    rewrite bool_decide_eq_false_2.
    + by rewrite Hc'.
    + simpl. rewrite elem_of_difference, elem_of_singleton. tauto.
Qed.

(** root has a child and no config: a manual kill terminates root and
    leaves child Active. *)
Lemma manual_kill_without_config_spares_children_witness :
  ∃ s1 d1,
    DeadManControls.manualKill initial db_tree "root" (Some "o1")
    = (s1, d1, terminate)
    ∧ map a_status (agents d1) = [A_TERMINATED; A_ACTIVE; A_ACTIVE].
Proof.
  destruct (DeadManControls.manualKill initial db_tree "root" (Some "o1"))
    as [[s1 d1] action] eqn:Hkill.
  destruct (manual_kill_without_config_spares_children initial db_tree "root"
              (Some "o1") s1 d1 action) as (-> & _ & Hag & _).
  - vm_compute. reflexivity.
  - exact Hkill.
  - exists s1, d1. split; [reflexivity|]. rewrite Hag. vm_compute. reflexivity.
Defined.
End dead_man_controls.

(** ** Spawning: the lineage records *)

Section spawn_lineage.
Import SpawnGovernor Scenario.

Lemma findFirst_app {A} (P : A → Prop) `{∀ x, Decision (P x)} l1 l2 :
  findFirst P (l1 ++ l2)
  = match findFirst P l1 with Some x => Some x | None => findFirst P l2 end.
Proof.
  induction l1 as [|x l1 IH]; [done|]. simpl. rewrite !findFirst_cons.
  by destruct (decide (P x)).
Qed.

Lemma findLineage_updateMany x id f ls :
  (∀ l, l_agentId (f l) = l_agentId l) →
  findFirst (λ l, l_agentId l = x) (updateMany (λ l, l_agentId l = id) f ls)
  = (λ l, if decide (l_agentId l = id) then f l else l)
      <$> findFirst (λ l, l_agentId l = x) ls.
Proof.
  intros Hf. induction ls as [|l ls IH]; [done|].
  unfold updateMany in *. rewrite fmap_cons, !findFirst_cons.
  destruct (decide (l_agentId l = x)) as [Hx|Hx].
  - rewrite decide_True; [done|]. destruct (decide (l_agentId l = id)); [|done].
    by rewrite Hf.
  - rewrite decide_False; [exact IH|]. destruct (decide (l_agentId l = id)); [|done].
    by rewrite Hf.
Qed.

Lemma authorizeSpawn_authorized d p c ov d' r :
  authorizeSpawn d p c ov = (d', Authorized r) →
  ∃ parent parentLineage d0,
    findAgent d p = Some parent
    ∧ (a_status parent ∉ [A_FROZEN; A_TERMINATED; A_KILLED])
    ∧ ((findLineage d p = Some parentLineage ∧ d0 = d)
       ∨ (findLineage d p = None
          ∧ parentLineage = {| l_agentId := p; l_parentId := None;
                               l_rootId := p; l_depth := 0;
                               l_childrenIds := []; l_status := L_active;
                               l_spawnPolicy := None |}
          ∧ d0 = set_lineages (create parentLineage) d))
    ∧ findLineage d0 p = Some parentLineage
    ∧ findLineage d0 c = None
    ∧ (l_depth parentLineage
       < maxSpawnDepth (default _defaultSpawnPolicy (l_spawnPolicy parentLineage)))%Z
    ∧ (Z.of_nat (length (l_childrenIds parentLineage))
       < maxChildren (default _defaultSpawnPolicy (l_spawnPolicy parentLineage)))%Z
    ∧ d' = set_spawnEvents (create
             {| se_parentId := p; se_childId := c;
                se_depth := (l_depth parentLineage + 1)%Z;
                se_inheritedPolicy := Some (inheritedPolicy r);
                se_authorized := true |})
           (set_lineages (updateMany (λ l, l_agentId l = p) (push_child c))
             (set_lineages (create
                {| l_agentId := c; l_parentId := Some p;
                   l_rootId := l_rootId parentLineage;
                   l_depth := (l_depth parentLineage + 1)%Z;
                   l_childrenIds := []; l_status := L_active;
                   l_spawnPolicy :=
                     Some (_restrictSpawnPolicy
                             (default _defaultSpawnPolicy
                                      (l_spawnPolicy parentLineage))) |}) d0))
    ∧ childAgentId r = c ∧ sp_parentId r = p
    ∧ sp_depth r = (l_depth parentLineage + 1)%Z
    ∧ sp_root r = l_rootId parentLineage.
Proof.
  unfold authorizeSpawn.
  destruct (findAgent d p) as [parent|] eqn:Hp; [|done].
  case_bool_decide as Hst; [done|].
  destruct (findLineage d p) as [l|] eqn:Hl.
  - simpl. case_bool_decide as Hdepth; [done|].
    case_bool_decide as Hch; [done|].
    destruct (bool_decide (0 < l_depth l)%Z && _); [done|].
    case_bool_decide as Hc; [done|].
    intros [= <- <-]. exists parent, l, d. simpl.
    split; [done|]. split; [done|]. split; [by left|]. split; [done|].
    split. { destruct (findLineage d c) eqn:E; [|done]. exfalso. apply Hc. by eexists. }
    split; [lia|]. split; [lia|]. done.
  - simpl. case_bool_decide as Hc; [done|].
    intros [= <- <-]. eexists parent, _, _. simpl.
    split; [done|]. split; [done|]. split; [right; done|].
    split.
    { unfold findLineage in *. simpl. unfold create. rewrite findFirst_app, Hl.
      rewrite findFirst_cons. by rewrite decide_True. }
    split. { match goal with |- ?x = None => destruct x eqn:E; [|done] end.
             exfalso. apply Hc. by eexists. }
    split; [done|]. split; [done|]. done.
Qed.

(** X19.  What an authorized spawn writes.  The child did not have a
    lineage row and is not the parent; afterwards it has one, with the
    parent as [parentId], the parent's root, the parent's depth plus one,
    no children, status active and the parent's spawn policy with one
    level of depth taken off; the parent's row (created as a root at depth
    0 when it had none) lists the child last among its children; one
    SpawnEvent records parent, child, depth and the inherited policy.
    Nothing else is written: the inherited limits are recorded, but no
    agent, wallet or spend rule is created or changed. *)
Theorem spawn_bookkeeping d p c ov d' r :
  authorizeSpawn d p c ov = (d', Authorized r) →
  ∃ parentLineage childLineage event,
    (findLineage d p = Some parentLineage
     ∨ (findLineage d p = None ∧ l_agentId parentLineage = p
        ∧ l_depth parentLineage = 0%Z ∧ l_rootId parentLineage = p
        ∧ l_childrenIds parentLineage = []))
    ∧ c ≠ p ∧ findLineage d c = None
    ∧ findLineage d' p = Some (push_child c parentLineage)
    ∧ findLineage d' c = Some childLineage
    ∧ l_parentId childLineage = Some p
    ∧ l_depth childLineage = (l_depth parentLineage + 1)%Z
    ∧ l_rootId childLineage = l_rootId parentLineage
    ∧ l_childrenIds childLineage = [] ∧ l_status childLineage = L_active
    ∧ l_spawnPolicy childLineage
      = Some (_restrictSpawnPolicy (spawnPolicyOf d p))
    ∧ sp_depth r = l_depth childLineage ∧ sp_root r = l_rootId childLineage
    ∧ spawnEvents d' = spawnEvents d ++ [event]
    ∧ se_parentId event = p ∧ se_childId event = c
    ∧ se_depth event = l_depth childLineage
    ∧ se_inheritedPolicy event = Some (inheritedPolicy r)
    ∧ agents d' = agents d ∧ wallets d' = wallets d
    ∧ spendRules d' = spendRules d.
Proof.
  intros (parent & pl & d0 & Hp & Hst & Hd0 & Hpl & Hc & Hdepth & Hch & -> & _
          & _ & Hsd & Hsr)%authorizeSpawn_authorized.
  assert (Hne : c ≠ p) by (intros ->; congruence).
  assert (Hsp : spawnPolicyOf d p
                = default _defaultSpawnPolicy (l_spawnPolicy pl)).
  { unfold spawnPolicyOf. destruct Hd0 as [[-> _]|(-> & -> & _)]; done. }
  assert (Hdc : findLineage d c = None).
  { destruct Hd0 as [[_ ->]|(_ & _ & ->)]; [done|].
    unfold findLineage in *. simpl in Hc. unfold create in Hc.
    rewrite findFirst_app in Hc. by destruct (findFirst _ (lineages d)). }
  eexists pl, _, _.
  split. { destruct Hd0 as [[? _]|(? & -> & _)]; [by left|by right]. }
  split; [done|]. split; [done|].
  split.
  { unfold findLineage in *. simpl.
    rewrite (findLineage_updateMany p p) by done.
    unfold create. rewrite findFirst_app, Hpl. simpl.
    rewrite decide_True; [done|]. by apply findFirst_Some in Hpl as [_ ?]. }
  split.
  { unfold findLineage in *. simpl.
    rewrite (findLineage_updateMany c p) by done.
    unfold create. rewrite findFirst_app, Hc.
    rewrite findFirst_cons, decide_True by done. simpl.
    by rewrite decide_False. }
  simpl. rewrite Hsp, Hsd, Hsr.
  assert (agents d0 = agents d ∧ wallets d0 = wallets d
          ∧ spendRules d0 = spendRules d ∧ spawnEvents d0 = spawnEvents d)
    as (-> & -> & -> & ->).
  { destruct Hd0 as [[_ ->]|(_ & _ & ->)]; done. }
  done.
Qed.

(** p spawns c: c sits at depth 1 under root p, and p lists c. *)
Lemma spawn_bookkeeping_witness :
  ∃ d' r childLineage,
    authorizeSpawn db_family "p" "c" no_overrides = (d', Authorized r)
    ∧ findLineage d' "c" = Some childLineage
    ∧ l_depth childLineage = 1%Z ∧ l_rootId childLineage = "p"
    ∧ l_childrenIds <$> findLineage d' "p" = Some ["c"].
Proof.
  destruct (authorizeSpawn db_family "p" "c" no_overrides) as [d' res] eqn:Hauth.
  destruct res as [reason|r]; [vm_compute in Hauth; discriminate|].
  destruct (spawn_bookkeeping _ _ _ _ _ _ Hauth)
    as (pl & cl & ev & Hpl & _ & _ & Hp' & Hc' & _ & Hd & Hr & _).
  destruct Hpl as [Hpl|(_ & _ & Hd0 & Hr0 & Hcs)];
    [vm_compute in Hpl; discriminate|].
  exists d', r, cl. split; [reflexivity|]. split; [exact Hc'|].
  split; [rewrite Hd, Hd0; reflexivity|]. split; [by rewrite Hr|].
  rewrite Hp'. simpl. by rewrite Hcs.
Defined.

(** X20.  An agent is spawned once.  After an authorized spawn of a child,
    every further request to spawn the same child, from any parent and
    with any overrides, is denied, records no event and leaves the child's
    lineage row as it is; from the same parent it writes nothing at
    all. *)
Theorem child_is_spawned_once d p c ov d' r :
  authorizeSpawn d p c ov = (d', Authorized r) →
  ∀ p' ov', ∃ d'' reason,
    authorizeSpawn d' p' c ov' = (d'', Denied reason)
    ∧ spawnEvents d'' = spawnEvents d'
    ∧ findLineage d'' c = findLineage d' c
    ∧ (p' = p → d'' = d').
Proof.
  intros Hauth p' ov'.
  assert (∃ cl, findLineage d' c = Some cl) as [cl Hcl].
  { apply authorizeSpawn_authorized in Hauth
      as (parent & pl & d0 & _ & _ & _ & Hpl & Hc & _ & _ & -> & _).
    assert (Hne : c ≠ p) by (intros ->; congruence).
    unfold findLineage in *. simpl.
    rewrite (findLineage_updateMany c p) by done.
    unfold create. rewrite findFirst_app, Hc.
    rewrite findFirst_cons, decide_True by done. by eexists. }
  assert (∃ pl, findLineage d' p = Some pl) as [pl' Hpl'].
  { apply authorizeSpawn_authorized in Hauth
      as (parent & pl & d0 & _ & _ & _ & Hpl & Hc & _ & _ & -> & _).
    unfold findLineage in *. simpl.
    rewrite (findLineage_updateMany p p) by done.
    unfold create. rewrite findFirst_app, Hpl. by eexists. }
  unfold authorizeSpawn.
  destruct (findAgent d' p') as [parent'|]; [|by eexists _, _].
  case_bool_decide; [by eexists _, _|].
  destruct (findLineage d' p') as [l|] eqn:Hl'.
  - simpl. case_bool_decide; [by eexists _, _|].
    case_bool_decide; [by eexists _, _|].
    destruct (bool_decide (0 < l_depth l)%Z && _); [by eexists _, _|].
    rewrite bool_decide_eq_true_2 by (by rewrite Hcl). by eexists _, _.
  - simpl. rewrite bool_decide_eq_true_2.
    + eexists _, _. split; [done|]. split; [done|]. split.
      * unfold findLineage in *. simpl. unfold create.
        by rewrite findFirst_app, Hcl.
      * intros ->. congruence.
    + unfold findLineage in *. simpl. unfold create.
      rewrite findFirst_app, Hcl. by eexists.
Qed.

(** p spawns c; a second spawn of c by p is denied and writes nothing. *)
Lemma child_is_spawned_once_witness :
  ∃ d' r reason,
    authorizeSpawn db_family "p" "c" no_overrides = (d', Authorized r)
    ∧ authorizeSpawn d' "p" "c" no_overrides = (d', Denied reason).
Proof.
  destruct (authorizeSpawn db_family "p" "c" no_overrides) as [d' res] eqn:Hauth.
  destruct res as [reason|r]; [vm_compute in Hauth; discriminate|].
  destruct (child_is_spawned_once _ _ _ _ _ _ Hauth "p" no_overrides)
    as (d'' & reason & Hden & _ & _ & Hsame).
  exists d', r, reason. split; [reflexivity|].
  rewrite Hden. by rewrite (Hsame eq_refl).
Defined.

(** X21.  A denied spawn is not recorded.  Whatever the reason of the
    denial, no SpawnEvent is written and no agent, wallet or spend rule
    changes; the only row a denied request can leave behind is the root
    lineage row of an existing parent that had none. *)
Theorem denied_spawn_leaves_no_trace d p c ov d' reason :
  authorizeSpawn d p c ov = (d', Denied reason) →
  spawnEvents d' = spawnEvents d ∧ agents d' = agents d
  ∧ spendRules d' = spendRules d ∧ wallets d' = wallets d
  ∧ (lineages d' = lineages d
     ∨ (findLineage d p = None ∧ is_Some (findAgent d p)
        ∧ lineages d'
          = lineages d ++ [{| l_agentId := p; l_parentId := None;
                              l_rootId := p; l_depth := 0;
                              l_childrenIds := []; l_status := L_active;
                              l_spawnPolicy := None |}])).
Proof.
  unfold authorizeSpawn.
  destruct (findAgent d p) as [parent|] eqn:Hp;
    [|intros [= <- _]; repeat split; by left].
  case_bool_decide as Hst; [intros [= <- _]; repeat split; by left|].
  destruct (findLineage d p) as [l|] eqn:Hl.
  - simpl. repeat (case_bool_decide; [intros [= <- _]; repeat split; by left|]).
    destruct (bool_decide (0 < l_depth l)%Z && _);
      [intros [= <- _]; repeat split; by left|].
    case_bool_decide; [intros [= <- _]; repeat split; by left|]. done.
  - simpl. case_bool_decide as Hc; [|done].
    intros [= <- _]. simpl. repeat split; try done. right. done.
Qed.

(** A spawn on behalf of an agent that does not exist is denied and
    records nothing. *)
Lemma denied_spawn_leaves_no_trace_witness :
  spawnEvents (authorizeSpawn db_family "nobody" "c" no_overrides).1 = [].
Proof.
  destruct (authorizeSpawn db_family "nobody" "c" no_overrides) as [d' res] eqn:Hauth.
  destruct res as [reason|r]; [|vm_compute in Hauth; discriminate].
  destruct (denied_spawn_leaves_no_trace _ _ _ _ _ _ Hauth) as (Hev & _).
  simpl. by rewrite Hev.
Defined.

Lemma authorizeSpawn_child_row d p c ov d' r :
  authorizeSpawn d p c ov = (d', Authorized r) →
  ∃ childLineage,
    findLineage d' c = Some childLineage
    ∧ l_depth childLineage = sp_depth r
    ∧ l_spawnPolicy childLineage
      = Some (_restrictSpawnPolicy (spawnPolicyOf d p))
    ∧ (sp_depth r - 1 < maxSpawnDepth (spawnPolicyOf d p))%Z.
Proof.
  intros (parent & pl & d0 & Hp & Hst & Hd0 & Hpl & Hc & Hdepth & Hch & -> & _
          & _ & Hsd & Hsr)%authorizeSpawn_authorized.
  assert (Hne : c ≠ p) by (intros ->; congruence).
  assert (Hsp : spawnPolicyOf d p
                = default _defaultSpawnPolicy (l_spawnPolicy pl)).
  { unfold spawnPolicyOf. destruct Hd0 as [[-> _]|(-> & -> & _)]; done. }
  eexists. split.
  { unfold findLineage in *. simpl.
    rewrite (findLineage_updateMany c p) by done.
    unfold create. rewrite findFirst_app, Hc.
    rewrite findFirst_cons, decide_True by done. simpl.
    by rewrite decide_False. }
  simpl. rewrite Hsp, Hsd. split; [done|]. split; [done|]. lia.
Qed.

(** X22.  Each generation pays for depth twice.  When a child (at a
    positive depth) that was spawned under its parent's policy spawns in
    turn, its own policy allows one level less than the parent's, while
    its depth is one more: the second spawn is authorized only if the
    child's depth is below the parent's [maxSpawnDepth] minus one.  With
    the default policy (3) a root and its children can spawn, its
    grandchildren cannot. *)
Theorem spawn_depth_is_spent_twice d p c g ov ov' d1 r1 d2 r2 :
  authorizeSpawn d p c ov = (d1, Authorized r1) →
  authorizeSpawn d1 c g ov' = (d2, Authorized r2) →
  (0 < sp_depth r1)%Z →
  sp_depth r2 = (sp_depth r1 + 1)%Z
  ∧ maxSpawnDepth (spawnPolicyOf d1 c)
    = (maxSpawnDepth (spawnPolicyOf d p) - 1)%Z
  ∧ (sp_depth r1 < maxSpawnDepth (spawnPolicyOf d p) - 1)%Z.
Proof.
  intros H1 H2 Hpos.
  destruct (authorizeSpawn_child_row d p c ov d1 r1 H1)
    as (cl & Hcl & Hd & Hpol & Hlt).
  apply authorizeSpawn_authorized in H2
    as (parent & pl & d0 & _ & _ & Hd0 & _ & _ & Hdepth & _ & _ & _ & _ & Hsd & _).
  destruct Hd0 as [[Hpl _]|(Hpl & _)]; [|congruence].
  rewrite Hcl in Hpl. injection Hpl as <-.
  rewrite Hsd, Hd. unfold spawnPolicyOf at 1. rewrite Hcl. simpl. rewrite Hpol.
  simpl. rewrite Hpol in Hdepth. simpl in Hdepth. lia.
Qed.

(** p spawns c and c spawns g under the default policy: c may go one
    level less deep than p, and its depth 1 is below 3 - 1. *)
Lemma spawn_depth_is_spent_twice_witness :
  ∃ d1 r1 d2 r2,
    authorizeSpawn db_family "p" "c" no_overrides = (d1, Authorized r1)
    ∧ authorizeSpawn d1 "c" "g" no_overrides = (d2, Authorized r2)
    ∧ sp_depth r2 = 2%Z
    ∧ maxSpawnDepth (spawnPolicyOf d1 "c") = 2%Z.
Proof.
  destruct (authorizeSpawn db_family "p" "c" no_overrides) as [d1 res1] eqn:H1.
  destruct res1 as [reason|r1]; [vm_compute in H1; discriminate|].
  destruct (authorizeSpawn d1 "c" "g" no_overrides) as [d2 res2] eqn:H2.
  destruct res2 as [reason|r2];
    [vm_compute in H1; injection H1 as <- _; vm_compute in H2; discriminate|].
  assert (sp_depth r1 = 1%Z) as Hr1.
  { vm_compute in H1. injection H1 as _ <-. reflexivity. }
  destruct (spawn_depth_is_spent_twice _ _ _ _ _ _ _ _ _ _ H1 H2)
    as (Hd2 & Hmax & _).
  - rewrite Hr1. lia.
  - exists d1, r1, d2, r2. split; [reflexivity|]. split; [exact H2|].
    split; [rewrite Hd2, Hr1; reflexivity|]. rewrite Hmax. reflexivity.
Defined.

(** Under the default policy the chain stops there: g, at depth 2, is
    refused a child. *)
Example default_policy_stops_at_depth_two :
  let d1 := (authorizeSpawn db_family "p" "c" no_overrides).1 in
  let d2 := (authorizeSpawn d1 "c" "g" no_overrides).1 in
  (authorizeSpawn d2 "g" "x" no_overrides).2 = Denied "Max spawn depth reached"
  ∧ maxSpawnDepth _defaultSpawnPolicy = 3%Z.
Proof. split; vm_compute; reflexivity. Qed.
End spawn_lineage.

(** ** Terminating a lineage *)

Section termination.
Import SpawnGovernor Scenario.

Lemma only_terminates_refl d : only_terminates d d.
Proof. split; [done|]. split; [auto|]. done. Qed.

Lemma only_terminates_trans d1 d2 d3 :
  only_terminates d1 d2 → only_terminates d2 d3 → only_terminates d1 d3.
Proof.
  intros (Hc1 & Ht1 & He1 & Hw1 & Hr1) (Hc2 & Ht2 & He2 & Hw2 & Hr2).
  split; [intros x; by rewrite Hc2, Hc1|].
  split; [auto|]. split; [congruence|]. split; congruence.
Qed.

(** One visit of [_terminate]: the two status updates. *)
Lemma visit_only_terminates d id lin :
  findLineage d id = Some lin →
  let d' := set_agents (updateMany (λ a, a_id a = id)
                          (DeadManSwitch.with_agent_status A_TERMINATED))
              (set_lineages (updateMany (λ l, l_agentId l = id)
                               (DeadManSwitch.with_lineage_status L_terminated)) d) in
  findLineage d' id = Some (DeadManSwitch.with_lineage_status L_terminated lin)
  ∧ only_terminates d d' ∧ terminated_in d' id.
Proof.
  intros Hlin d'.
  assert (Hfind : ∀ x, findLineage d' x
            = (λ l, if decide (l_agentId l = id)
                    then DeadManSwitch.with_lineage_status L_terminated l else l)
                <$> findLineage d x).
  { intros x. unfold findLineage. subst d'. simpl.
    by rewrite (findLineage_updateMany x id). }
  assert (Hid : l_agentId lin = id).
  { unfold findLineage in Hlin. by apply findFirst_Some in Hlin as [_ ?]. }
  split; [|split].
  - rewrite Hfind, Hlin. simpl. by rewrite decide_True.
  - split; [|split; [|done]].
    + intros x. rewrite Hfind. destruct (findLineage d x) as [l|]; [|done].
      simpl. by destruct (decide _).
    + intros x [Hl Ha]. split.
      * rewrite Hfind. destruct (findLineage d x) as [l|]; [|done].
        simpl in *. by destruct (decide _).
      * subst d'. simpl. unfold updateMany. apply Forall_fmap.
        eapply Forall_impl; [exact Ha|]. intros a Hax. simpl.
        destruct (decide (a_id a = id)); [done|exact Hax].
  - split.
    + rewrite Hfind, Hlin. simpl. by rewrite decide_True.
    + subst d'. simpl. unfold updateMany. apply Forall_fmap, Forall_forall.
      intros a _. simpl. destruct (decide (a_id a = id)); done.
Qed.

Lemma tree_below_only_terminates d d' h x :
  only_terminates d d' → tree_below d h x → tree_below d' h x.
Proof.
  intros Hot. revert x. induction h as [|h IH]; intros x; [done|].
  simpl. intros (lin & Hlin & Hcs).
  destruct Hot as (Hc & _). specialize (Hc x). rewrite Hlin in Hc.
  destruct (findLineage d' x) as [lin'|]; [|done].
  simpl in Hc. injection Hc as Hc. exists lin'. split; [done|].
  rewrite Hc. eapply Forall_impl; [exact Hcs|]. auto.
Qed.

Lemma preorder_only_terminates d d' h x :
  only_terminates d d' → preorder d' h x = preorder d h x.
Proof.
  intros Hot. revert x. induction h as [|h IH]; intros x; [done|].
  simpl. destruct Hot as (Hc & _). rewrite Hc. f_equal. f_equal.
  apply list_fmap_ext. auto.
Qed.

Lemma terminate_children h :
  (∀ id d acc, tree_below d h id →
     ∃ d1, _terminate h true (d, acc) id = Done (d1, acc ++ preorder d h id)
           ∧ only_terminates d d1
           ∧ ∀ x, x ∈ preorder d h id → terminated_in d1 x) →
  ∀ cs d acc, Forall (tree_below d h) cs →
    ∃ d1, forEach (_terminate h true) cs (d, acc)
          = Done (d1, acc ++ mjoin (preorder d h <$> cs))
          ∧ only_terminates d d1
          ∧ ∀ x, x ∈ mjoin (preorder d h <$> cs) → terminated_in d1 x.
Proof.
  intros IH cs. induction cs as [|c cs IHcs]; intros d acc Hcs; simpl.
  - exists d. rewrite app_nil_r. split; [done|].
    split; [apply only_terminates_refl|]. by intros x ?%elem_of_nil.
  - apply Forall_cons in Hcs as [Hc Hcs].
    destruct (IH c d acc Hc) as (d1 & -> & Hot1 & Ht1).
    destruct (IHcs d1 (acc ++ preorder d h c)) as (d2 & -> & Hot2 & Ht2).
    { eapply Forall_impl; [exact Hcs|]. intros x.
      by apply tree_below_only_terminates. }
    assert (Hpre : preorder d1 h <$> cs = preorder d h <$> cs).
    { apply list_fmap_ext. intros _ x _. by apply preorder_only_terminates. }
    rewrite Hpre in *. exists d2. rewrite <- app_assoc. split; [done|].
    split; [by eapply only_terminates_trans|].
    intros x [Hx|Hx]%elem_of_app; [|by apply Ht2].
    destruct Hot2 as (_ & Hmono & _). by apply Hmono, Ht1.
Qed.

Lemma terminate_spec h id d acc :
  tree_below d h id →
  ∃ d1, _terminate h true (d, acc) id = Done (d1, acc ++ preorder d h id)
        ∧ only_terminates d d1
        ∧ ∀ x, x ∈ preorder d h id → terminated_in d1 x.
Proof.
  revert id d acc. induction h as [|h IH]; intros id d acc; [done|].
  intros (lin & Hlin & Hcs). simpl. rewrite Hlin.
  destruct (visit_only_terminates d id lin Hlin) as (Hlin' & Hot & Hid).
  set (d' := set_agents _ _) in *.
  rewrite Hlin'. simpl.
  destruct (terminate_children h IH (l_childrenIds lin) d' (acc ++ [id]))
    as (d1 & -> & Hot1 & Ht1).
  { eapply Forall_impl; [exact Hcs|]. intros x.
    by apply tree_below_only_terminates. }
  assert (Hpre : preorder d' h <$> l_childrenIds lin
                 = preorder d h <$> l_childrenIds lin).
  { apply list_fmap_ext. intros _ x _. by apply preorder_only_terminates. }
  rewrite Hpre in *. exists d1. rewrite <- app_assoc. split; [done|].
  split; [by eapply only_terminates_trans|].
  intros x [->|Hx]%elem_of_cons; [|by apply Ht1].
  destruct Hot1 as (_ & Hmono & _). by apply Hmono.
Qed.

Lemma descendants_preorder d h id x :
  x ∈ descendants d h id → x ∈ preorder d (S h) id.
Proof.
  revert id. induction h as [|h IH]; intros id; [by intros ?%elem_of_nil|].
  cbn [descendants preorder].
  set (cs := default [] (l_childrenIds <$> findLineage d id)).
  intros Hx. apply list_elem_of_further, list_elem_of_join.
  apply elem_of_app in Hx as [Hx|Hx].
  - exists (preorder d (S h) x). split; [apply list_elem_of_here|].
    by apply list_elem_of_fmap_2.
  - apply list_elem_of_join in Hx as (l & Hxl & Hl).
    apply list_elem_of_fmap in Hl as (c & -> & Hc).
    exists (preorder d (S h) c). split; [by apply IH|].
    by apply list_elem_of_fmap_2.
Qed.

(** X23.  Terminating a lineage reaches every descendant.  When the
    lineage below an agent is recorded down to its leaves (every listed
    child has a row, within the fuel given), [terminateLineage] with
    [cascade] returns, and its [terminated] list is the agent followed by
    everything below it, parents before children.  The agent and each of
    its descendants, at any depth, end up terminated: lineage status
    'terminated' and agent status TERMINATED.  Children lists, wallets and
    spend rules are untouched, and one audit row is appended to the
    SpawnEvent table with the operator as [parentId] and no inherited
    policy.  Without [cascade] the agent alone is terminated. *)
Theorem terminateLineage_reaches_every_descendant d n id operatorId :
  tree_below d (S n) id →
  ∃ d' lineage event,
    findLineage d id = Some lineage
    ∧ terminateLineage (S n) d id true operatorId
      = Done (d', {| terminated := preorder d (S n) id; notFound := [] |})
    ∧ (∀ x, x = id ∨ x ∈ descendants d n id → terminated_in d' x)
    ∧ (∀ x, l_childrenIds <$> findLineage d' x
            = l_childrenIds <$> findLineage d x)
    ∧ spawnEvents d' = spawnEvents d ++ [event]
    ∧ se_parentId event = operatorId ∧ se_childId event = id
    ∧ se_depth event = l_depth lineage ∧ se_inheritedPolicy event = None
    ∧ wallets d' = wallets d ∧ spendRules d' = spendRules d
    ∧ ∃ d1, terminateLineage (S n) d id false operatorId
            = Done (d1, {| terminated := [id]; notFound := [] |}).
Proof.
  intros Htree. pose proof Htree as (lin & Hlin & Hcs).
  destruct (terminate_spec (S n) id d [] Htree) as (d1 & Hrun & Hot & Ht).
  eexists _, lin, _. split; [done|]. split.
  { unfold terminateLineage. rewrite Hlin, Hrun. done. }
  destruct Hot as (Hc & Hmono & Hev & Hw & Hr).
  split.
  { intros x [->|Hx]; simpl.
    - destruct (Ht id) as [Hl Ha]; [apply list_elem_of_here|]. by split.
    - destruct (Ht x) as [Hl Ha]; [by apply descendants_preorder|]. by split. }
  split; [exact Hc|]. simpl. rewrite Hev.
  do 5 (split; [done|]). split; [done|]. split; [done|].
  unfold terminateLineage. rewrite Hlin. simpl. rewrite Hlin. by eexists.
Qed.

(** root > child > grand: terminating root terminates all three. *)
Lemma terminateLineage_reaches_every_descendant_witness :
  ∃ d', terminateLineage 3 db_tree "root" true "o1"
        = Done (d', {| terminated := ["root"; "child"; "grand"];
                       notFound := [] |})
    ∧ map a_status (agents d') = [A_TERMINATED; A_TERMINATED; A_TERMINATED].
Proof.
  destruct (terminateLineage_reaches_every_descendant db_tree 2 "root" "o1")
    as (d' & lin & event & _ & Hrun & _).
  - simpl. exists (lineage "root" None 0 ["child"]).
    split; [vm_compute; reflexivity|]. constructor; [|constructor].
    exists (lineage "child" (Some "root") 1 ["grand"]).
    split; [vm_compute; reflexivity|]. constructor; [|constructor].
    exists (lineage "grand" (Some "child") 2 []).
    split; [vm_compute; reflexivity|]. constructor.
  - exists d'. split; [rewrite Hrun; reflexivity|].
    vm_compute in Hrun. injection Hrun as <-. reflexivity.
Defined.
End termination.

(** ** Cross-agent payments: limits, allowance and approval *)

Section cross_agent_limits.
Import CrossAgentGovernor Scenario.

(** The outcome of an authorization that resolves a policy, passes the
    mutual-policy requirement and all five checks. *)
Lemma authorizeTransaction_authorized clk d req d' out :
  authorizeTransaction clk d req = (d', out) →
  authorized out = true →
  ∃ p, _resolvePolicy d (sourceAgentId req) (targetAgentId req) = Some p
    ∧ (requireMutualPolicy p = true →
       is_Some (_resolvePolicy d (targetAgentId req) (sourceAgentId req)))
    ∧ Forall (λ c, passed c = true)
        [ _checkPaymentType p (paymentType req);
          _checkPerTxLimit p (amount req);
          _checkDailyTargetLimit clk d p (sourceAgentId req)
                                 (targetAgentId req) (amount req);
          _checkDailyGlobalLimit clk d p (sourceAgentId req) (amount req);
          _checkCounterpartyTrust d p (targetAgentId req) ]
    ∧ (amount req <= requireHumanApprovalAbove p)%Q
    ∧ d' = (_recordTransaction clk d req (Some (cp_id p)) true M_auto
              (Some (settlementMode p)) false).1
    ∧ transactionId out = Some (length (crossTxs d))
    ∧ requiresHuman out = false.
Proof.
  unfold authorizeTransaction, _recordTransaction.
  destruct (_resolvePolicy d (sourceAgentId req) (targetAgentId req)) as [p|];
    [|cbv zeta iota beta; by intros [= <- <-]].
  destruct (requireMutualPolicy p && _) eqn:Hmut. { by intros [= <- <-]. }
  destruct (findFirst _ _) as [failed|] eqn:Hchecks;
    [cbv zeta iota beta; by intros [= <- <-]|].
  destruct (bool_decide (requireHumanApprovalAbove p < amount req)%Q) eqn:Hesc;
    [cbv zeta iota beta; by intros [= <- <-]|].
  apply bool_decide_eq_false in Hesc.
  simpl. intros [= <- <-] _. exists p. split; [done|]. split.
  { intros Hreq. rewrite Hreq in Hmut. simpl in Hmut.
    apply negb_false_iff, bool_decide_eq_true in Hmut. done. }
  split.
  { apply findFirst_None in Hchecks. eapply Forall_impl; [exact Hchecks|].
    intros c Hc. simpl in Hc. destruct (passed c); [done|]. exfalso. apply Hc. intros []. }
  split; [lra|]. done.
Qed.



(** Every row an authorization appends carries the outcome's
    [authorized] flag; an unauthorized one is never settled. *)
Lemma authorizeTransaction_row clk d req d' out :
  authorizeTransaction clk d req = (d', out) →
  (crossTxs d' = crossTxs d ∧ authorized out = false)
  ∨ ∃ x, crossTxs d' = crossTxs d ++ [x]
      ∧ x_authorized x = authorized out
      ∧ x_requiresHuman x = requiresHuman out
      ∧ x_sourceAgentId x = sourceAgentId req
      ∧ x_targetAgentId x = targetAgentId req
      ∧ x_amount x = amount req ∧ x_createdAt x = now clk
      ∧ (authorized out = false → x_settlementStatus x = S_failed).
Proof.
  unfold authorizeTransaction, _recordTransaction.
  destruct (_resolvePolicy d (sourceAgentId req) (targetAgentId req)) as [p|].
  2:{ cbv zeta iota beta. intros [= <- <-]. right. by eexists. }
  destruct (requireMutualPolicy p && _); [intros [= <- <-]; by left|].
  destruct (findFirst _ _) as [failed|].
  { cbv zeta iota beta. intros [= <- <-]. right. by eexists. }
  destruct (bool_decide (requireHumanApprovalAbove p < amount req)%Q).
  { cbv zeta iota beta. intros [= <- <-]. right. by eexists. }
  cbv zeta iota beta. intros [= <- <-]. right. by eexists.
Qed.

(** X25.  Only authorized payments use up the daily allowance.  An
    authorization that does not authorize (no policy, a failed check, an
    escalation to a human, a missing mutual policy) leaves both daily
    aggregates of every source unchanged, at any later instant, and adds
    no settled row; one that authorizes raises the source's aggregate
    towards the target, and its aggregate towards all agents, by exactly
    the amount. *)
Theorem daily_allowance_counts_authorized_payments_only clk d req d' out :
  authorizeTransaction clk d req = (d', out) →
  (authorized out = false →
     ∀ clk' sourceId targetId,
       spentToTarget clk' d' sourceId targetId
       = spentToTarget clk' d sourceId targetId
       ∧ spentToAll clk' d' sourceId = spentToAll clk' d sourceId
       ∧ settledTowards d' targetId = settledTowards d targetId)
  ∧ (authorized out = true →
     (spentToTarget clk d' (sourceAgentId req) (targetAgentId req)
      == spentToTarget clk d (sourceAgentId req) (targetAgentId req)
         + amount req)%Q
     ∧ (spentToAll clk d' (sourceAgentId req)
        == spentToAll clk d (sourceAgentId req) + amount req)%Q).
Proof.
  intros Hauth.
  destruct (authorizeTransaction_row clk d req d' out Hauth)
    as [[Hsame Hno]|(x & Hx & Ha & _ & Hs & Ht & Hamt & Hat & Hfail)].
  - split; [|congruence]. intros _ clk' s t.
    unfold spentToTarget, spentToAll, settledTowards. by rewrite Hsame.
  - split.
    + intros Hno clk' s t. rewrite Hno in Ha. specialize (Hfail Hno).
      unfold spentToTarget, spentToAll, settledTowards. rewrite Hx, !filter_app.
      rewrite !filter_cons, !filter_nil.
      rewrite (decide_False (P := _ ∧ _ ∧ _ ∧ x_authorized x))
        by (rewrite Ha; intros (_ & _ & _ & []) ).
      rewrite (decide_False (P := _ ∧ _ ∧ x_authorized x))
        by (rewrite Ha; intros (_ & _ & []) ).
      rewrite (decide_False (P := _ ∧ x_settlementStatus x = S_settled))
        by (rewrite Hfail; intros [_ [=]]).
      by rewrite !app_nil_r.
    + intros Hyes. rewrite Hyes in Ha.
      unfold spentToTarget, spentToAll. rewrite Hx, !filter_app.
      rewrite !filter_cons, !filter_nil.
      rewrite (decide_True (P := _ ∧ _ ∧ _ ∧ x_authorized x))
        by (rewrite Ha, Hs, Ht, Hat; repeat split; lia).
      rewrite (decide_True (P := _ ∧ _ ∧ x_authorized x))
        by (rewrite Ha, Hs, Hat; repeat split; lia).
      rewrite !fmap_app, !sumQ_app.
      change (sumQ (x_amount <$> [x])) with (x_amount x + 0)%Q.
      rewrite Hamt. split; lra.
Qed.

(** After a has paid b 10, its aggregate towards b is 10. *)
Lemma daily_allowance_counts_authorized_payments_only_witness :
  (spentToTarget clk0 (authorizeTransaction clk0 db_cross (pay "a" "b" 10)).1
     "a" "b" == 10)%Q.
Proof.
  destruct (authorizeTransaction clk0 db_cross (pay "a" "b" 10))
    as [d' out] eqn:Hauth.
  destruct (daily_allowance_counts_authorized_payments_only clk0 db_cross
              (pay "a" "b" 10) d' out Hauth) as [_ Hyes].
  destruct Hyes as [Ht _].
  - vm_compute in Hauth. injection Hauth as _ <-. reflexivity.
  - simpl. simpl in Ht. rewrite Ht. vm_compute. reflexivity.
Defined.

Lemma sum_filter_alter (P : CrossAgentTransaction → Prop)
    `{∀ x, Decision (P x)} f l i x :
  l !! i = Some x → ¬ P x → P (f x) → x_amount (f x) = x_amount x →
  (sumQ (x_amount <$> filter P (alter f i l))
   == sumQ (x_amount <$> filter P l) + x_amount x)%Q.
Proof.
  intros Hl Hn Hp Hamt. revert i Hl.
  induction l as [|y l IH]; intros [|i] Hl; try done.
  - simpl in Hl. injection Hl as ->. simpl.
    rewrite !filter_cons, decide_True, decide_False by done.
    rewrite fmap_cons. unfold sumQ. cbn [foldr]. rewrite Hamt. lra.
  - simpl in Hl. specialize (IH i Hl). cbn [alter list_alter].
    rewrite !filter_cons. destruct (decide (P y)).
    + rewrite !fmap_cons. unfold sumQ in *. cbn [foldr]. rewrite IH. lra.
    + exact IH.
Qed.

(** X26.  Approving a held payment.  A row that requires a human is
    approved by any operator: it becomes authorized with method
    human_approved and no longer requires a human, while its settlement
    status stays what it was (failed, for a row held by the governor).
    Approving it again fails and changes nothing.  Once approved, a row
    of the last 24 hours that was not authorized before counts towards
    the source's daily aggregate for that target. *)
Theorem human_approval_of_a_held_payment clk d id x operatorId operatorId' :
  crossTxs d !! id = Some x →
  x_requiresHuman x = true →
  ∃ d', approveTransaction d id operatorId = (d', true)
    ∧ crossTxs d' = alter human_approved id (crossTxs d)
    ∧ crossTxs d' !! id = Some (human_approved x)
    ∧ x_authorized (human_approved x) = true
    ∧ x_authorizationMethod (human_approved x) = M_human_approved
    ∧ x_settlementStatus (human_approved x) = x_settlementStatus x
    ∧ approveTransaction d' id operatorId' = (d', false)
    ∧ (x_authorized x = false →
       (now clk - 86400000 ≤ x_createdAt x)%Z →
       (spentToTarget clk d' (x_sourceAgentId x) (x_targetAgentId x)
        == spentToTarget clk d (x_sourceAgentId x) (x_targetAgentId x)
           + x_amount x)%Q).
Proof.
  intros Hx Hh. unfold approveTransaction at 1. rewrite Hx, Hh. simpl.
  eexists. split; [done|]. simpl. split; [done|].
  split; [by rewrite list_lookup_alter_eq, Hx|]. do 3 (split; [done|]).
  split.
  - unfold approveTransaction. simpl. by rewrite list_lookup_alter_eq, Hx.
  - intros Hna Hwin. unfold spentToTarget. simpl.
    apply sum_filter_alter; try done.
    rewrite Hna. intros (_ & _ & _ & []).
Qed.

(** The payment of z, held for want of a policy, is approved by an
    operator; a second approval fails. *)
Lemma human_approval_of_a_held_payment_witness :
  ∃ d', approveTransaction db_held 0 "o1" = (d', true)
    ∧ map (λ x, (x_authorized x, x_settlementStatus x)) (crossTxs d')
      = [(true, S_failed)]
    ∧ approveTransaction d' 0 "o1" = (d', false).
Proof.
  destruct (crossTxs db_held !! 0%nat) as [x|] eqn:Hx;
    [|vm_compute in Hx; discriminate].
  destruct (human_approval_of_a_held_payment clk0 db_held 0 x "o1" "o1" Hx)
    as (d' & Happ & Hrows & _ & _ & _ & _ & Hagain & _).
  - vm_compute in Hx. injection Hx as <-. reflexivity.
  - exists d'. split; [exact Happ|]. split; [|exact Hagain].
    rewrite Hrows. vm_compute. reflexivity.
Defined.

(** X27.  Trust has a cold start.  Under a policy that asks for a positive
    counterparty trust score, a payment to a target towards which no
    payment has settled yet is never authorized, and the attempt leaves
    the target without a settled payment: through such a policy alone the
    target's score cannot leave zero. *)
Theorem trust_needs_a_first_settlement clk d req p :
  _resolvePolicy d (sourceAgentId req) (targetAgentId req) = Some p →
  (0 < minCounterpartyTrustScore p)%Q →
  settledTowards d (targetAgentId req) = [] →
  authorized (authorizeTransaction clk d req).2 = false
  ∧ settledTowards (authorizeTransaction clk d req).1 (targetAgentId req) = [].
Proof.
  intros Hp Hmin Hnone.
  assert (Hno : authorized (authorizeTransaction clk d req).2 = false).
  { destruct (authorizeTransaction clk d req) as [d' out] eqn:Hauth. simpl.
    destruct (authorized out) eqn:Hok; [|done]. exfalso.
    destruct (authorizeTransaction_authorized clk d req d' out Hauth Hok)
      as (p' & Hp' & _ & Hchecks & _).
    rewrite Hp in Hp'. injection Hp' as <-.
    do 4 (apply Forall_cons in Hchecks as [_ Hchecks]).
    apply Forall_cons in Hchecks as [Htrust _].
    unfold _checkCounterpartyTrust in Htrust.
    rewrite bool_decide_eq_false_2 in Htrust by lra.
    unfold settledTowards in Hnone. rewrite Hnone in Htrust. simpl in Htrust.
    apply negb_true_iff, bool_decide_eq_false in Htrust. apply Htrust.
    case_bool_decide; [|done]. unfold Qdiv. rewrite Qmult_0_l. done. }
  split; [exact Hno|].
  destruct (authorizeTransaction clk d req) as [d' out] eqn:Hauth. simpl in *.
  destruct (authorizeTransaction_row clk d req d' out Hauth)
    as [[Hsame _]|(x & Hx & _ & _ & _ & _ & _ & _ & Hfail)].
  - unfold settledTowards in *. by rewrite Hsame.
  - unfold settledTowards in *. rewrite Hx, filter_app, Hnone.
    rewrite filter_cons, filter_nil.
    rewrite decide_False; [done|]. rewrite (Hfail Hno). by intros [_ [=]].
Qed.

(** a's policy asks b for a trust score of one half; b has no history:
    the payment is not authorized. *)
Lemma trust_needs_a_first_settlement_witness :
  authorized (authorizeTransaction clk0 db_trust (pay "a" "b" 10)).2 = false.
Proof.
  destruct (trust_needs_a_first_settlement clk0 db_trust (pay "a" "b" 10)
              trusting_policy) as [Hno _].
  - vm_compute. reflexivity.
  - reflexivity.
  - reflexivity.
  - exact Hno.
Defined.

Lemma resolvePolicy_enabled d sourceId targetId p :
  _resolvePolicy d sourceId targetId = Some p →
  p ∈ policies d ∧ cp_sourceAgentId p = sourceId ∧ cp_enabled p.
Proof.
  intros Hr. pose proof (resolvePolicy_most_specific d sourceId targetId) as Hms.
  rewrite Hr in Hms. inversion Hms as [q Hin Hm|q g _ _ _ Hin Hm|q _ _ Hin Hm|];
    subst.
  - destruct Hm as (? & _ & ?). done.
  - destruct Hm as (? & _ & ?). done.
  - destruct Hm as (? & _ & _ & ?). done.
Qed.

(** X28.  Deleting a policy takes it out of resolution.  After
    [deletePolicy] for an id and its owner, no source and target resolve
    to a policy with that id and owner; whatever resolves is a policy
    that was in the store before. *)
Theorem deleted_policy_no_longer_resolves d policyId ownerId sourceId targetId p :
  _resolvePolicy (deletePolicy d policyId ownerId) sourceId targetId = Some p →
  ¬ (cp_id p = policyId ∧ cp_ownerId p = ownerId)
  ∧ p ∈ policies d.
Proof.
  intros (Hin & _ & Hen)%resolvePolicy_enabled.
  unfold deletePolicy in Hin. simpl in Hin. unfold updateMany in Hin.
  apply list_elem_of_fmap in Hin as (q & -> & Hq).
  destruct (decide (cp_id q = policyId ∧ cp_ownerId q = ownerId)) as [Hm|Hm].
  - simpl in Hen. done.
  - done.
Qed.

(** Once a's exact policy towards b is deleted, b resolves to another
    policy of a. *)
Lemma deleted_policy_no_longer_resolves_witness :
  ∃ p, _resolvePolicy (deletePolicy db_cross "a-b" "o1") "a" "b" = Some p
       ∧ cp_id p ≠ "a-b".
Proof.
  destruct (_resolvePolicy (deletePolicy db_cross "a-b" "o1") "a" "b")
    as [p|] eqn:Hp; [|vm_compute in Hp; discriminate].
  destruct (deleted_policy_no_longer_resolves db_cross "a-b" "o1" "a" "b" p Hp)
    as [Hnot _].
  exists p. split; [reflexivity|]. intros Hid. apply Hnot. split; [exact Hid|].
  vm_compute in Hp. injection Hp as <-. reflexivity.
Defined.

Lemma firstGroupPolicy_snoc_None d sourceId gs new :
  cp_sourceAgentId new ≠ sourceId →
  firstGroupPolicy d sourceId gs = None →
  firstGroupPolicy (set_policies (create new) d) sourceId gs = None.
Proof.
  intros Hne. induction gs as [|g gs IH]; [done|]. simpl. unfold create.
  rewrite findFirst_app.
  destruct (findFirst (groupMatch sourceId g) (policies d)); [done|].
  rewrite findFirst_cons, decide_False by (by intros [? _]).
  exact IH.
Qed.

(** X29.  A policy created with the defaults authorizes nothing on its
    own.  Create a policy for (source, target) giving no limits, where
    none existed for that pair and the target holds no policy towards the
    source: the new policy resolves for the pair, with the default limit
    of 100 per transaction and with [requireMutualPolicy] set, and every
    payment from source to target is refused for want of a mutual policy,
    whatever its amount and type, without any row being recorded. *)
Theorem default_policy_requires_a_mutual_policy clk id d ownerId sourceId
    targetId amt ptype :
  targetId ≠ "" → sourceId ≠ targetId →
  Forall (λ q, ¬ exactMatch sourceId targetId q) (policies d) →
  _resolvePolicy d targetId sourceId = None →
  let params :=
    {| pp_sourceAgentId := sourceId; pp_targetAgentId := Some targetId;
       pp_targetAgentGroup := None; pp_maxPerTransaction := None;
       pp_maxDailyToTarget := None; pp_maxDailyAllAgents := None;
       pp_requireHumanApprovalAbove := None; pp_allowedPaymentTypes := None;
       pp_requireMutualPolicy := None; pp_settlementMode := None;
       pp_minCounterpartyTrustScore := None |} in
  let d1 := createPolicy id d ownerId params in
  let req := {| sourceAgentId := sourceId; targetAgentId := targetId;
                amount := amt; paymentType := ptype |} in
  ∃ p, _resolvePolicy d1 sourceId targetId = Some p
    ∧ cp_id p = id ∧ requireMutualPolicy p = true
    ∧ (maxPerTransaction p == 100)%Q
    ∧ authorizeTransaction clk d1 req
      = (d1, {| authorized := false; requiresHuman := false;
                transactionId := None; out_settlementMode := None;
                out_policyId := None; checks := [] |}).
Proof.
  intros Htgt Hne Hfresh Hrev params d1 req.
  assert (Htruthy : truthy (Some targetId) = true).
  { simpl. by apply negb_true_iff, String.eqb_neq. }
  assert (Hres : ∃ p, _resolvePolicy d1 sourceId targetId = Some p
                      ∧ cp_id p = id ∧ requireMutualPolicy p = true
                      ∧ (maxPerTransaction p == 100)%Q).
  { eexists. split.
    - unfold _resolvePolicy. subst d1. simpl.
      unfold create. rewrite findFirst_app.
      destruct (findFirst (exactMatch sourceId targetId) (policies d))
        as [q|] eqn:Hq.
      { apply findFirst_Some in Hq as [Hin Hm]. rewrite Forall_forall in Hfresh.
        by destruct (Hfresh q Hin). }
      rewrite findFirst_cons, decide_True; [done|].
      unfold exactMatch, or_null. simpl in *. rewrite Htruthy. done.
    - done. }
  assert (Hrev1 : _resolvePolicy d1 targetId sourceId = None).
  { revert Hrev. unfold _resolvePolicy. subst d1. unfold createPolicy.
    match goal with
    | |- context [set_policies (create ?n) d] => set (new := n)
    end.
    assert (Hsrc : cp_sourceAgentId new ≠ targetId) by done.
    change (policies (set_policies (create new) d)) with (policies d ++ [new]).
    change (groups (set_policies (create new) d)) with (groups d).
    rewrite !findFirst_app.
    destruct (findFirst (exactMatch targetId sourceId) (policies d)); [done|].
    rewrite findFirst_cons, decide_False by (by intros [? _]).
    destruct (firstGroupPolicy d targetId _) eqn:Hg; [done|].
    rewrite (firstGroupPolicy_snoc_None d targetId _ new Hsrc Hg).
    destruct (findFirst (wildcardMatch targetId) (policies d)); [done|].
    intros _. by rewrite findFirst_cons, decide_False by (by intros [? _]). }
  destruct Hres as (p & Hp & Hid & Hmut & Hmax).
  exists p. split; [done|]. split; [done|]. split; [done|]. split; [done|].
  unfold authorizeTransaction. simpl. rewrite Hp, Hmut, Hrev1. done.
Qed.

(** In an empty store, a's fresh default policy towards b refuses a
    payment of 10 and records nothing. *)
Lemma default_policy_requires_a_mutual_policy_witness :
  let d1 := createPolicy "new" empty_db "o1"
    {| pp_sourceAgentId := "a"; pp_targetAgentId := Some "b";
       pp_targetAgentGroup := None; pp_maxPerTransaction := None;
       pp_maxDailyToTarget := None; pp_maxDailyAllAgents := None;
       pp_requireHumanApprovalAbove := None; pp_allowedPaymentTypes := None;
       pp_requireMutualPolicy := None; pp_settlementMode := None;
       pp_minCounterpartyTrustScore := None |} in
  authorized (authorizeTransaction clk0 d1 (pay "a" "b" 10)).2 = false
  ∧ crossTxs (authorizeTransaction clk0 d1 (pay "a" "b" 10)).1 = [].
Proof.
  destruct (default_policy_requires_a_mutual_policy clk0 "new" empty_db "o1"
              "a" "b" 10 "compute") as (p & _ & _ & _ & _ & Hauth).
  - discriminate.
  - discriminate.
  - constructor.
  - reflexivity.
  - cbv zeta. unfold pay. rewrite Hauth. split; reflexivity.
Defined.
End cross_agent_limits.

(** ** Deposits: the route and the payment webhook *)

Section deposits.
Import RulesEngine Transactions Scenario.

(** X30.  The payment webhook credits where the deposit route refuses.
    For an existing wallet, whatever its status and whatever the sign of
    the amount, [handlePaymentSuccess] adds amount / 100 to the balance
    and appends one Completed row of category "deposit" for that amount;
    it writes nothing else.  The deposit route, asked for the same
    wallet, refuses without a write as soon as the wallet is not Active,
    or the amount is absent or not positive. *)
Theorem stripe_deposit_skips_the_wallet_checks clk d id w cents :
  id ≠ "" → findWallet d id = Some w →
  (∃ d' t,
     StripeService.handlePaymentSuccess clk d (Some id) cents = Some d'
     ∧ findWallet d' id = Some (credit (cents / 100) w)
     ∧ transactions d' = transactions d ++ [t]
     ∧ tx_walletId t = id ∧ tx_amount t = (cents / 100)%Q
     ∧ tx_status t = COMPLETED ∧ tx_category t = Some "deposit"
     ∧ tx_completedAt t = Some (now clk)
     ∧ agents d' = agents d ∧ auditLogs d' = auditLogs d
     ∧ killSwitches d' = killSwitches d)
  ∧ (∀ auth amount source,
       w_status w ≠ W_ACTIVE
       ∨ amount = None ∨ (∃ a, amount = Some a ∧ a <= 0)%Q →
       ∃ resp, deposit auth clk d id amount source = Some (d, resp)
               ∧ refusal resp).
Proof.
  intros Hne Hw. split.
  - unfold StripeService.handlePaymentSuccess.
    assert (truthy (Some id) = true) as ->.
    { simpl. by apply negb_true_iff, String.eqb_neq. }
    simpl.
    destruct (updateWallet_Some d id (credit (cents / 100)) w)
      as (d1 & -> & -> & Hw1); [done..|].
    simpl. eexists _, _. split; [done|]. split; [exact Hw1|]. done.
  - intros auth amount source Hcase. unfold deposit.
    destruct amount as [a|]; [|by eexists].
    destruct (bool_decide (a == 0)%Q) eqn:H0; [by eexists|]. simpl.
    destruct (bool_decide (a <= 0)%Q) eqn:Hle; [by eexists|].
    rewrite Hw.
    destruct Hcase as [Hst|[[=]|(a' & [= <-] & Ha)]].
    + rewrite (bool_decide_eq_false_2 (w_status w = W_ACTIVE)) by done.
      by eexists.
    + apply bool_decide_eq_false in Hle. done.
Qed.

(** w1 is closed by its kill switch: the webhook still credits 2500
    cents, the deposit route refuses. *)
Lemma stripe_deposit_skips_the_wallet_checks_witness :
  ∃ d', StripeService.handlePaymentSuccess clk0 db_fired (Some "w1") 2500
        = Some d'
    ∧ w_status <$> findWallet d' "w1" = Some W_KILL_SWITCHED
    ∧ (w_balance <$> findWallet d' "w1") = Some (1000 + 2500 / 100)%Q.
Proof.
  destruct (stripe_deposit_skips_the_wallet_checks clk0 db_fired "w1"
              (with_status W_KILL_SWITCHED w1) 2500)
    as [(d' & t & Hpay & Hw & _) _].
  - discriminate.
  - vm_compute. reflexivity.
  - exists d'. split; [exact Hpay|]. rewrite Hw. split; reflexivity.
Defined.
End deposits.
